(** * Power Pocket Calculators: a shallow embedding of [app.js] and
    [service-worker.js]

    JavaScript numbers are IEEE-754 binary64 values; they are embedded as
    Rocq's primitive [float]s, whose operations are the same correctly
    rounded binary64 operations.  Objects used as maps ([values], the
    result objects) are finite maps from the names of their own
    properties to numbers; a missing property reads as [undefined].
    Strings are the byte sequences of their UTF-8 encodings.  Thrown
    errors are explicit: a function that may throw returns a [result]. *)

From Stdlib Require Import ZArith Floats String Ascii List Lia Bool Arith Wf_nat DecimalString DecimalN.
From Stdlib Require Reals Lra.
From stdpp Require Import base option strings gmap.

Local Open Scope string_scope.

(** ** Exceptions and the error monad *)

(** [class CalcError extends Error {}] carries its message.  Any other
    error the host raises (a [TypeError] on a property read from
    [undefined]) is a [HostError]; only its name is kept, the rest of the
    text being engine specific. *)
Inductive exn : Type :=
| CalcError (message : string)
| HostError (description : string).

Inductive result (A : Type) : Type :=
| Ok (a : A)
| Throw (e : exn).
Arguments Ok {A} a.
Arguments Throw {A} e.

#[global] Instance result_ret : MRet result := fun A a => Ok a.

#[global] Instance result_bind : MBind result := fun A B k c =>
  match c with
  | Ok a => k a
  | Throw e => Throw e
  end.

(** ** The host: ECMAScript numbers and built-ins *)

(** The built-ins whose value ECMA-262 leaves "implementation-approximated"
    or that depend on text outside this program are parameters of the
    model. *)
Record Host : Type := {
  (** [Math.acos] on the numbers from -1 up to 1, 1 excluded *)
  acos_approx : float -> float;
  (** [base ** exponent] *)
  exponentiate : float -> float -> float;
  (** [Number::toString] of a finite number of magnitude at least 10^21 *)
  toString_large : float -> string;
  (** [Number(text)] on a non-empty text *)
  StringToNumber : string -> float
}.

Module JS.

Local Open Scope float_scope.

Definition NaN : float := nan.

(** A property read [d.k]: [None] is [undefined]. *)
Definition jsval : Type := option float.

(** [Number.isNaN(v)] does not coerce: [undefined] is not NaN. *)
Definition isNaN_val (v : jsval) : bool :=
  match v with
  | Some x => is_nan x
  | None => false
  end.

(** [ToNumber(v)]: [undefined] becomes NaN. *)
Definition ToNumber (v : jsval) : float :=
  match v with
  | Some x => x
  | None => nan
  end.

(** [v === 0] *)
Definition strict_eq_zero (v : jsval) : bool :=
  match v with
  | Some x => x =? 0
  | None => false
  end.

Definition Math_PI : float := 0x1.921fb54442d18p+1.

Definition Math_sqrt (x : float) : float := sqrt x.

Definition is_neg_zero (x : float) : bool := Leibniz.eqb x neg_zero.
Definition is_pos_zero (x : float) : bool := Leibniz.eqb x PrimFloat.zero.

(** [Math.max(a, b)]: NaN if either is NaN; +0 is larger than -0. *)
Definition Math_max (a b : float) : float :=
  if is_nan a || is_nan b then nan
  else
    let highest := if neg_infinity <? a then a else neg_infinity in
    if is_pos_zero b && is_neg_zero highest then PrimFloat.zero
    else if highest <? b then b else highest.

(** [Math.min(a, b)]: NaN if either is NaN; -0 is smaller than +0. *)
Definition Math_min (a b : float) : float :=
  if is_nan a || is_nan b then nan
  else
    let lowest := if a <? infinity then a else infinity in
    if is_neg_zero b && is_pos_zero lowest then neg_zero
    else if b <? lowest then b else lowest.

(** [Math.acos(x)]: NaN outside [-1, 1] and at NaN, +0 at 1, and the
    host's approximation elsewhere. *)
Definition Math_acos (host : Host) (x : float) : float :=
  if is_nan x || (1 <? x) || (x <? -1) then nan
  else if x =? 1 then PrimFloat.zero
  else acos_approx host x.

(** [x ** 2]: NaN at NaN, +Infinity at the infinities, +0 at the zeros,
    and the host's approximation elsewhere. *)
Definition square (host : Host) (x : float) : float :=
  if is_nan x then nan
  else if is_infinity x then infinity
  else if is_zero x then PrimFloat.zero
  else exponentiate host x 2.

(** *** [Number.prototype.toFixed] *)

Definition decimal (n : N) : string := NilZero.string_of_uint (N.to_uint n).

Fixpoint zeros (k : nat) : string :=
  match k with
  | O => ""
  | S k' => String "0" (zeros k')
  end.

(** The integer [n] for which [n / 10^f - m * 2^e] is closest to zero,
    the larger one when two are equally close. *)
Definition nearest_scaled (m : positive) (e : Z) (f : nat) : N :=
  let scaled := (Z.pos m * 10 ^ Z.of_nat f)%Z in
  Z.to_N (match e with
          | Z0 => scaled
          | Zpos _ => scaled * 2 ^ e
          | Zneg _ => (2 * scaled + 2 ^ (- e)) / 2 ^ (1 - e)
          end)%Z.

(** The decimal digits of [n] with a point before the last [f] of them,
    padded with zeros to at least one digit before the point. *)
Definition fixed_digits (n : N) (f : nat) : string :=
  let m := decimal n in
  match f with
  | O => m
  | S _ =>
      let k := String.length m in
      let m := if (k <=? f)%nat then zeros (f + 1 - k) +:+ m else m in
      let k := String.length m in
      substring 0 (k - f) m +:+ "." +:+ substring (k - f) f m
  end.

Definition ten_pow_21 : float := 1e21.

Definition toFixed (host : Host) (x : float) (f : nat) : string :=
  match Prim2SF x with
  | S754_nan => "NaN"
  | S754_infinity false => "Infinity"
  | S754_infinity true => "-Infinity"
  | S754_zero _ => fixed_digits 0 f
  | S754_finite s m e =>
      let sign := if s then "-" else "" in
      if ten_pow_21 <=? abs x then sign +:+ toString_large host (abs x)
      else sign +:+ fixed_digits (nearest_scaled m e f) f
  end.

(** *** Strings *)

(** [s.replace(/,/g, "")] *)
Fixpoint remove_commas (s : string) : string :=
  match s with
  | EmptyString => EmptyString
  | String c s' =>
      if Ascii.eqb c "," then remove_commas s' else String c (remove_commas s')
  end.

(** Texts are the UTF-8 encodings of the JavaScript strings, which are
    taken to be well formed (no lone surrogate).  The white space and line
    terminators that [trim] strips are the 25 characters of the
    ECMAScript productions WhiteSpace and LineTerminator.  In one byte:
    tab, line feed, vertical tab, form feed, carriage return and space. *)
Definition is_space (c : ascii) : bool :=
  let n := nat_of_ascii c in
  ((9 <=? n) && (n <=? 13) || (n =? 32))%nat.

(** In two bytes: U+00A0, the no-break space (C2 A0). *)
Definition is_space2 (c1 c2 : ascii) : bool :=
  ((nat_of_ascii c1 =? 194) && (nat_of_ascii c2 =? 160))%nat.

(** In three bytes: U+1680 (E1 9A 80), U+2000 to U+200A (E2 80 80 to
    E2 80 8A), U+2028 and U+2029 (E2 80 A8, E2 80 A9), U+202F (E2 80 AF),
    U+205F (E2 81 9F), U+3000 (E3 80 80) and U+FEFF (EF BB BF). *)
Definition is_space3 (c1 c2 c3 : ascii) : bool :=
  let n1 := nat_of_ascii c1 in
  let n2 := nat_of_ascii c2 in
  let n3 := nat_of_ascii c3 in
  ((n1 =? 225) && (n2 =? 154) && (n3 =? 128)
   || (n1 =? 226) && (n2 =? 128) &&
      ((128 <=? n3) && (n3 <=? 138) || (n3 =? 168) || (n3 =? 169) || (n3 =? 175))
   || (n1 =? 226) && (n2 =? 129) && (n3 =? 159)
   || (n1 =? 227) && (n2 =? 128) && (n3 =? 128)
   || (n1 =? 239) && (n2 =? 187) && (n3 =? 191))%nat.

(** A continuation byte of a character of several bytes. *)
Definition continuation (c : ascii) : bool :=
  let n := nat_of_ascii c in ((128 <=? n) && (n <=? 191))%nat.

(** The text is a sequence of white space and line terminators, possibly
    empty. *)
Fixpoint spaces (s : string) : bool :=
  match s with
  | EmptyString => true
  | String c1 s1 =>
      if is_space c1 then spaces s1
      else match s1 with
           | EmptyString => false
           | String c2 s2 =>
               if is_space2 c1 c2 then spaces s2
               else match s2 with
                    | EmptyString => false
                    | String c3 s3 => is_space3 c1 c2 c3 && spaces s3
                    end
           end
  end.

(** The text [String c1 s1] starts with a character that [trim] does not
    strip. *)
Definition starts_black (c1 : ascii) (s1 : string) : Prop :=
  is_space c1 = false /\
  match s1 with
  | EmptyString => True
  | String c2 s2 =>
      is_space2 c1 c2 = false /\
      match s2 with
      | EmptyString => True
      | String c3 s3 => is_space3 c1 c2 c3 = false
      end
  end.

(** The text without the white space it starts with. *)
Fixpoint trim_start (s : string) : string :=
  match s with
  | EmptyString => EmptyString
  | String c1 s1 =>
      if is_space c1 then trim_start s1
      else match s1 with
           | EmptyString => s
           | String c2 s2 =>
               if is_space2 c1 c2 then trim_start s2
               else match s2 with
                    | EmptyString => s
                    | String c3 s3 => if is_space3 c1 c2 c3 then trim_start s3 else s
                    end
           end
  end.

(** The text without the white space it ends with: it is cut where what
    follows is white space only. *)
Fixpoint trim_end (s : string) : string :=
  match s with
  | EmptyString => EmptyString
  | String c s' => if spaces s then EmptyString else String c (trim_end s')
  end.

(** [s.trim()] *)
Definition trim (s : string) : string := trim_end (trim_start s).

End JS.

(** ** [app.js] *)

Module App.
Import JS.

Local Open Scope float_scope.
Local Notation "x >? y" := (PrimFloat.ltb y x) (at level 70, no associativity) : float_scope.
Local Notation "x >=? y" := (PrimFloat.leb y x) (at level 70, no associativity) : float_scope.

Section WithHost.
Context (host : Host).

(** *** Pure computation *)

Definition power_factor (p_kw s_kva : float) : result float :=
  if s_kva <=? 0 then Throw (CalcError "kVA must be > 0")
  else if p_kw <? 0 then Throw (CalcError "kW must be ≥ 0")
  else if p_kw >? s_kva then Throw (CalcError "kW cannot exceed kVA")
  else Ok (p_kw / s_kva).

Definition reactive_power_kvar (s_kva p_kw : float) : result float :=
  if s_kva <=? 0 then Throw (CalcError "kVA must be > 0")
  else if p_kw <? 0 then Throw (CalcError "kW must be ≥ 0")
  else if p_kw >? s_kva then Throw (CalcError "kW cannot exceed kVA")
  else
    let val := square host s_kva - square host p_kw in
    Ok (Math_sqrt (if val >? 0 then val else 0)).

Definition phase_angle_deg (s_kva p_kw : float) : result float :=
  x ← power_factor p_kw s_kva;
  let pf := Math_min 1 (Math_max 0 x) in
  Ok ((180 / Math_PI) * Math_acos host pf).

Definition load_kw_single (volts amps pf : float) : result float :=
  if volts <=? 0 then Throw (CalcError "Volts must be > 0")
  else if amps <=? 0 then Throw (CalcError "Amps must be > 0")
  else if negb ((pf >=? 0) && (pf <=? 1))
       then Throw (CalcError "Power factor must be between 0 and 1")
  else Ok (volts * amps * pf / 1000).

Definition load_kw_three (volts amps pf : float) : result float :=
  if volts <=? 0 then Throw (CalcError "Volts must be > 0")
  else if amps <=? 0 then Throw (CalcError "Amps must be > 0")
  else if negb ((pf >=? 0) && (pf <=? 1))
       then Throw (CalcError "Power factor must be between 0 and 1")
  else Ok (Math_sqrt 3 * volts * amps * pf / 1000).

(** *** Controller spec *)

Record InputDesc : Type := { key : string; label : string; hint : string }.

(** The [values] object handed to [compute] and the object it returns: a
    property that is absent, or whose value is [undefined], reads as
    [None]. *)
Record CalcSpec : Type := {
  inputs : list InputDesc;
  compute : gmap string float -> result (gmap string float);
  format : gmap string float -> result string
}.

(** [d.k] passed where a number is expected. *)
Definition num (d : gmap string float) (k : string) : float := ToNumber (d !! k).

(** [{k: v}] extended: a property holding [undefined] reads like an absent
    one. *)
Definition with_prop (k : string) (v : jsval) (o : gmap string float) :
  gmap string float :=
  match v with
  | Some x => <[k := x]> o
  | None => o
  end.

(** [r.k.toFixed(f)]: reading [toFixed] from [undefined] is a TypeError. *)
Definition fixed (r : gmap string float) (k : string) (f : nat) : result string :=
  match r !! k with
  | Some x => Ok (toFixed host x f)
  | None => Throw (HostError "TypeError")
  end.

Definition ohms_law_compute (d : gmap string float) : result (gmap string float) :=
  let v := d !! "volts" in
  let i := d !! "amps" in
  let r := d !! "ohms" in
  let known := length (List.filter (fun x => negb (isNaN_val x)) [v; i; r]) in
  if negb (known =? 2)%nat then Throw (CalcError "Provide exactly two of V, I, R")
  else
    let object (v i r : jsval) : gmap string float :=
      with_prop "ohms" r (with_prop "amps" i (with_prop "volts" v ∅)) in
    if isNaN_val v then Ok (object (Some (ToNumber i * ToNumber r)) i r)
    else if isNaN_val i then
      if strict_eq_zero r then Throw (CalcError "R must not be 0")
      else Ok (object v (Some (ToNumber v / ToNumber r)) r)
    else if isNaN_val r then
      if strict_eq_zero i then Throw (CalcError "I must not be 0")
      else Ok (object v i (Some (ToNumber v / ToNumber i)))
    else Ok (object v i r).

Definition CALCS : list (string * CalcSpec) :=
  [ ("Power Factor",
     {| inputs :=
          [ {| key := "p_kw"; label := "Real Power (kW)"; hint := "e.g. 80" |};
            {| key := "s_kva"; label := "Apparent Power (kVA)"; hint := "e.g. 100" |} ];
        compute := fun d =>
          pf ← power_factor (num d "p_kw") (num d "s_kva");
          Ok {[ "pf" := pf ]};
        format := fun r =>
          s ← fixed r "pf" 4; Ok ("PF = " +:+ s) |});
    ("Reactive Power",
     {| inputs :=
          [ {| key := "s_kva"; label := "Apparent Power (kVA)"; hint := "e.g. 100" |};
            {| key := "p_kw"; label := "Real Power (kW)"; hint := "e.g. 80" |} ];
        compute := fun d =>
          q ← reactive_power_kvar (num d "s_kva") (num d "p_kw");
          Ok {[ "q" := q ]};
        format := fun r =>
          s ← fixed r "q" 3; Ok ("Q = " +:+ s +:+ " kVAr") |});
    ("Phase Angle",
     {| inputs :=
          [ {| key := "s_kva"; label := "Apparent Power (kVA)"; hint := "e.g. 100" |};
            {| key := "p_kw"; label := "Real Power (kW)"; hint := "e.g. 80" |} ];
        compute := fun d =>
          theta ← phase_angle_deg (num d "s_kva") (num d "p_kw");
          Ok {[ "theta" := theta ]};
        format := fun r =>
          s ← fixed r "theta" 2; Ok ("θ = " +:+ s +:+ "°") |});
    ("Ohm's Law",
     {| inputs :=
          [ {| key := "volts"; label := "Voltage (V)"; hint := "e.g. 120 (or blank)" |};
            {| key := "amps"; label := "Current (A)"; hint := "e.g. 10 (or blank)" |};
            {| key := "ohms"; label := "Resistance (Ω)"; hint := "e.g. 12 (or blank)" |} ];
        compute := ohms_law_compute;
        format := fun r =>
          v ← fixed r "volts" 3;
          i ← fixed r "amps" 3;
          o ← fixed r "ohms" 3;
          Ok ("V=" +:+ v +:+ " V, I=" +:+ i +:+ " A, R=" +:+ o +:+ " Ω") |});
    ("Load (Single-Phase)",
     {| inputs :=
          [ {| key := "volts"; label := "Volts (V)"; hint := "e.g. 480" |};
            {| key := "amps"; label := "Amps (A)"; hint := "e.g. 10" |};
            {| key := "pf"; label := "Power Factor (0–1)"; hint := "e.g. 0.8" |} ];
        compute := fun d =>
          kw ← load_kw_single (num d "volts") (num d "amps") (num d "pf");
          Ok {[ "kw" := kw ]};
        format := fun r =>
          s ← fixed r "kw" 3; Ok ("P = " +:+ s +:+ " kW") |});
    ("Load (Three-Phase)",
     {| inputs :=
          [ {| key := "volts"; label := "Volts (V)"; hint := "e.g. 480" |};
            {| key := "amps"; label := "Amps (A)"; hint := "e.g. 10" |};
            {| key := "pf"; label := "Power Factor (0–1)"; hint := "e.g. 0.8" |} ];
        compute := fun d =>
          kw ← load_kw_three (num d "volts") (num d "amps") (num d "pf");
          Ok {[ "kw" := kw ]};
        format := fun r =>
          s ← fixed r "kw" 3; Ok ("P = " +:+ s +:+ " kW") |}) ].

(** [CALCS[name]]; using a property of the missing entry is a TypeError. *)
Definition calc (name : string) : result CalcSpec :=
  match List.find (fun entry => String.eqb (fst entry) name) CALCS with
  | Some entry => Ok (snd entry)
  | None => Throw (HostError "TypeError")
  end.

(** *** UI *)

(** One text input of the form: its [data-key] and its current text. *)
Record InputEl : Type := { data_key : string; value : string }.

(** The part of the page the handlers read and write. *)
Record Page : Type := {
  selected : string;
  form : list InputEl;
  result_text : string;
  result_error : bool
}.

(** [Object.keys(CALCS)], the options of the dropdown. *)
Definition populateDropdown : list string := map fst CALCS.

Definition buildForm (name : string) (page : Page) : result Page :=
  spec ← calc name;
  Ok {| selected := selected page;
        form := map (fun inp => {| data_key := key inp; value := "" |}) (inputs spec);
        result_text := result_text page;
        result_error := result_error page |}.

Definition parse_field (text : string) : float :=
  let raw := trim (remove_commas text) in
  if String.eqb raw "" then NaN else StringToNumber host raw.

(** The map holds the own properties of [values].  What an object
    literal inherits from [Object.prototype] ([constructor], [toString],
    [__proto__] and the like) is not in it: the keys of the fields that
    [buildForm] builds, which are the only ones the calculators read, are
    none of those names. *)
Definition collectInputs (name : string) (page : Page) : gmap string float :=
  fold_left (fun values el => <[data_key el := parse_field (value el)]> values)
            (form page) ∅.

Definition showResult (text : string) (isError : bool) (page : Page) : Page :=
  {| selected := selected page;
     form := form page;
     result_text := text;
     result_error := isError |}.

(** [CALCS[name].format(CALCS[name].compute(parsed))] *)
Definition compute_and_format (name : string) (parsed : gmap string float) :
  result string :=
  spec ← calc name;
  out ← compute spec parsed;
  format spec out.

(** The click handler of the compute button. *)
Definition on_compute (page : Page) : Page :=
  let name := selected page in
  match compute_and_format name (collectInputs name page) with
  | Ok text => showResult text false page
  | Throw (CalcError message) => showResult ("[error] " +:+ message) true page
  | Throw (HostError description) =>
      showResult ("[unexpected] " +:+ description) true page
  end.

(** The change handler of the dropdown, once [name] is selected. *)
Definition on_change (name : string) (page : Page) : result Page :=
  buildForm name
    (showResult "" false
       {| selected := name;
          form := form page;
          result_text := result_text page;
          result_error := result_error page |}).

(** The click handler of the clear button. *)
Definition on_clear (page : Page) : Page :=
  showResult ""  false
    {| selected := selected page;
       form := map (fun el => {| data_key := data_key el; value := "" |}) (form page);
       result_text := result_text page;
       result_error := result_error page |}.

(** The user types [text] into the field with the given key. *)
Definition type_into (k text : string) (page : Page) : Page :=
  {| selected := selected page;
     form := map (fun el => if String.eqb (data_key el) k
                            then {| data_key := k; value := text |} else el)
                 (form page);
     result_text := result_text page;
     result_error := result_error page |}.

End WithHost.
End App.

(** ** [service-worker.js] *)

Module ServiceWorker.

Section Worker.
(** What a cache stores for a request. *)
Context {Response : Type}.
(** [Date.now()] when the worker script is evaluated. *)
Variable now : N.
(** [fetch(url)]: [None] when the request fails. *)
Variable network : string -> option Response.

Definition CACHE : string := "ppc-cache-v2-" +:+ JS.decimal now.

Definition ASSETS : list string :=
  [ "./";
    "./index.html";
    "./styles.css";
    "./app.js";
    "./manifest.json";
    "./assets/icon-512.png";
    "./assets/icon.svg";
    "./assets/background.png" ].

(** [Boolean(s)] on a string: only the empty string is falsy. *)
Definition Boolean (s : string) : bool := negb (String.eqb s "").

(** A cache maps request URLs to responses; the cache storage holds the
    named caches in creation order, which is the order of [caches.keys()]. *)
Definition Cache : Type := list (string * Response).
Definition CacheStorage : Type := list (string * Cache).

Record Worker : Type := {
  caches : CacheStorage;
  skipped_waiting : bool;
  claimed_clients : bool;
  install_failed : bool
}.

Definition caches_keys (cs : CacheStorage) : list string := map fst cs.

Definition caches_has (k : string) (cs : CacheStorage) : bool :=
  existsb (fun c => String.eqb (fst c) k) cs.

(** [caches.delete(k)] *)
Definition caches_delete (k : string) (cs : CacheStorage) : CacheStorage :=
  List.filter (fun c => negb (String.eqb (fst c) k)) cs.

(** [caches.open(k)] creates the cache when there is none of that name. *)
Definition caches_open (k : string) (cs : CacheStorage) : CacheStorage :=
  if caches_has k cs then cs else (cs ++ [(k, [])])%list.

Definition cache_of (k : string) (cs : CacheStorage) : Cache :=
  match List.find (fun c => String.eqb (fst c) k) cs with
  | Some c => snd c
  | None => []
  end.

Definition cache_put (url : string) (r : Response) (c : Cache) : Cache :=
  (List.filter (fun e => negb (String.eqb (fst e) url)) c ++ [(url, r)])%list.

(** [c.addAll(urls)] fetches every URL and stores all the responses, or
    rejects and stores none when a fetch fails. *)
Fixpoint fetch_all (urls : list string) : option (list (string * Response)) :=
  match urls with
  | [] => Some []
  | url :: rest =>
      match network url, fetch_all rest with
      | Some r, Some rs => Some ((url, r) :: rs)
      | _, _ => None
      end
  end.

Definition cache_addAll (urls : list string) (c : Cache) : option Cache :=
  match fetch_all urls with
  | Some fetched => Some (fold_left (fun c e => cache_put (fst e) (snd e) c) fetched c)
  | None => None
  end.

Definition set_cache (k : string) (c : Cache) (cs : CacheStorage) : CacheStorage :=
  map (fun e => if String.eqb (fst e) k then (k, c) else e) cs.

(** The first [install] listener. *)
Definition install_first (w : Worker) : Worker :=
  {| caches := caches w;
     skipped_waiting := true;
     claimed_clients := claimed_clients w;
     install_failed := install_failed w |}.

(** The second [install] listener. *)
Definition install_second (w : Worker) : Worker :=
  let cs := caches_open CACHE (caches w) in
  match cache_addAll (List.filter Boolean ASSETS) (cache_of CACHE cs) with
  | Some c =>
      {| caches := set_cache CACHE c cs;
         skipped_waiting := skipped_waiting w;
         claimed_clients := claimed_clients w;
         install_failed := install_failed w |}
  | None =>
      {| caches := cs;
         skipped_waiting := skipped_waiting w;
         claimed_clients := claimed_clients w;
         install_failed := true |}
  end.

Definition on_install (w : Worker) : Worker := install_second (install_first w).

(** The first [activate] listener. *)
Definition activate_first (w : Worker) : Worker :=
  let keys := caches_keys (caches w) in
  {| caches :=
       fold_left
         (fun cs k =>
            if String.prefix "ppc-cache-" k && negb (String.eqb k CACHE)
            then caches_delete k cs else cs)
         keys (caches w);
     skipped_waiting := skipped_waiting w;
     claimed_clients := true;
     install_failed := install_failed w |}.

(** The second [activate] listener. *)
Definition activate_second (w : Worker) : Worker :=
  let keys := caches_keys (caches w) in
  {| caches :=
       fold_left (fun cs k => caches_delete k cs)
                 (List.filter (fun k => negb (String.eqb k CACHE)) keys)
                 (caches w);
     skipped_waiting := skipped_waiting w;
     claimed_clients := claimed_clients w;
     install_failed := install_failed w |}.

(** Both listeners are registered for the one [activate] event. *)
Definition on_activate (w : Worker) : Worker := activate_second (activate_first w).

(** [caches.match(request)]: the first cache, in creation order, that holds
    the request answers. *)
Fixpoint caches_match (url : string) (cs : CacheStorage) : option Response :=
  match cs with
  | [] => None
  | (_, c) :: rest =>
      match List.find (fun e => String.eqb (fst e) url) c with
      | Some e => Some (snd e)
      | None => caches_match url rest
      end
  end.

(** The [fetch] listener: the cached response, or else the network's. *)
Definition on_fetch (url : string) (w : Worker) : option Response :=
  match caches_match url (caches w) with
  | Some r => Some r
  | None => network url
  end.

End Worker.
End ServiceWorker.

(** ** Vocabulary of the specification *)

Module Spec.
Import JS App ServiceWorker.

Local Open Scope float_scope.

(** A host whose approximations are the simplest possible, to run the
    model on concrete inputs: [acos] is constantly 0, [x ** y] is [x * x],
    and no text parses to a number. *)
Definition plain_host : Host :=
  {| acos_approx := fun _ => 0;
     exponentiate := fun x _ => x * x;
     toString_large := fun _ => "";
     StringToNumber := fun _ => nan |}.

(** The page when the dropdown shows [name], before its form is built. *)
Definition opened (name : string) : Page :=
  {| selected := name; form := []; result_text := ""; result_error := false |}.

(** The user types [texts] into the fields of the form, in order. *)
Definition fill (texts : list string) (page : Page) : Page :=
  {| selected := selected page;
     form := zip_with (fun el text => {| data_key := data_key el; value := text |})
                      (form page) texts;
     result_text := result_text page;
     result_error := result_error page |}.

(** Scenario 5: V = 480, I = 10, pf = 0.8; the number 0.8 is the binary64
    number nearest to it. *)
Definition scenario5 : gmap string float :=
  <["volts" := 480]> (<["amps" := 10]> (<["pf" := 0x1.999999999999ap-1]> ∅)).

(** Scenario 1 (P = 80, S = 100), scenario 6 (P = 120, S = 100) and
    scenario 4 (V = 120, I = 10, R blank). *)
Definition scenario1 : gmap string float := <["p_kw" := 80]> (<["s_kva" := 100]> ∅).
Definition scenario6 : gmap string float := <["p_kw" := 120]> (<["s_kva" := 100]> ∅).
Definition scenario4 : gmap string float :=
  <["volts" := 120]> (<["amps" := 10]> (<["ohms" := NaN]> ∅)).

(** The number of quantities of Ohm's law that are provided. *)
Definition provided (x : float) : bool := negb (is_nan x).
Definition known (v i r : float) : nat := length (List.filter provided [v; i; r]).

(** The binary64 number nearest to a quarter turn, pi / 2. *)
Definition quarter_turn : float := 0x1.921fb54442d18p+0.

(** The host's [Math.acos] maps the numbers from 0 up to 1 into the
    quarter turn. *)
Definition acos_within_quarter_turn (host : Host) : Prop :=
  forall x, (0 <=? x) = true -> (x <? 1) = true ->
    (0 <=? acos_approx host x) = true /\
    (acos_approx host x <=? quarter_turn) = true.

(** The handler reports the failure in the generic form. *)
Definition shows_unexpected (page : Page) : Prop :=
  result_error page = true /\
  String.prefix "[unexpected] " (result_text page) = true.

(** The two outcomes of a click that are not the generic failure: a result
    is displayed, or a validation error is. *)
Definition displayed_or_rejected (page : Page) : Prop :=
  result_error page = false \/
  exists message,
    result_error page = true /\ result_text page = "[error] " +:+ message.

(** A required field that parses to NaN is reported in the generic form,
    for every calculator but Ohm's law, where a blank field is how the
    unknown is chosen. *)
Definition nan_is_reported_unexpected : Prop :=
  forall host name page texts,
    buildForm host name (opened name) = Ok page -> name <> "Ohm's Law" ->
    length texts = length (form page) ->
    (exists text, In text texts /\ is_nan (parse_field host text) = true) ->
    shows_unexpected (on_compute host (fill texts page)).

(** The object [{volts: v, amps: i, ohms: r}]. *)
Definition ohm_values (v i r : float) : gmap string float :=
  <["ohms" := r]> (<["amps" := i]> (<["volts" := v]> ∅)).

(** The message of the load calculators when the power factor is NaN:
    the checks run in the order volts, amps, power factor. *)
Definition load_rejection (volts amps : float) : string :=
  if volts <=? 0 then "Volts must be > 0"
  else if amps <=? 0 then "Amps must be > 0"
  else "Power factor must be between 0 and 1".

(** The kinds of assets the specification names. *)
Inductive asset_kind : Type :=
| RootDocument | Stylesheet | Script | Manifest | Image | OtherAsset.

Definition ends_with (suffix s : string) : bool :=
  let n := String.length s in
  let k := String.length suffix in
  (k <=? n)%nat && String.eqb (substring (n - k) k s) suffix.

(** The kind of an asset, read off its path. *)
Definition kind_of (path : string) : asset_kind :=
  if String.eqb path "./" || ends_with ".html" path then RootDocument
  else if ends_with ".css" path then Stylesheet
  else if ends_with ".js" path then Script
  else if ends_with "manifest.json" path then Manifest
  else if ends_with ".png" path || ends_with ".svg" path then Image
  else OtherAsset.

Definition kind_eqb (a b : asset_kind) : bool :=
  match a, b with
  | RootDocument, RootDocument | Stylesheet, Stylesheet | Script, Script
  | Manifest, Manifest | Image, Image | OtherAsset, OtherAsset => true
  | _, _ => false
  end.

Definition count_kind (k : asset_kind) (paths : list string) : nat :=
  length (List.filter (fun path => kind_eqb (kind_of path) k) paths).

(** The asset list as the specification describes it: the root document,
    the stylesheet, the script, the manifest, four images and nothing
    else. *)
Definition assets_as_described (paths : list string) : Prop :=
  count_kind RootDocument paths = 1%nat /\
  count_kind Stylesheet paths = 1%nat /\
  count_kind Script paths = 1%nat /\
  count_kind Manifest paths = 1%nat /\
  count_kind Image paths = 4%nat /\
  count_kind OtherAsset paths = 0%nat.

(** The activate event leaves untouched every cache without the prefix
    and deletes, among the others, exactly those that are not current. *)
Definition activate_as_described {Response : Type} (now : N)
  (before after : @CacheStorage Response) : Prop :=
  forall c, In c after <->
    In c before /\
    (String.prefix "ppc-cache-" (fst c) = false \/ fst c = CACHE now).

(** The caches of a worker that shares its origin with another
    application: a cache of that application, a stale cache of this one
    and the current one. *)
Definition foreign_worker : @Worker unit :=
  {| caches := [ ("workbox-runtime", []);
                 ("ppc-cache-v2-1700000000000", []);
                 (CACHE 1700000005000, []) ];
     skipped_waiting := true;
     claimed_clients := false;
     install_failed := false |}.

(** A worker that has no cache yet, and a network that serves every
    request with its own URL. *)
Definition fresh_worker : @Worker string :=
  {| caches := []; skipped_waiting := false;
     claimed_clients := false; install_failed := false |}.

Definition echo_network (url : string) : option string := Some url.

End Spec.

(** ** Real numbers: vocabulary *)

(** The real number a binary64 number stands for, and what it means for
    the numbers a calculator returns to agree to floating-point
    tolerance. *)
Module Exact.
Import Stdlib.Reals.Reals.
Import JS App Spec.

Local Open Scope R_scope.

(** [2^e] for an integer exponent. *)
Definition bpow (e : Z) : R := powerRZ 2 e.

(** The real number a representation stands for; the infinities and NaN
    stand for none and count as 0. *)
Definition SF2R (x : spec_float) : R :=
  match x with
  | S754_finite s m e => (if s then -1 else 1) * IZR (Zpos m) * bpow e
  | _ => 0
  end.

Definition F2R (x : float) : R := SF2R (Prim2SF x).

Local Open Scope float_scope.

(** A normal number: neither zero, subnormal, infinite nor NaN. *)
Definition normal (x : float) : bool :=
  (0x1p-1022 <=? abs x) && (abs x <? infinity).

(** V = I * R to within the fraction [tol] of V, on finite numbers. *)
Definition ohm_agrees (tol : R) (v i r : float) : Prop :=
  is_finite v = true /\ is_finite i = true /\ is_finite r = true /\
  (Rabs (F2R v - F2R i * F2R r) <= tol * Rabs (F2R v))%R.

(** Ohm's law as the specification has it: whenever two quantities are
    provided and compute returns, the three numbers returned agree. *)
Definition ohms_law_within_tolerance (tol : R) : Prop :=
  forall v i r v' i' r', known v i r = 2%nat ->
    ohms_law_compute (ohm_values v i r) = Ok (ohm_values v' i' r') ->
    ohm_agrees tol v' i' r'.

(** The three-phase load is [sqrt 3] times the single-phase load to
    within one part in [2^48]. *)
Definition load_agrees (single three : float) : Prop :=
  is_finite single = true /\ is_finite three = true /\
  (Rabs (F2R three - F2R (Math_sqrt 3) * F2R single) <= bpow (-48) * Rabs (F2R three))%R.

(** No product or quotient on the way to the two loads overflows or
    underflows. *)
Definition load_steps_normal (volts amps pf : float) : bool :=
  normal (volts * amps) && normal (volts * amps * pf) &&
  normal (volts * amps * pf / 1000) &&
  normal (Math_sqrt 3 * volts) && normal (Math_sqrt 3 * volts * amps) &&
  normal (Math_sqrt 3 * volts * amps * pf) &&
  normal (Math_sqrt 3 * volts * amps * pf / 1000).

End Exact.

(** ** The page in use *)

(** The vocabulary for what the user does at the page and for what the
    page then shows. *)
Module Session.
Import JS App Spec.


(** U+00A0, the no-break space, in UTF-8. *)
Definition no_break_space : string := String "194" (String "160" EmptyString).

(** What the user does once the page is loaded: pick an option of the
    dropdown, type into a field, click Compute, click Clear. *)
Inductive action : Type :=
| Choose (name : string)
| TypeInto (k text : string)
| ClickCompute
| ClickClear.

(** The load handler: the dropdown is populated, its first option is the
    selected one and the form of that calculator is built. *)
Definition on_load (host : Host) : result Page :=
  match populateDropdown host with
  | current :: _ => buildForm host current (opened current)
  | [] => Throw (HostError "TypeError")
  end.

(** The handler that answers an action. *)
Definition act (host : Host) (a : action) (page : Page) : result Page :=
  match a with
  | Choose name => on_change host name page
  | TypeInto k text => Ok (type_into k text page)
  | ClickCompute => Ok (on_compute host page)
  | ClickClear => Ok (on_clear page)
  end.

(** The dropdown offers the names of [populateDropdown] and no other. *)
Definition offered (host : Host) (a : action) : Prop :=
  match a with
  | Choose name => In name (populateDropdown host)
  | _ => True
  end.

(** The handlers run one after the other, each on the page the previous
    one left; an exception that escapes a handler ends the run. *)
Fixpoint session (host : Host) (actions : list action) (page : Page) : result Page :=
  match actions with
  | [] => Ok page
  | a :: rest => next ← act host a page; session host rest next
  end.

(** The form on the page is the one of the selected calculator. *)
Definition form_of_selected (host : Host) (page : Page) : Prop :=
  exists spec, In (selected page, spec) (CALCS host) /\
               map data_key (form page) = map key (inputs spec).

(** What a click on Compute shows while every field is blank: the text,
    and whether it is flagged as an error. *)
Definition blank_display (name : string) : string * bool :=
  if String.eqb name "Power Factor" then ("PF = NaN", false)
  else if String.eqb name "Reactive Power" then ("Q = 0.000 kVAr", false)
  else if String.eqb name "Phase Angle" then ("θ = NaN°", false)
  else if String.eqb name "Ohm's Law" then ("[error] Provide exactly two of V, I, R", true)
  else ("[error] Power factor must be between 0 and 1", true).

Definition is_digit (c : ascii) : bool :=
  let n := nat_of_ascii c in ((48 <=? n) && (n <=? 57))%nat.

(** A ratio as the Power Factor calculator prints it: 0 or 1, a point and
    four digits. *)
Definition ratio_text (t : string) : bool :=
  match t with
  | String d (String "." (String a (String b (String c (String e ""))))) =>
      (Ascii.eqb d "0" || Ascii.eqb d "1") &&
      is_digit a && is_digit b && is_digit c && is_digit e
  | _ => false
  end.

(** [p] holds of every number below [k]. *)
Definition all_below (k : N) (p : N -> bool) : bool :=
  N.peano_rect (fun _ => bool) true (fun n rest => p n && rest) k.

(** The form of Ohm's law with 12 typed into the voltage. *)
Definition ohm_page_with_volts : Page :=
  {| selected := "Ohm's Law";
     form := [ {| data_key := "volts"; value := "12" |};
               {| data_key := "amps"; value := "" |};
               {| data_key := "ohms"; value := "" |} ];
     result_text := "";
     result_error := false |}.

(** A network on which one URL cannot be fetched. *)
Definition network_without (missing : string) (url : string) : option string :=
  if String.eqb url missing then None else Some url.

End Session.

(** ** Binary64 rounding: vocabulary *)

Module Rounding.

Local Open Scope Z_scope.

Abbreviation fexp64 := (fexp prec emax).

(** The number of bits [shr_fexp] shifts out of the mantissa [m] at
    exponent [e]. *)
Definition shift_of (m e : Z) : Z := Z.max 0 (fexp64 (Zdigits2 m + e) - e).

(** The float built from a rounded mantissa and its exponent. *)
Definition rounded (s : bool) (m e : Z) : spec_float :=
  match m with
  | Z0 => S754_zero s
  | Zpos p => if e <=? emax - prec then S754_finite s p e else S754_infinity s
  | Zneg _ => S754_nan
  end.

(** No non-zero bit was shifted out. *)
Definition exact_record (mrs : shr_record) : Prop :=
  shr_r mrs = false /\ shr_s mrs = false.

(** The number one. *)
Definition SF_one : spec_float := S754_finite false 4503599627370496 (-52).

(** What the comparisons with zero say about a representation. *)
Inductive sf_positive : spec_float -> Prop :=
| pos_infinity : sf_positive (S754_infinity false)
| pos_finite m e : sf_positive (S754_finite false m e).

Inductive sf_nonneg : spec_float -> Prop :=
| nonneg_zero s : sf_nonneg (S754_zero s)
| nonneg_positive x : sf_positive x -> sf_nonneg x.

End Rounding.

(** * Proofs *)

(** ** Rounding in [SpecFloat]: what [binary_round_aux] returns *)

Module RoundingFacts.
Import Rounding.

Local Open Scope Z_scope.

(** *** Binary digits *)

(** A positive number of [d] binary digits lies between [2^(d-1)] and
    [2^d]. *)
Lemma digits2_pos_bounds p :
  2 ^ (Zpos (digits2_pos p) - 1) <= Zpos p < 2 ^ Zpos (digits2_pos p).
Proof.
  induction p as [p IH|p IH|]; cbn [digits2_pos].
  - rewrite Pos2Z.inj_succ, Z.pow_succ_r by lia.
    replace (Z.succ (Zpos (digits2_pos p)) - 1) with (Z.succ (Zpos (digits2_pos p) - 1)) by lia.
    rewrite Z.pow_succ_r by lia. lia.
  - rewrite Pos2Z.inj_succ, Z.pow_succ_r by lia.
    replace (Z.succ (Zpos (digits2_pos p)) - 1) with (Z.succ (Zpos (digits2_pos p) - 1)) by lia.
    rewrite Z.pow_succ_r by lia. lia.
  - cbn. lia.
Qed.

Lemma Zdigits2_nonneg m : 0 <= Zdigits2 m.
Proof. destruct m; cbn; lia. Qed.

Lemma Zdigits2_bound m : 0 <= m -> m < 2 ^ Zdigits2 m.
Proof.
  destruct m as [|p|p]; cbn [Zdigits2]; intros H; [cbn; lia| |lia].
  apply digits2_pos_bounds.
Qed.

Lemma Zdigits2_lower m : 0 < m -> 2 ^ (Zdigits2 m - 1) <= m.
Proof.
  destruct m as [|p|p]; cbn [Zdigits2]; intros H; [lia| |lia].
  apply digits2_pos_bounds.
Qed.

(** A number below [2^k] has at most [k] digits. *)
Lemma Zdigits2_le_of_lt m k : 0 <= m -> 0 <= k -> m < 2 ^ k -> Zdigits2 m <= k.
Proof.
  intros Hm Hk Hlt.
  destruct (Z.eq_dec m 0) as [->|Hne]; [cbn; lia|].
  assert (Hlow := Zdigits2_lower m ltac:(lia)).
  destruct (Z_le_gt_dec (Zdigits2 m) k) as [|Hgt]; [assumption|exfalso].
  assert (2 ^ k <= 2 ^ (Zdigits2 m - 1)) by (apply Z.pow_le_mono_r; lia).
  lia.
Qed.

(** *** Right shifts *)

(** One step of [shr] halves the mantissa; [p] steps divide it by [2^p]. *)
Lemma shr_1_m mrs : 0 <= shr_m mrs -> shr_m (shr_1 mrs) = shr_m mrs / 2.
Proof.
  destruct mrs as [m r s]; cbn [shr_m]; intros H.
  destruct m as [|[p|p|]|p]; cbn [shr_1 shr_m]; try lia.
  - reflexivity.
  - rewrite Pos2Z.inj_xI. apply Z.div_unique with (r := 1); lia.
  - rewrite Pos2Z.inj_xO. apply Z.div_unique with (r := 0); lia.
  - reflexivity.
Qed.

Lemma shr_iter_m p : forall mrs, 0 <= shr_m mrs ->
  shr_m (SpecFloat.iter_pos shr_1 p mrs) = shr_m mrs / 2 ^ Zpos p.
Proof.
  induction p as [p IH|p IH|]; intros mrs H; cbn [SpecFloat.iter_pos].
  - assert (H1 : 0 <= shr_m (shr_1 mrs)) by (rewrite shr_1_m by assumption; apply Z.div_pos; lia).
    assert (H2 : 0 <= shr_m (SpecFloat.iter_pos shr_1 p (shr_1 mrs))).
    { rewrite IH by assumption. apply Z.div_pos; lia. }
    rewrite IH, IH, shr_1_m by assumption.
    rewrite !Z.div_div by lia.
    f_equal. rewrite Pos2Z.inj_xI. rewrite Z.pow_add_r, Z.pow_mul_r by lia.
    change (2 ^ 2) with 4. change (2 ^ 1) with 2.
    replace (4 ^ Zpos p) with (2 ^ Zpos p * 2 ^ Zpos p).
    2:{ rewrite <- Z.pow_add_r by lia. replace (Zpos p + Zpos p) with (2 * Zpos p) by lia.
        rewrite Z.pow_mul_r by lia. reflexivity. }
    lia.
  - assert (H2 : 0 <= shr_m (SpecFloat.iter_pos shr_1 p mrs)).
    { rewrite IH by assumption. apply Z.div_pos; lia. }
    rewrite IH, IH by assumption.
    rewrite Z.div_div by lia. f_equal.
    rewrite Pos2Z.inj_xO. rewrite <- Z.pow_add_r by lia. f_equal. lia.
  - rewrite shr_1_m by assumption. reflexivity.
Qed.

(** Shifting out zero bits only leaves the record exact. *)
Lemma shr_1_exact mrs :
  0 <= shr_m mrs -> exact_record mrs -> (2 | shr_m mrs) -> exact_record (shr_1 mrs).
Proof.
  destruct mrs as [m r s]. unfold exact_record. cbn [shr_m shr_r shr_s].
  intros Hm [-> ->] [k Hk].
  destruct m as [|[p|p|]|p]; cbn; try lia; auto.
Qed.

Lemma divide_pow2_split a b m :
  0 <= a -> 0 <= b -> (2 ^ (a + b) | m) -> (2 ^ a | m) /\ (2 ^ b | m / 2 ^ a).
Proof.
  intros Ha Hb [k Hk]. rewrite Z.pow_add_r in Hk by assumption.
  assert (0 < 2 ^ a) by (apply Z.pow_pos_nonneg; lia).
  split.
  - exists (k * 2 ^ b). lia.
  - exists k. replace m with (k * 2 ^ b * 2 ^ a) by lia. rewrite Z.div_mul by lia. reflexivity.
Qed.

Lemma shr_iter_exact p : forall mrs,
  0 <= shr_m mrs -> exact_record mrs -> (2 ^ Zpos p | shr_m mrs) ->
  exact_record (SpecFloat.iter_pos shr_1 p mrs).
Proof.
  induction p as [p IH|p IH|]; intros mrs Hm Hx Hd; cbn [SpecFloat.iter_pos].
  - rewrite (Pos2Z.inj_xI p) in Hd. replace (2 * Zpos p + 1) with (1 + (Zpos p + Zpos p)) in Hd by lia.
    apply divide_pow2_split in Hd; try lia. destruct Hd as [Hd1 Hd]. change (2 ^ 1) with 2 in *.
    apply divide_pow2_split in Hd; try lia. destruct Hd as [Hd2 Hd3].
    assert (H1 : 0 <= shr_m (shr_1 mrs)) by (rewrite shr_1_m by assumption; apply Z.div_pos; lia).
    assert (H2 : 0 <= shr_m (SpecFloat.iter_pos shr_1 p (shr_1 mrs))).
    { rewrite shr_iter_m by assumption. apply Z.div_pos; [lia|]. apply Z.pow_pos_nonneg; lia. }
    apply IH; [assumption| |].
    + apply IH; [assumption| |].
      * now apply shr_1_exact.
      * now rewrite shr_1_m.
    + now rewrite shr_iter_m, shr_1_m.
  - rewrite (Pos2Z.inj_xO p) in Hd. replace (2 * Zpos p) with (Zpos p + Zpos p) in Hd by lia.
    apply divide_pow2_split in Hd; try lia. destruct Hd as [Hd2 Hd3].
    assert (H2 : 0 <= shr_m (SpecFloat.iter_pos shr_1 p mrs)).
    { rewrite shr_iter_m by assumption. apply Z.div_pos; [lia|]. apply Z.pow_pos_nonneg; lia. }
    apply IH; [assumption| |].
    + now apply IH.
    + now rewrite shr_iter_m.
  - now apply shr_1_exact.
Qed.

(** *** The two shifts of [binary_round_aux] *)
Lemma fexp64_eq e : fexp64 e = Z.max (e - 53) (-1074).
Proof. reflexivity. Qed.

(* the mantissa and exponent after the shift of [shr_fexp] *)
Lemma shr_record_of_loc_m m l : shr_m (shr_record_of_loc m l) = m.
Proof. destruct l as [|[]]; reflexivity. Qed.

(** [shr_fexp] divides the mantissa by [2 ^ shift_of m e] and adds the
    shift to the exponent. *)
Lemma shr_fexp_spec m e l : 0 <= m ->
  shr_m (fst (shr_fexp prec emax m e l)) = m / 2 ^ shift_of m e /\
  snd (shr_fexp prec emax m e l) = e + shift_of m e.
Proof.
  intros Hm. unfold shr_fexp, shift_of, shr.
  destruct (fexp64 (Zdigits2 m + e) - e) as [|p|p] eqn:E; cbn [fst snd].
  - rewrite shr_record_of_loc_m. cbn. rewrite Z.div_1_r. lia.
  - rewrite shr_iter_m by (rewrite shr_record_of_loc_m; assumption).
    rewrite shr_record_of_loc_m.
    replace (Z.max 0 (Zpos p)) with (Zpos p) by lia. split; reflexivity.
  - rewrite shr_record_of_loc_m. 
    replace (Z.max 0 (Zneg p)) with 0 by lia. cbn. rewrite Z.div_1_r. lia.
Qed.

Lemma shr_fexp_exact m e : 0 <= m -> (2 ^ shift_of m e | m) ->
  exact_record (fst (shr_fexp prec emax m e loc_Exact)).
Proof.
  intros Hm. unfold shr_fexp, shift_of, shr.
  destruct (fexp64 (Zdigits2 m + e) - e) as [|p|p] eqn:E; cbn [fst];
    try (intros _; split; reflexivity).
  replace (Z.max 0 (Zpos p)) with (Zpos p) by lia. intros Hd.
  apply shr_iter_exact; [assumption|split; reflexivity|assumption].
Qed.

Lemma loc_of_exact_record mrs : exact_record mrs -> loc_of_shr_record mrs = loc_Exact.
Proof. destruct mrs as [m r s]. intros [H1 H2]. cbn in *. now subst. Qed.

(** Rounding to nearest adds nothing or one. *)
Lemma round_nearest_even_bounds m l :
  m <= round_nearest_even m l <= m + 1.
Proof.
  unfold round_nearest_even. destruct l as [|[]]; try lia.
  destruct (Z.even m); lia.
Qed.

Lemma pow2_pos n : 0 <= n -> 0 < 2 ^ n.
Proof. intros. apply Z.pow_pos_nonneg; lia. Qed.

Lemma div_pow2_nonneg m n : 0 <= m -> 0 <= n -> 0 <= m / 2 ^ n.
Proof. intros. apply Z.div_pos; [assumption|now apply pow2_pos]. Qed.

Lemma shift_of_nonneg m e : 0 <= shift_of m e.
Proof. unfold shift_of. lia. Qed.

(** [binary_round_aux] shifts, rounds to a mantissa [m2], shifts again
    and packs the result; when the first shift is exact, [m2] is the
    shifted mantissa itself. *)
Lemma binary_round_aux_unfold s m e l : 0 <= m ->
  exists m2,
    m / 2 ^ shift_of m e <= m2 <= m / 2 ^ shift_of m e + 1 /\
    (l = loc_Exact -> (2 ^ shift_of m e | m) -> m2 = m / 2 ^ shift_of m e) /\
    binary_round_aux prec emax s m e l =
      rounded s (m2 / 2 ^ shift_of m2 (e + shift_of m e))
                (e + shift_of m e + shift_of m2 (e + shift_of m e)).
Proof.
  intros Hm. unfold binary_round_aux.
  destruct (shr_fexp_spec m e l Hm) as [Hm1 He1].
  assert (Hx := shr_fexp_exact m e Hm).
  destruct (shr_fexp prec emax m e l) as [mrs1 e1] eqn:E1. cbn [fst snd] in Hm1, He1.
  set (m2 := round_nearest_even (shr_m mrs1) (loc_of_shr_record mrs1)).
  assert (Hb : shr_m mrs1 <= m2 <= shr_m mrs1 + 1) by apply round_nearest_even_bounds.
  assert (H1 : 0 <= shr_m mrs1) by (rewrite Hm1; apply div_pow2_nonneg; [lia|apply shift_of_nonneg]).
  assert (Hm2 : 0 <= m2) by lia.
  destruct (shr_fexp_spec m2 e1 loc_Exact Hm2) as [Hm3 He3].
  destruct (shr_fexp prec emax m2 e1 loc_Exact) as [mrs3 e3]. cbn [fst snd] in Hm3, He3.
  exists m2. rewrite <- Hm1. split; [assumption|]. split.
  - intros -> Hd. rewrite E1 in Hx. cbn [fst] in Hx.
    unfold m2. now rewrite (loc_of_exact_record mrs1 (Hx Hd)).
  - rewrite Hm3, He3, He1. reflexivity.
Qed.

(** The rounding of a non-negative mantissa keeps the sign. *)
Lemma binary_round_aux_sign s m e l : 0 <= m ->
  match binary_round_aux prec emax s m e l with
  | S754_zero s' | S754_infinity s' | S754_finite s' _ _ => s' = s
  | S754_nan => False
  end.
Proof.
  intros Hm. destruct (binary_round_aux_unfold s m e l Hm) as (m2 & Hb & _ & ->).
  assert (0 <= m / 2 ^ shift_of m e) by (apply div_pow2_nonneg; [lia|apply shift_of_nonneg]).
  assert (H3 : 0 <= m2 / 2 ^ shift_of m2 (e + shift_of m e))
    by (apply div_pow2_nonneg; [lia|apply shift_of_nonneg]).
  unfold rounded. destruct (m2 / 2 ^ shift_of m2 (e + shift_of m e)); try lia; try reflexivity.
  now destruct (_ <=? _).
Qed.

(** A value below one rounds to at most one. *)
Lemma binary_round_aux_le_one m e l :
  0 <= m -> e <= -53 -> Zdigits2 m + e <= 0 ->
  SFleb (binary_round_aux prec emax false m e l) SF_one = true.
Proof.
  intros Hm He Hd.
  destruct (binary_round_aux_unfold false m e l Hm) as (m2 & Hb & _ & ->).
  set (n1 := shift_of m e) in *. set (e1 := e + n1) in *.
  assert (Hn1 : 0 <= n1) by apply shift_of_nonneg.
  assert (Hn1' : fexp64 (Zdigits2 m + e) - e <= n1) by (unfold n1, shift_of; lia).
  assert (He1 : -1074 <= e1 <= -53).
  { unfold e1, n1, shift_of. rewrite fexp64_eq. lia. }
  assert (Hm1 : 0 <= m / 2 ^ n1 < 2 ^ 53).
  { split; [apply div_pow2_nonneg; lia|].
    apply Z.div_lt_upper_bound; [now apply pow2_pos|].
    rewrite <- Z.pow_add_r by lia.
    assert (Hlt := Zdigits2_bound m Hm).
    assert (2 ^ Zdigits2 m <= 2 ^ (n1 + 53)).
    { apply Z.pow_le_mono_r; [lia|]. rewrite fexp64_eq in Hn1'. lia. }
    lia. }
  assert (Hm2 : 0 <= m2 <= 2 ^ 53) by lia.
  destruct (Z.eq_dec m2 (2 ^ 53)) as [->|Hne].
  - assert (Hs : shift_of (2 ^ 53) e1 = 1).
    { unfold shift_of. change (Zdigits2 (2 ^ 53)) with 54. rewrite fexp64_eq. lia. }
    rewrite Hs. change (2 ^ 53 / 2 ^ 1) with 4503599627370496.
    unfold rounded. replace (e1 + 1 <=? emax - prec) with true.
    2:{ symmetry. apply Z.leb_le. change (emax - prec) with 971. lia. }
    unfold SFleb, SFcompare, SF_one.
    destruct (Z.compare_spec (e1 + 1) (-52)); try reflexivity. lia.
  - assert (Hd2 : Zdigits2 m2 <= 53) by (apply Zdigits2_le_of_lt; lia).
    assert (Hs : shift_of m2 e1 = 0).
    { unfold shift_of. rewrite fexp64_eq. lia. }
    rewrite Hs. change (2 ^ 0) with 1. rewrite Z.div_1_r, Z.add_0_r.
    unfold rounded. destruct m2 as [|p|p]; try lia; try reflexivity.
    replace (e1 <=? emax - prec) with true.
    2:{ symmetry. apply Z.leb_le. change (emax - prec) with 971. lia. }
    unfold SFleb, SFcompare, SF_one.
    destruct (Z.compare_spec e1 (-52)); try reflexivity; lia.
Qed.

(** A positive value above the smallest subnormal does not round to zero. *)
Lemma binary_round_aux_pos s m e l :
  0 < m -> -1074 < Zdigits2 m + e ->
  binary_round_aux prec emax s m e l = S754_infinity s \/
  exists p e', binary_round_aux prec emax s m e l = S754_finite s p e'.
Proof.
  intros Hm Hd.
  assert (Hstep : forall m e, 0 < m -> -1074 < Zdigits2 m + e ->
            0 < m / 2 ^ shift_of m e /\ -1074 <= e + shift_of m e).
  { clear. intros m e Hm Hd. 
    assert (Hlow := Zdigits2_lower m Hm).
    assert (Hn : 0 <= shift_of m e <= Zdigits2 m - 1).
    { unfold shift_of. rewrite fexp64_eq.
      assert (1 <= Zdigits2 m).
      { destruct m; cbn in *; lia. }
      lia. }
    split.
    - apply Z.div_str_pos. split; [apply pow2_pos; lia|].
      assert (2 ^ shift_of m e <= 2 ^ (Zdigits2 m - 1)) by (apply Z.pow_le_mono_r; lia).
      lia.
    - unfold shift_of. rewrite fexp64_eq. lia. }
  destruct (binary_round_aux_unfold s m e l ltac:(lia)) as (m2 & Hb & _ & ->).
  destruct (Hstep m e Hm Hd) as [H1 He1].
  assert (Hm2 : 0 < m2) by lia.
  assert (Hd2 : -1074 < Zdigits2 m2 + (e + shift_of m e)).
  { assert (1 <= Zdigits2 m2) by (destruct m2; cbn in *; lia). lia. }
  destruct (Hstep m2 _ Hm2 Hd2) as [H3 _].
  unfold rounded. destruct (m2 / 2 ^ shift_of m2 (e + shift_of m e)) as [|p|p]; try lia.
  destruct (_ <=? _); [right; eauto|left; reflexivity].
Qed.

(** *** Division *)

(** The mantissa of a valid float has at most 53 digits, exactly 53 above
    the smallest exponent. *)
Lemma bounded_canonical m e : bounded prec emax m e = true ->
  fexp64 (Zpos (digits2_pos m) + e) = e /\ e <= 971.
Proof.
  unfold bounded, canonical_mantissa. rewrite andb_true_iff, Z.eqb_eq, Z.leb_le.
  change (emax - prec) with 971. tauto.
Qed.

Lemma bounded_digits m e : bounded prec emax m e = true ->
  Zpos (digits2_pos m) <= 53 /\ -1074 <= e /\
  (-1074 < e -> Zpos (digits2_pos m) = 53).
Proof.
  intros H. apply bounded_canonical in H. destruct H as [H _].
  rewrite fexp64_eq in H. lia.
Qed.

(** The quotient [SFdiv_core_binary] hands to the rounding. *)
Lemma SFdiv_core_binary_q mx ex my ey :
  let e' := Z.min (fexp64 (Zpos (digits2_pos mx) + ex - (Zpos (digits2_pos my) + ey))) (ex - ey) in
  exists l,
  SFdiv_core_binary prec emax (Zpos mx) ex (Zpos my) ey =
    (Zpos mx * 2 ^ (ex - ey - e') / Zpos my, e', l) /\
  (Zpos mx * 2 ^ (ex - ey - e') mod Zpos my = 0 -> l = loc_Exact).
Proof.
  intros e'. unfold SFdiv_core_binary. cbn [Zdigits2]. fold e'.
  assert (Hs : 0 <= ex - ey - e') by (unfold e'; lia).
  set (m' := match ex - ey - e' with
             | 0 => Zpos mx
             | Zpos _ => Z.shiftl (Zpos mx) (ex - ey - e')
             | Zneg _ => 0
             end).
  assert (Hm' : m' = Zpos mx * 2 ^ (ex - ey - e')).
  { unfold m'. destruct (ex - ey - e') as [|p|p] eqn:E; try lia.
    now rewrite Z.shiftl_mul_pow2 by lia. }
  rewrite <- Hm'. unfold Z.div, Z.modulo.
  destruct (Z.div_eucl m' (Zpos my)) as [q r]. eexists. split; [reflexivity|].
  intros ->. unfold new_location, new_location_even, new_location_odd.
  now destruct (Z.even (Zpos my)).
Qed.

(** A finite number divided by itself is exactly one. *)
Lemma SFdiv_diag s m e :
  SFdiv prec emax (S754_finite s m e) (S754_finite s m e) = SF_one.
Proof.
  cbn [SFdiv]. rewrite xorb_nilpotent.
  destruct (SFdiv_core_binary_q m e m e) as (l & -> & Hexact).
  rewrite !Z.sub_diag in Hexact |- *.
  change (Z.min (fexp64 0) 0) with (-53) in Hexact |- *.
  change (0 - -53) with 53 in Hexact |- *.
  rewrite Hexact by (rewrite Z.mul_comm; apply Z.mod_mul; lia).
  rewrite Z.mul_comm, Z.div_mul by lia.
  vm_compute. reflexivity.
Qed.

(** Dividing a positive finite number by one that is not smaller gives at
    most one. *)
Lemma SFdiv_finite_le_one mx ex my ey :
  bounded prec emax mx ex = true -> bounded prec emax my ey = true ->
  SFleb (S754_finite false mx ex) (S754_finite false my ey) = true ->
  SFleb (SFdiv prec emax (S754_finite false mx ex) (S754_finite false my ey)) SF_one = true.
Proof.
  intros Bx By Hle.
  assert (Hcases : (ex < ey \/ (ex = ey /\ Zpos mx < Zpos my)) \/ (ex = ey /\ mx = my)).
  { unfold SFleb, SFcompare in Hle.
    destruct (Z.compare_spec ex ey) as [E|E|E]; try discriminate; [|lia].
    rewrite Pos.compare_cont_spec in Hle. cbn [Pos.switch_Eq] in Hle.
    destruct (Pos.compare_spec mx my) as [E'|E'|E']; try discriminate; [tauto|lia]. }
  clear Hle. destruct Hcases as [Hlt|[-> ->]]; [|now rewrite SFdiv_diag].
  destruct (bounded_digits _ _ Bx) as (Hdx & Hex & Hnx).
  destruct (bounded_digits _ _ By) as (Hdy & Hey & Hny).
  assert (Hbx := digits2_pos_bounds mx). assert (Hby := digits2_pos_bounds my).
  cbn [SFdiv xorb].
  destruct (SFdiv_core_binary_q mx ex my ey) as (l & -> & _).
  set (dx := Zpos (digits2_pos mx)) in *. set (dy := Zpos (digits2_pos my)) in *.
  set (e' := Z.min (fexp64 (dx + ex - (dy + ey))) (ex - ey)) in *.
  assert (Hk : 0 <= ey - ex) by lia.
  assert (Hmul : Zpos mx < Zpos my * 2 ^ (ey - ex)).
  { destruct Hlt as [Hlt|[-> Hlt]].
    - assert (dy = 53) by lia.
      assert (2 ^ dx <= 2 ^ 53) by (apply Z.pow_le_mono_r; lia).
      assert (2 ^ 1 <= 2 ^ (ey - ex)) by (apply Z.pow_le_mono_r; lia).
      assert (2 ^ 52 <= Zpos my) by (replace 52 with (dy - 1) by lia; apply Hby).
      change (2 ^ 1) with 2 in *. change (2 ^ 52) with 4503599627370496 in *.
      change (2 ^ 53) with 9007199254740992 in *. nia.
    - rewrite Z.sub_diag. cbn. lia. }
  assert (HE : dx + ex - (dy + ey) <= 0).
  { destruct Hlt as [Hlt|[-> Hlt]]; [lia|].
    assert (dx <= dy); [|lia].
    apply (Zdigits2_le_of_lt (Zpos mx) dy); lia. }
  assert (He' : e' <= -53) by (unfold e'; rewrite fexp64_eq; lia).
  assert (He'' : e' <= ex - ey) by (unfold e'; lia).
  assert (Hq : 0 <= Zpos mx * 2 ^ (ex - ey - e') / Zpos my < 2 ^ (- e')).
  { split.
    - apply Z.div_pos; [|lia]. apply Z.mul_nonneg_nonneg; [lia|].
      apply Z.lt_le_incl, pow2_pos. lia.
    - apply Z.div_lt_upper_bound; [lia|].
      replace (- e') with ((ex - ey - e') + (ey - ex)) by lia.
      rewrite Z.pow_add_r by lia.
      assert (0 < 2 ^ (ex - ey - e')) by (apply pow2_pos; lia).
      nia. }
  apply binary_round_aux_le_one; [lia|assumption|].
  assert (Zdigits2 (Zpos mx * 2 ^ (ex - ey - e') / Zpos my) <= - e'); [|lia].
  apply Zdigits2_le_of_lt; lia.
Qed.

(** An exactly known value that does not exceed a representable bound
    rounds to at most that bound. *)
Lemma binary_round_aux_le_bound m e mB eB :
  0 <= m -> e <= eB -> bounded prec emax mB eB = true ->
  m <= Zpos mB * 2 ^ (eB - e) ->
  SFleb (binary_round_aux prec emax false m e loc_Exact) (S754_finite false mB eB) = true.
Proof.
  intros Hm He HB Hle.
  destruct (bounded_canonical _ _ HB) as [_ HeB].
  destruct (bounded_digits _ _ HB) as (HdB & HeB' & _).
  assert (HmB : Zpos mB < 2 ^ 53).
  { assert (H := digits2_pos_bounds mB).
    assert (2 ^ Zpos (digits2_pos mB) <= 2 ^ 53) by (apply Z.pow_le_mono_r; lia). lia. }
  destruct (binary_round_aux_unfold false m e loc_Exact Hm) as (m2 & Hb & Hx & ->).
  specialize (Hx eq_refl).
  set (n1 := shift_of m e) in *. set (e1 := e + n1) in *.
  assert (Hn1 : 0 <= n1) by apply shift_of_nonneg.
  assert (Hn1' : fexp64 (Zdigits2 m + e) - e <= n1) by (unfold n1, shift_of; lia).
  assert (Hp1 : 0 < 2 ^ n1) by now apply pow2_pos.
  assert (He1 : -1074 <= e1 <= eB).
  { split; [unfold e1; rewrite fexp64_eq in Hn1'; lia|].
    destruct (Z_le_gt_dec e1 eB) as [|Hgt]; [assumption|exfalso].
    assert (Hn : n1 = Zdigits2 m + e - 53 - e).
    { unfold e1, n1, shift_of in *. rewrite fexp64_eq in *. lia. }
    assert (Hpos : 0 < m).
    { destruct (Z.eq_dec m 0) as [->|]; [|lia]. cbn in Hn. unfold e1 in Hgt. lia. }
    assert (Hlow := Zdigits2_lower m Hpos).
    assert (2 ^ (53 + (eB - e)) <= 2 ^ (Zdigits2 m - 1)).
    { apply Z.pow_le_mono_r; [lia|]. unfold e1 in Hgt. lia. }
    rewrite Z.pow_add_r in * by lia.
    assert (0 < 2 ^ (eB - e)) by (apply pow2_pos; lia).
    nia. }
  set (B1 := Zpos mB * 2 ^ (eB - e1)).
  assert (HB1 : Zpos mB * 2 ^ (eB - e) = B1 * 2 ^ n1).
  { unfold B1. rewrite <- Z.mul_assoc, <- Z.pow_add_r by lia. do 2 f_equal. unfold e1. lia. }
  assert (Hm1 : 0 <= m / 2 ^ n1 <= B1).
  { split; [now apply div_pow2_nonneg|].
    apply Z.div_le_upper_bound; [assumption|]. lia. }
  assert (Hm2 : 0 <= m2 <= B1).
  { split; [lia|].
    destruct (Z.eq_dec (m / 2 ^ n1) B1) as [Heq|Hne]; [|lia].
    rewrite Hx; [lia|].
    exists B1. assert (Hd := Z.mul_div_le m (2 ^ n1) Hp1). rewrite Heq in Hd. lia. }
  assert (Hm1' : m / 2 ^ n1 < 2 ^ 53).
  { apply Z.div_lt_upper_bound; [assumption|].
    rewrite <- Z.pow_add_r by lia.
    assert (Hlt := Zdigits2_bound m Hm).
    assert (2 ^ Zdigits2 m <= 2 ^ (n1 + 53)).
    { apply Z.pow_le_mono_r; [lia|]. rewrite fexp64_eq in Hn1'. lia. }
    lia. }
  assert (Hp2 : 0 < 2 ^ (eB - e1)) by (apply pow2_pos; lia).
  destruct (Z.eq_dec m2 (2 ^ 53)) as [->|Hne].
  - assert (Hs : shift_of (2 ^ 53) e1 = 1).
    { unfold shift_of. change (Zdigits2 (2 ^ 53)) with 54. rewrite fexp64_eq. lia. }
    rewrite Hs. change (2 ^ 53 / 2 ^ 1) with 4503599627370496.
    assert (He3 : e1 + 1 <= eB).
    { destruct (Z.eq_dec e1 eB) as [Heq|]; [|lia]. exfalso.
      unfold B1 in Hm2. rewrite Heq, Z.sub_diag in Hm2. cbn in Hm2. lia. }
    unfold rounded. replace (e1 + 1 <=? emax - prec) with true.
    2:{ symmetry. apply Z.leb_le. change (emax - prec) with 971. lia. }
    unfold SFleb, SFcompare.
    destruct (Z.compare_spec (e1 + 1) eB) as [Heq|Hlt|Hgt]; try reflexivity; [|lia].
    rewrite Pos.compare_cont_spec. cbn [Pos.switch_Eq].
    destruct (Pos.compare_spec 4503599627370496 mB) as [| |Hgt]; try reflexivity.
    exfalso. assert (Hk : eB - e1 = 1) by (clear - Heq; lia).
    unfold B1 in Hm2. rewrite Hk in Hm2.
    change (2 ^ 1) with 2 in Hm2. change (2 ^ 53) with 9007199254740992 in Hm2.
    apply Pos2Z.pos_lt_pos in Hgt. clear - Hm2 Hgt. lia.
  - assert (Hd2 : Zdigits2 m2 <= 53) by (apply Zdigits2_le_of_lt; lia).
    assert (Hs : shift_of m2 e1 = 0).
    { unfold shift_of. rewrite fexp64_eq. lia. }
    rewrite Hs. change (2 ^ 0) with 1. rewrite Z.div_1_r, Z.add_0_r.
    unfold rounded. destruct m2 as [|p|p]; try lia; try reflexivity.
    replace (e1 <=? emax - prec) with true.
    2:{ symmetry. apply Z.leb_le. change (emax - prec) with 971. lia. }
    unfold SFleb, SFcompare.
    destruct (Z.compare_spec e1 eB) as [Heq|Hlt|Hgt]; try reflexivity; [|lia].
    rewrite Pos.compare_cont_spec. cbn [Pos.switch_Eq].
    destruct (Pos.compare_spec p mB) as [| |Hgt]; try reflexivity.
    exfalso. apply Pos2Z.pos_lt_pos in Hgt.
    unfold B1 in Hm2. rewrite Heq, Z.sub_diag, Z.pow_0_r in Hm2. clear - Hm2 Hgt. lia.
Qed.

End RoundingFacts.

(** ** Facts about binary64 operations *)

Module FloatFacts.
Import Rounding RoundingFacts JS.
Import Spec (quarter_turn).

Local Open Scope float_scope.

(** *** Representations *)
Lemma SF_zero : Prim2SF 0 = S754_zero false.
Proof. reflexivity. Qed.
Lemma SF_one_eq : Prim2SF 1 = SF_one.
Proof. reflexivity. Qed.

Lemma is_nan_Prim2SF x : is_nan x = true -> Prim2SF x = S754_nan.
Proof. intros H. unfold Prim2SF. now rewrite H. Qed.

Lemma is_nan_eq x : is_nan x = true -> x = nan.
Proof. intros H. apply Prim2SF_inj. now rewrite (is_nan_Prim2SF x H). Qed.

Lemma Prim2SF_bounded x s m e : Prim2SF x = S754_finite s m e -> bounded prec emax m e = true.
Proof. intros H. generalize (Prim2SF_valid x). now rewrite H. Qed.

(** *** Comparisons with zero *)
Lemma ltb_0_positive x : (0 <? x) = true <-> sf_positive (Prim2SF x).
Proof.
  rewrite FloatAxioms.ltb_spec, SF_zero. unfold SFltb, SFcompare.
  destruct (Prim2SF x) as [s|[]| |[] m e]; split; intros H;
    try discriminate; try reflexivity; try constructor; inversion H.
Qed.

Lemma leb_0_nonneg x : (0 <=? x) = true <-> sf_nonneg (Prim2SF x).
Proof.
  rewrite FloatAxioms.leb_spec, SF_zero. unfold SFleb, SFcompare.
  destruct (Prim2SF x) as [s|[]| |[] m e]; split; intros H;
    try discriminate; try reflexivity; try (repeat constructor);
    inversion H as [|? H']; inversion H'.
Qed.

Lemma positive_not_leb_0 x : (0 <? x) = true -> (x <=? 0) = false.
Proof.
  rewrite ltb_0_positive, leb_spec, SF_zero. now intros [].
Qed.

Lemma nonneg_not_ltb_0 x : (0 <=? x) = true -> (x <? 0) = false.
Proof.
  rewrite leb_0_nonneg, ltb_spec, SF_zero. intros [s|? []]; reflexivity.
Qed.

(** *** Antisymmetry *)
Lemma SFcompare_antisym x y c :
  SFcompare x y = Some c -> SFcompare y x = Some (CompOpp c).
Proof.
  destruct x as [sx|[]| |[] mx ex], y as [sy|[]| |[] my ey]; cbn;
    intros H; inversion H; subst; try reflexivity.
  - rewrite (Z.compare_antisym ex ey). destruct (ex ?= ey)%Z; cbn; try reflexivity.
    rewrite !Pos.compare_cont_spec. cbn. rewrite (Pos.compare_antisym mx my).
    now destruct (mx ?= my)%positive.
  - rewrite (Z.compare_antisym ex ey). destruct (ex ?= ey)%Z; cbn; try reflexivity.
    rewrite !Pos.compare_cont_spec. cbn. rewrite (Pos.compare_antisym mx my).
    now destruct (mx ?= my)%positive.
Qed.

Lemma leb_not_gtb x y : (x <=? y) = true -> (y <? x) = false.
Proof.
  rewrite FloatAxioms.leb_spec, ltb_spec. unfold SFleb, SFltb.
  destruct (SFcompare (Prim2SF x) (Prim2SF y)) as [c|] eqn:E; [|discriminate].
  rewrite (SFcompare_antisym _ _ _ E). now destruct c.
Qed.

(** *** Quotients *)
Lemma is_infinity_SF x s : Prim2SF x = S754_infinity s -> is_infinity x = true.
Proof.
  intros H. unfold is_infinity. rewrite FloatAxioms.eqb_spec, abs_spec, H. reflexivity.
Qed.

Lemma SFdiv_finite_nonneg mx ex my ey :
  sf_nonneg (SFdiv prec emax (S754_finite false mx ex) (S754_finite false my ey)).
Proof.
  cbn [SFdiv xorb].
  destruct (SFdiv_core_binary_q mx ex my ey) as (l & -> & _).
  match goal with |- sf_nonneg (binary_round_aux _ _ _ ?q ?e ?l) =>
    assert (Hq : (0 <= q)%Z);
    [|generalize (binary_round_aux_sign false q e l Hq);
      destruct (binary_round_aux prec emax false q e l) as [s|s| |s m e0];
      intros Hs; try contradiction; subst; repeat constructor]
  end.
  apply Z.div_pos; [|lia]. apply Z.mul_nonneg_nonneg; [lia|].
  apply Z.pow_nonneg. lia.
Qed.

Lemma sf_nonneg_leb x : sf_nonneg x -> SFleb (S754_zero false) x = true.
Proof. intros [s|? []]; reflexivity. Qed.

Lemma sf_positive_inv x : sf_positive x ->
  x = S754_infinity false \/ exists m e, x = S754_finite false m e.
Proof. intros []; eauto. Qed.

Lemma sf_nonneg_inv x : sf_nonneg x ->
  (exists s, x = S754_zero s) \/ sf_positive x.
Proof. intros []; eauto. Qed.

(** The quotient of a finite [P] by [S], where [0 <= P <= S] and [0 < S],
    lies between zero and one. *)
Lemma div_unit_interval P S :
  (0 <? S) = true -> (0 <=? P) = true -> (P <=? S) = true ->
  is_infinity P = false ->
  (0 <=? P / S) = true /\ (P / S <=? 1) = true.
Proof.
  rewrite ltb_0_positive, leb_0_nonneg. intros HS HP Hle Hfin.
  rewrite !FloatAxioms.leb_spec, div_spec, SF_zero, SF_one_eq in *.
  apply sf_positive_inv in HS. apply sf_nonneg_inv in HP.
  destruct HP as [[s EP]|HP].
  - rewrite EP. destruct HS as [->|(my & ey & ->)]; split; reflexivity.
  - apply sf_positive_inv in HP. destruct HP as [EP|(mx & ex & EP)].
    + rewrite (is_infinity_SF P _ EP) in Hfin. discriminate.
    + destruct HS as [ES|(my & ey & ES)]; rewrite EP, ES in *.
      * split; reflexivity.
      * split.
        -- apply sf_nonneg_leb, SFdiv_finite_nonneg.
        -- apply SFdiv_finite_le_one; eauto using Prim2SF_bounded.
Qed.

(** A finite non-zero number divided by itself is one. *)
Lemma div_diag x m e s : Prim2SF x = S754_finite s m e -> x / x = 1.
Proof.
  intros E. apply Prim2SF_inj. rewrite div_spec, E, SF_one_eq. apply SFdiv_diag.
Qed.

(** *** Square roots and differences *)
Lemma sqrtrem_nonneg n : (0 <= n)%Z -> (0 <= fst (Z.sqrtrem n))%Z.
Proof.
  intros H. generalize (Z.sqrtrem_spec n H). destruct (Z.sqrtrem n) as [q r].
  intros [_ Hr]. cbn. lia.
Qed.

(** The square root of a positive number is not negative (and not NaN). *)
Lemma sqrt_nonneg y : (0 <? y) = true -> (0 <=? sqrt y) = true.
Proof.
  rewrite ltb_0_positive, leb_spec, sqrt_spec, SF_zero. intros H.
  apply sf_positive_inv in H. destruct H as [->|(m & e & ->)]; [reflexivity|].
  unfold SF64sqrt, SFsqrt, SFsqrt_core_binary.
  set (m' := match (e - 2 * _)%Z with Zpos _ => _ | Z0 => _ | Zneg _ => _ end).
  assert (Hm' : (0 <= m')%Z).
  { unfold m'. destruct (e - 2 * _)%Z; try lia. apply Z.shiftl_nonneg. lia. }
  generalize (sqrtrem_nonneg m' Hm'). destruct (Z.sqrtrem m') as [q r]. cbn [fst]. intros Hq.
  match goal with |- SFleb _ (binary_round_aux _ _ _ ?q ?e ?l) = true =>
    generalize (binary_round_aux_sign false q e l Hq);
    destruct (binary_round_aux prec emax false q e l) as [s0|s0| |s0 m0 e0];
    intros Hs; try contradiction; subst; reflexivity
  end.
Qed.

(** A number minus itself is zero or NaN, never positive. *)
Lemma sub_diag_not_pos y : (0 <? y - y) = false.
Proof.
  rewrite FloatAxioms.ltb_spec, sub_spec, SF_zero.
  destruct (Prim2SF y) as [[]|[]| |s m e]; try reflexivity.
  unfold SF64sub, SFsub. rewrite Z.sub_diag. reflexivity.
Qed.

(** *** Products *)
Lemma SFleb_finite_inv m1 e1 m2 e2 :
  SFleb (S754_finite false m1 e1) (S754_finite false m2 e2) = true ->
  (e1 < e2)%Z \/ (e1 = e2 /\ (Zpos m1 <= Zpos m2)%Z).
Proof.
  unfold SFleb, SFcompare.
  destruct (Z.compare_spec e1 e2) as [E|E|E]; try discriminate; [|lia].
  rewrite Pos.compare_cont_spec. cbn [Pos.switch_Eq].
  destruct (Pos.compare_spec m1 m2) as [E'|E'|E']; try discriminate; intros _; right.
  - subst. lia.
  - apply Pos2Z.pos_lt_pos in E'. lia.
Qed.

(** Converting to degrees an angle between zero and a quarter turn gives
    between 0 and 90. *)
Lemma degrees_bound y :
  (0 <=? y) = true -> (y <=? quarter_turn) = true ->
  (0 <=? (180 / Math_PI) * y) = true /\ ((180 / Math_PI) * y <=? 90) = true.
Proof.
  rewrite leb_0_nonneg. intros Hy Hle.
  rewrite !FloatAxioms.leb_spec, mul_spec, SF_zero in *.
  change (Prim2SF (180 / Math_PI)) with (S754_finite false 8063664102031864 (-47)).
  change (Prim2SF 90) with (S754_finite false 6333186975989760 (-46)).
  change (Prim2SF quarter_turn) with (S754_finite false 7074237752028440 (-52)) in Hle.
  apply sf_nonneg_inv in Hy. destruct Hy as [[s E]|Hy].
  - rewrite E. split; reflexivity.
  - apply sf_positive_inv in Hy. destruct Hy as [E|(my & ey & E)]; rewrite E in *.
    + discriminate.
    + assert (By := Prim2SF_bounded _ _ _ _ E).
      destruct (bounded_digits _ _ By) as (Hd & He & _).
      assert (Hb := digits2_pos_bounds my).
      unfold SF64mul, SFmul. cbn [xorb]. split.
      * generalize (binary_round_aux_sign false (Zpos (8063664102031864 * my)) (-47 + ey)
                      loc_Exact ltac:(lia)).
        destruct (binary_round_aux _ _ _ _ _ _) as [s0|s0| |s0 m0 e0];
          intros Hs; try contradiction; subst; reflexivity.
      * apply SFleb_finite_inv in Hle.
        assert (Hj : (0 <= -52 - ey)%Z) by lia.
        assert (Hmy : (Zpos my <= 7074237752028440 * 2 ^ (-52 - ey))%Z).
        { destruct Hle as [Hlt|[-> Hle]].
          - assert (2 ^ Zpos (digits2_pos my) <= 2 ^ 53)%Z by (apply Z.pow_le_mono_r; lia).
            assert (2 ^ 1 <= 2 ^ (-52 - ey))%Z by (apply Z.pow_le_mono_r; lia).
            change (2 ^ 1)%Z with 2%Z in *. change (2 ^ 53)%Z with 9007199254740992%Z in *.
            lia.
          - change (2 ^ (-52 - -52))%Z with 1%Z. lia. }
        apply binary_round_aux_le_bound; [lia|lia|reflexivity|].
        replace (-46 - (-47 + ey))%Z with (53 + (-52 - ey))%Z by lia.
        rewrite Z.pow_add_r by lia. rewrite Pos2Z.inj_mul.
        change (2 ^ 53)%Z with 9007199254740992%Z.
        assert (0 < 2 ^ (-52 - ey))%Z by (apply Z.pow_pos_nonneg; lia).
        nia.
Qed.

(** Multiplying by the square root of three keeps the comparison with
    zero: the product is not positive exactly when the factor is not. *)
Lemma mul_sqrt3_leb_0 v : (sqrt 3 * v <=? 0) = (v <=? 0).
Proof.
  rewrite !FloatAxioms.leb_spec, mul_spec, SF_zero.
  change (Prim2SF (sqrt 3)) with (S754_finite false 7800463371553962 (-52)).
  destruct (Prim2SF v) as [[]|[]| |s m e] eqn:E; try reflexivity.
  unfold SF64mul, SFmul. cbn [xorb].
  destruct s.
  - generalize (binary_round_aux_sign true (Zpos (7800463371553962 * m)) (-52 + e)
                  loc_Exact ltac:(lia)).
    destruct (binary_round_aux _ _ _ _ _ _) as [s0|s0| |s0 m0 e0];
      intros Hs; try contradiction; subst; reflexivity.
  - assert (Bv := Prim2SF_bounded _ _ _ _ E).
    destruct (bounded_digits _ _ Bv) as (Hd & He & _).
    assert (H53 : (53 <= Zdigits2 (Zpos (7800463371553962 * m)))%Z).
    { destruct (Z_le_gt_dec 53 (Zdigits2 (Zpos (7800463371553962 * m)))) as [|Hgt];
        [assumption|exfalso].
      assert (Hlt := Zdigits2_bound (Zpos (7800463371553962 * m)) ltac:(lia)).
      assert (2 ^ Zdigits2 (Zpos (7800463371553962 * m)) <= 2 ^ 52)%Z.
      { apply Z.pow_le_mono_r; lia. }
      rewrite Pos2Z.inj_mul in *. change (2 ^ 52)%Z with 4503599627370496%Z in *. lia. }
    destruct (binary_round_aux_pos false (Zpos (7800463371553962 * m)) (-52 + e) loc_Exact)
      as [->|(p & e' & ->)]; try reflexivity; lia.
Qed.

(** *** NaN propagates through every operation and fails every comparison *)

Lemma leb_nan_l y : (nan <=? y) = false.
Proof. rewrite FloatAxioms.leb_spec. reflexivity. Qed.
Lemma leb_nan_r x : (x <=? nan) = false.
Proof.
  rewrite FloatAxioms.leb_spec. change (Prim2SF nan) with S754_nan.
  unfold SFleb, SFcompare. now destruct (Prim2SF x) as [[]|[]| |[]].
Qed.
Lemma ltb_nan_l y : (nan <? y) = false.
Proof. rewrite FloatAxioms.ltb_spec. reflexivity. Qed.
Lemma ltb_nan_r x : (x <? nan) = false.
Proof.
  rewrite FloatAxioms.ltb_spec. change (Prim2SF nan) with S754_nan.
  unfold SFltb, SFcompare. now destruct (Prim2SF x) as [[]|[]| |[]].
Qed.
Lemma mul_nan_l y : nan * y = nan.
Proof. apply Prim2SF_inj. rewrite mul_spec. reflexivity. Qed.
Lemma mul_nan_r x : x * nan = nan.
Proof.
  apply Prim2SF_inj. rewrite mul_spec. change (Prim2SF nan) with S754_nan.
  now destruct (Prim2SF x).
Qed.
Lemma div_nan_l y : nan / y = nan.
Proof. apply Prim2SF_inj. rewrite div_spec. reflexivity. Qed.
Lemma div_nan_r x : x / nan = nan.
Proof.
  apply Prim2SF_inj. rewrite div_spec. change (Prim2SF nan) with S754_nan.
  now destruct (Prim2SF x).
Qed.
Lemma sub_nan_l y : nan - y = nan.
Proof. apply Prim2SF_inj. rewrite sub_spec. reflexivity. Qed.
Lemma sub_nan_r x : x - nan = nan.
Proof.
  apply Prim2SF_inj. rewrite sub_spec. change (Prim2SF nan) with S754_nan.
  now destruct (Prim2SF x).
Qed.

(** *** Equality and order *)

(** Two numbers that compare equal, one of them positive, are the same
    number. *)
Lemma eqb_positive_eq P S : (0 <? S) = true -> (P =? S) = true -> P = S.
Proof.
  rewrite ltb_0_positive, FloatAxioms.eqb_spec. intros HS He.
  apply Prim2SF_inj. apply sf_positive_inv in HS.
  unfold SFeqb, SFcompare in He.
  destruct HS as [ES|(m & e & ES)]; rewrite ES in *.
  - destruct (Prim2SF P) as [[]|[]| |[] m e]; try discriminate; reflexivity.
  - destruct (Prim2SF P) as [[]|[]| |[] m' e']; try discriminate.
    destruct (Z.compare_spec e' e) as [E|E|E]; try discriminate.
    rewrite Pos.compare_cont_spec in He. cbn [Pos.switch_Eq] in He.
    destruct (Pos.compare_spec m' m) as [E'|E'|E']; try discriminate.
    now subst.
Qed.

Lemma leb_0_not_nan x : (0 <=? x) = true -> is_nan x = false.
Proof.
  intros H. destruct (is_nan x) eqn:E; [|reflexivity].
  rewrite (is_nan_eq x E) in H. discriminate.
Qed.

Lemma ltb_asym x y : (x <? y) = true -> (y <? x) = false /\ (x =? y) = false.
Proof.
  rewrite !FloatAxioms.ltb_spec, FloatAxioms.eqb_spec. unfold SFltb, SFeqb.
  destruct (SFcompare (Prim2SF x) (Prim2SF y)) as [c|] eqn:E; [|discriminate].
  rewrite (SFcompare_antisym _ _ _ E). now destruct c.
Qed.

Lemma nonneg_not_below_minus_one x : (0 <=? x) = true -> (x <? -1) = false.
Proof.
  rewrite leb_0_nonneg, FloatAxioms.ltb_spec. intros H.
  change (Prim2SF (-1)) with (S754_finite true 4503599627370496 (-52)).
  apply sf_nonneg_inv in H. destruct H as [[s ->]|H]; [reflexivity|].
  apply sf_positive_inv in H. destruct H as [->|(m & e & ->)]; reflexivity.
Qed.

End FloatFacts.

(** ** Rounding as a relative error *)

Module ExactFacts.
Import Stdlib.Reals.Reals Stdlib.micromega.Lra.
Import Rounding RoundingFacts FloatFacts Exact.
Local Open Scope R_scope.

Lemma bpow_pos e : 0 < bpow e.
Proof. unfold bpow. apply powerRZ_lt. lra. Qed.

Lemma bpow_add a b : bpow (a + b) = bpow a * bpow b.
Proof. unfold bpow. apply powerRZ_add. lra. Qed.

Lemma bpow_IZR n : (0 <= n)%Z -> bpow n = IZR (2 ^ n).
Proof.
  intros H. unfold bpow. rewrite <- (Z2Nat.id n H).
  rewrite <- pow_powerRZ. apply pow_IZR.
Qed.

Lemma bpow_le a b : (a <= b)%Z -> bpow a <= bpow b.
Proof.
  intros H. replace b with (a + (b - a))%Z by lia. rewrite bpow_add.
  rewrite (bpow_IZR (b - a)) by lia.
  assert (1 <= IZR (2 ^ (b - a))).
  { apply IZR_le. assert (0 < 2 ^ (b - a))%Z by (apply pow2_pos; lia). lia. }
  assert (Hp := bpow_pos a). nra.
Qed.

(** *** The error of one rounding *)

(** What [binary_round_aux] returns, when finite, encloses the shifted
    mantissa. *)
Lemma round_enclosure s m e l s' p e2 :
  (0 <= m)%Z -> binary_round_aux prec emax s m e l = S754_finite s' p e2 ->
  s' = s /\
  exists n1 n2, (0 <= n1 /\ 0 <= n2 /\ e2 = e + n1 + n2 /\
    Zpos p * 2 ^ n2 <= m / 2 ^ n1 + 1 /\ m / 2 ^ n1 + 1 <= (Zpos p + 1) * 2 ^ n2)%Z.
Proof.
  intros Hm E. destruct (binary_round_aux_unfold s m e l Hm) as (m2 & Hb & _ & E').
  rewrite E' in E. clear E'.
  set (n1 := shift_of m e) in *. set (n2 := shift_of m2 (e + n1)) in *.
  assert (Hn1 : (0 <= n1)%Z) by apply shift_of_nonneg.
  assert (Hn2 : (0 <= n2)%Z) by apply shift_of_nonneg.
  assert (Hp2 : (0 < 2 ^ n2)%Z) by now apply pow2_pos.
  unfold rounded in E. destruct (m2 / 2 ^ n2)%Z as [|q|q] eqn:Eq; try discriminate.
  destruct (_ <=? _)%Z; [|discriminate]. injection E as <- <- <-.
  split; [reflexivity|]. exists n1, n2. repeat split; try assumption.
  - assert (H := Z.mul_div_le m2 (2 ^ n2) Hp2). rewrite Eq in H. lia.
  - assert (H := Z.mul_succ_div_gt m2 (2 ^ n2) Hp2). rewrite Eq in H. lia.
Qed.

Lemma round_error m e n1 n2 p x :
  (0 <= m)%Z -> (0 <= n1)%Z -> (0 <= n2)%Z ->
  (Zpos p * 2 ^ n2 <= m / 2 ^ n1 + 1)%Z -> (m / 2 ^ n1 + 1 <= (Zpos p + 1) * 2 ^ n2)%Z ->
  (2 ^ 52 <= Zpos p)%Z ->
  IZR m * bpow e <= x <= (IZR m + 1) * bpow e ->
  Rabs (IZR (Zpos p) * bpow (e + n1 + n2) - x) <= bpow (-52) * (IZR (Zpos p) * bpow (e + n1 + n2)).
Proof.
  intros Hm Hn1 Hn2 Hlo Hhi Hp [Hx1 Hx2].
  assert (Hp1 : (0 < 2 ^ n1)%Z) by now apply pow2_pos.
  assert (Hd1 := Z.mul_div_le m (2 ^ n1) Hp1).
  assert (Hd2 := Z.mul_succ_div_gt m (2 ^ n1) Hp1).
  set (m1 := (m / 2 ^ n1)%Z) in *.
  rewrite !bpow_add, (bpow_IZR n1), (bpow_IZR n2) by assumption.
  assert (HB := bpow_pos e). set (B := bpow e) in *.
  apply IZR_le in Hlo, Hhi, Hp, Hd1. apply IZR_lt in Hd2.
  assert (Hd2' : IZR m + 1 <= IZR (2 ^ n1) * (IZR m1 + 1)).
  { rewrite <- (plus_IZR m 1), <- (plus_IZR m1 1), <- mult_IZR. apply IZR_le.
    apply lt_IZR in Hd2. unfold Z.succ in Hd2. lia. }
  rewrite ?mult_IZR, ?plus_IZR in *.
  assert (HT1 : 1 <= IZR (2 ^ n1)) by (apply IZR_le; apply IZR_lt in Hp1; lia).
  assert (HT2 : 1 <= IZR (2 ^ n2)).
  { apply IZR_le. assert (0 < 2 ^ n2)%Z by now apply pow2_pos. lia. }
  set (T1 := IZR (2 ^ n1)) in *. set (T2 := IZR (2 ^ n2)) in *.
  set (P := IZR (Zpos p)) in *. set (M1 := IZR m1) in *. set (M := IZR m) in *.
  assert (Hu : bpow (-52) * IZR (2 ^ 52) = 1).
  { rewrite <- (bpow_IZR 52) by lia. rewrite <- bpow_add. reflexivity. }
  set (u := bpow (-52)) in *. assert (Hu0 : 0 < u) by apply bpow_pos.
  set (K := IZR (2 ^ 52)) in *.
  assert (HW0 : 0 < T1 * T2) by (apply Rmult_lt_0_compat; lra).
  assert (HW : 0 < T1 * T2 * B) by (apply Rmult_lt_0_compat; assumption).
  assert (HU : T1 * T2 * B <= u * (P * (B * T1 * T2))).
  { replace (P * (B * T1 * T2)) with (P * (T1 * T2 * B)) by ring.
    generalize dependent (T1 * T2 * B). intros W HW.
    assert (u * (K * W) <= u * (P * W)).
    { apply Rmult_le_compat_l; [lra|]. apply Rmult_le_compat_r; lra. }
    replace W with (u * K * W) at 1 by (rewrite Hu; ring). lra. }
  assert (HM : 0 <= M1).
  { unfold M1. apply IZR_le. unfold m1. apply Z.div_pos; lia. }
  apply Rabs_le. split.
  - (* x - V <= U *)
    assert (H1 : x <= (M1 + 1) * (T1 * B)).
    { apply Rle_trans with ((M + 1) * B); [assumption|].
      replace ((M1 + 1) * (T1 * B)) with (T1 * (M1 + 1) * B) by ring.
      apply Rmult_le_compat_r; lra. }
    assert (H2 : (M1 + 1) * (T1 * B) <= (P + 1) * T2 * (T1 * B)).
    { apply Rmult_le_compat_r; [|lra]. apply Rlt_le, Rmult_lt_0_compat; lra. }
    replace (P * (B * T1 * T2)) with (P * T2 * (T1 * B)) in * by ring.
    replace (T1 * T2 * B) with (T2 * (T1 * B)) in HU by ring.
    replace ((P + 1) * T2 * (T1 * B)) with (P * T2 * (T1 * B) + T2 * (T1 * B)) in H2 by ring.
    lra.
  - (* V - x <= U *)
    assert (H1 : M1 * (T1 * B) <= x).
    { apply Rle_trans with (M * B); [|assumption].
      replace (M1 * (T1 * B)) with (T1 * M1 * B) by ring.
      apply Rmult_le_compat_r; lra. }
    assert (H2 : P * T2 * (T1 * B) <= (M1 + 1) * (T1 * B)).
    { apply Rmult_le_compat_r; [|lra]. apply Rlt_le, Rmult_lt_0_compat; lra. }
    assert (H3 : T1 * B <= T2 * (T1 * B)).
    { replace (T1 * B) with (1 * (T1 * B)) at 1 by ring.
      apply Rmult_le_compat_r; [|lra]. apply Rlt_le, Rmult_lt_0_compat; lra. }
    replace (P * (B * T1 * T2)) with (P * T2 * (T1 * B)) in * by ring.
    replace (T1 * T2 * B) with (T2 * (T1 * B)) in HU by ring.
    lra.
Qed.

(** *** Normal numbers *)

Lemma normal_inv x :
  normal x = true ->
  exists s m e, Prim2SF x = S754_finite s m e /\ (2 ^ 52 <= Zpos m)%Z.
Proof.
  unfold normal. rewrite andb_true_iff, FloatAxioms.leb_spec, FloatAxioms.ltb_spec, abs_spec.
  change (Prim2SF 0x1p-1022%float) with (S754_finite false 4503599627370496 (-1074)).
  change (Prim2SF infinity) with (S754_infinity false).
  intros [Hlo Hhi].
  destruct (Prim2SF x) as [s|s| |s m e] eqn:E; cbn [SFabs] in *; try discriminate.
  exists s, m, e. split; [reflexivity|].
  apply SFleb_finite_inv in Hlo. destruct Hlo as [Hlt|[_ Hle]]; [|exact Hle].
  destruct (bounded_digits m e (Prim2SF_bounded x s m e E)) as (_ & _ & Hd).
  assert (H := digits2_pos_bounds m). rewrite (Hd Hlt) in H. 
  change (53 - 1)%Z with 52%Z in H. lia.
Qed.

Lemma SF2R_abs s m e : Rabs (SF2R (S754_finite s m e)) = IZR (Zpos m) * bpow e.
Proof.
  assert (0 < IZR (Zpos m) * bpow e).
  { apply Rmult_lt_0_compat; [apply IZR_lt; lia|apply bpow_pos]. }
  cbn [SF2R]. destruct s.
  - replace (-1 * IZR (Zpos m) * bpow e) with (- (IZR (Zpos m) * bpow e)) by ring.
    rewrite Rabs_Ropp. apply Rabs_pos_eq. lra.
  - rewrite Rmult_1_l. apply Rabs_pos_eq. lra.
Qed.

Lemma sign_mul (s1 s2 : bool) :
  (if xorb s1 s2 then -1 else 1) = (if s1 then -1 else 1) * (if s2 then -1 else 1).
Proof. destruct s1, s2; cbn; ring. Qed.

(** *** Products *)

(** A product that is a normal number is within one part in [2^52] of
    the product of the factors. *)
Lemma mul_error x y :
  normal (x * y) = true ->
  Rabs (F2R (x * y) - F2R x * F2R y) <= bpow (-52) * Rabs (F2R (x * y)).
Proof.
  intros Hn. destruct (normal_inv _ Hn) as (s & p & e2 & E & Hp).
  unfold F2R. rewrite E, SF2R_abs. rewrite mul_spec in E.
  destruct (Prim2SF x) as [sx|sx| |sx mx ex]; destruct (Prim2SF y) as [sy|sy| |sy my ey];
    try discriminate E; try (cbn in E; destruct (xorb _ _); discriminate E).
  cbn [SF64mul SFmul] in E.
  destruct (round_enclosure (xorb sx sy) (Zpos (mx * my)) (ex + ey) loc_Exact s p e2
              ltac:(lia) E)
    as (-> & n1 & n2 & Hn1 & Hn2 & -> & Hlo & Hhi).
  assert (H := round_error (Zpos (mx * my)) (ex + ey) n1 n2 p
                 (IZR (Zpos (mx * my)) * bpow (ex + ey))
                 ltac:(lia) Hn1 Hn2 Hlo Hhi Hp).
  assert (Hb := bpow_pos (ex + ey)).
  specialize (H ltac:(split; [lra|rewrite Rmult_plus_distr_r; lra])).
  cbn [SF2R]. rewrite sign_mul.
  set (V := IZR (Zpos p) * bpow (ex + ey + n1 + n2)) in *.
  replace ((if sx then -1 else 1) * (if sy then -1 else 1) * IZR (Zpos p) *
           bpow (ex + ey + n1 + n2) -
           (if sx then -1 else 1) * IZR (Zpos mx) * bpow ex *
           ((if sy then -1 else 1) * IZR (Zpos my) * bpow ey))
    with ((if sx then -1 else 1) * (if sy then -1 else 1) *
          (V - IZR (Zpos (mx * my)) * bpow (ex + ey))).
  2:{ unfold V. rewrite Pos2Z.inj_mul, mult_IZR, (bpow_add ex ey). ring. }
  rewrite Rabs_mult.
  replace (Rabs ((if sx then -1 else 1) * (if sy then -1 else 1))) with 1.
  2:{ destruct sx, sy; cbn; rewrite ?Rmult_1_l, ?Rmult_1_r;
        try (replace (-1 * -1) with 1 by ring);
        rewrite ?Rabs_R1, ?Rabs_Ropp, ?Rabs_R1; try reflexivity;
        symmetry; replace (-1) with (- (1)) by ring; rewrite Rabs_Ropp; apply Rabs_R1. }
  lra.
Qed.

(** *** Quotients *)

(** The error of a rounding, measured on a value known through its
    product with a positive number. *)
Lemma round_error_scaled m e n1 n2 p N D :
  (0 <= m)%Z -> (0 <= n1)%Z -> (0 <= n2)%Z ->
  (Zpos p * 2 ^ n2 <= m / 2 ^ n1 + 1)%Z -> (m / 2 ^ n1 + 1 <= (Zpos p + 1) * 2 ^ n2)%Z ->
  (2 ^ 52 <= Zpos p)%Z -> 0 < D ->
  IZR m * bpow e * D <= N <= (IZR m + 1) * bpow e * D ->
  Rabs (IZR (Zpos p) * bpow (e + n1 + n2) * D - N) <=
  bpow (-52) * (IZR (Zpos p) * bpow (e + n1 + n2) * D).
Proof.
  intros Hm Hn1 Hn2 Hlo Hhi Hp HD [HN1 HN2].
  assert (HxD : N * / D * D = N) by (field; lra).
  assert (Hx : IZR m * bpow e <= N * / D <= (IZR m + 1) * bpow e).
  { split; apply Rmult_le_reg_r with D; try assumption; rewrite HxD; assumption. }
  assert (H := round_error m e n1 n2 p (N * / D) Hm Hn1 Hn2 Hlo Hhi Hp Hx).
  set (V := IZR (Zpos p) * bpow (e + n1 + n2)) in *.
  replace (V * D - N) with ((V - N * / D) * D) by (field; lra).
  rewrite Rabs_mult, (Rabs_pos_eq D) by lra.
  replace (bpow (-52) * (V * D)) with (bpow (-52) * V * D) by ring.
  apply Rmult_le_compat_r; lra.
Qed.

Lemma sign_sq (s : bool) : (if s then -1 else 1) * (if s then -1 else 1) = 1.
Proof. destruct s; ring. Qed.

Lemma Rabs_sign (s : bool) r : Rabs ((if s then -1 else 1) * r) = Rabs r.
Proof.
  destruct s; [|now rewrite Rmult_1_l].
  replace (-1 * r) with (- r) by ring. apply Rabs_Ropp.
Qed.

(** A quotient that is a normal number, multiplied by the divisor, is
    within one part in [2^52] of the dividend. *)
Lemma div_error x y :
  normal (x / y) = true ->
  Rabs (F2R (x / y) * F2R y - F2R x) <= bpow (-52) * Rabs (F2R (x / y) * F2R y).
Proof.
  intros Hn. destruct (normal_inv _ Hn) as (s & p & e2 & E & Hp).
  unfold F2R. rewrite E. rewrite div_spec in E.
  destruct (Prim2SF x) as [sx|sx| |sx mx ex]; destruct (Prim2SF y) as [sy|sy| |sy my ey];
    try discriminate E; try (cbn in E; destruct (xorb _ _); discriminate E).
  cbn [SF64div SFdiv] in E.
  destruct (SFdiv_core_binary_q mx ex my ey) as (l & Eq & _).
  set (e' := Z.min (fexp64 (Zpos (digits2_pos mx) + ex - (Zpos (digits2_pos my) + ey))) (ex - ey)) in *.
  rewrite Eq in E. clear Eq.
  assert (Hk : (0 <= ex - ey - e')%Z) by (unfold e'; lia).
  set (k := (ex - ey - e')%Z) in *.
  assert (Hpk : (0 < 2 ^ k)%Z) by now apply pow2_pos.
  set (q := (Zpos mx * 2 ^ k / Zpos my)%Z) in *.
  assert (Hq : (0 <= q)%Z) by (apply Z.div_pos; lia).
  destruct (round_enclosure (xorb sx sy) q e' l s p e2 Hq E)
    as (-> & n1 & n2 & Hn1 & Hn2 & -> & Hlo & Hhi).
  assert (Hq1 := Z.mul_div_le (Zpos mx * 2 ^ k) (Zpos my) ltac:(lia)).
  assert (Hq2 := Z.mul_succ_div_gt (Zpos mx * 2 ^ k) (Zpos my) ltac:(lia)).
  fold q in Hq1, Hq2.
  set (D := IZR (Zpos my) * bpow ey). set (N := IZR (Zpos mx) * bpow ex).
  assert (HD : 0 < D).
  { apply Rmult_lt_0_compat; [apply IZR_lt; lia|apply bpow_pos]. }
  assert (HN : N = IZR (Zpos mx * 2 ^ k) * (bpow e' * bpow ey)).
  { unfold N. rewrite mult_IZR, <- (bpow_IZR k), <- !bpow_add by assumption.
    rewrite Rmult_assoc, <- bpow_add. do 2 f_equal. unfold k. lia. }
  assert (Hb : 0 < bpow e' * bpow ey).
  { apply Rmult_lt_0_compat; apply bpow_pos. }
  assert (HND : IZR q * bpow e' * D <= N <= (IZR q + 1) * bpow e' * D).
  { rewrite HN. unfold D. split.
    - replace (IZR q * bpow e' * (IZR (Zpos my) * bpow ey))
        with (IZR (Zpos my * q) * (bpow e' * bpow ey)) by (rewrite mult_IZR; ring).
      apply Rmult_le_compat_r; [lra|]. now apply IZR_le.
    - replace ((IZR q + 1) * bpow e' * (IZR (Zpos my) * bpow ey))
        with (IZR (Zpos my * Z.succ q) * (bpow e' * bpow ey))
        by (rewrite mult_IZR, succ_IZR; ring).
      apply Rmult_le_compat_r; [lra|]. apply IZR_le. lia. }
  assert (H := round_error_scaled q e' n1 n2 p N D Hq Hn1 Hn2 Hlo Hhi Hp HD HND).
  cbn [SF2R]. fold D N. rewrite sign_mul.
  set (V := IZR (Zpos p) * bpow (e' + n1 + n2)) in *.
  set (a := if sx then -1 else 1). set (b := if sy then -1 else 1).
  assert (Hbb : b * b = 1) by apply sign_sq.
  replace (a * b * IZR (Zpos p) * bpow (e' + n1 + n2) * (b * IZR (Zpos my) * bpow ey) -
           a * IZR (Zpos mx) * bpow ex)
    with (a * (V * D - N)).
  2:{ unfold V, D, N. transitivity (a * (b * b) * (IZR (Zpos p) * bpow (e' + n1 + n2) *
        (IZR (Zpos my) * bpow ey)) - a * (IZR (Zpos mx) * bpow ex)); [rewrite Hbb|]; ring. }
  replace (a * b * IZR (Zpos p) * bpow (e' + n1 + n2) * (b * IZR (Zpos my) * bpow ey))
    with (a * (V * D)).
  2:{ unfold V, D. transitivity (a * (b * b) * (IZR (Zpos p) * bpow (e' + n1 + n2) *
        (IZR (Zpos my) * bpow ey))); [rewrite Hbb|]; ring. }
  unfold a. rewrite !Rabs_sign. rewrite (Rabs_pos_eq (V * D)); [exact H|].
  apply Rlt_le, Rmult_lt_0_compat; [|assumption].
  apply Rmult_lt_0_compat; [apply IZR_lt; lia|apply bpow_pos].
Qed.

(** A rounded value [t] of a positive exact value [X]. *)
Lemma rel_bounds u t X :
  0 < u < 1 -> 0 < X -> Rabs (t - X) <= u * Rabs t ->
  0 < t /\ (1 - u) * t <= X <= (1 + u) * t.
Proof.
  intros Hu HX H.
  assert (Ht : 0 < t).
  { destruct (Rlt_le_dec 0 t) as [|Hle]; [assumption|exfalso].
    rewrite (Rabs_left1 t Hle), Rabs_left in H by lra. nra. }
  rewrite (Rabs_pos_eq t) in H by lra.
  split; [assumption|]. unfold Rabs in H. destruct (Rcase_abs (t - X)); lra.
Qed.

Lemma load_chain u c V A P K t1 t2 t3 t4 s1 s2 s3 :
  0 < u <= / 1000 -> 0 < c -> 0 < V -> 0 < A -> 0 < P -> 0 < K ->
  Rabs (t1 - c * V) <= u * Rabs t1 ->
  Rabs (t2 - t1 * A) <= u * Rabs t2 ->
  Rabs (t3 - t2 * P) <= u * Rabs t3 ->
  Rabs (t4 * K - t3) <= u * Rabs (t4 * K) ->
  Rabs (s1 - V * A) <= u * Rabs s1 ->
  Rabs (s2 - s1 * P) <= u * Rabs s2 ->
  Rabs (s3 * K - s2) <= u * Rabs (s3 * K) ->
  Rabs (t4 - c * s3) <= 16 * u * Rabs t4.
Proof.
  intros Hu Hc HV HA HP HK E1 E2 E3 E4 F1 F2 F3.
  assert (Hu' : 0 < u < 1) by lra.
  destruct (rel_bounds u t1 (c * V) Hu' ltac:(nra) E1) as [T1 [L1 U1]].
  destruct (rel_bounds u t2 (t1 * A) Hu' ltac:(nra) E2) as [T2 [L2 U2]].
  destruct (rel_bounds u t3 (t2 * P) Hu' ltac:(nra) E3) as [T3 [L3 U3]].
  destruct (rel_bounds u (t4 * K) t3 Hu' T3 E4) as [T4 [L4 U4]].
  destruct (rel_bounds u s1 (V * A) Hu' ltac:(nra) F1) as [S1 [M1 N1]].
  destruct (rel_bounds u s2 (s1 * P) Hu' ltac:(nra) F2) as [S2 [M2 N2]].
  destruct (rel_bounds u (s3 * K) s2 Hu' S2 F3) as [S3 [M3 N3]].
  assert (Ht4 : 0 < t4) by nra. assert (Hs3 : 0 < s3) by nra.
  set (X := c * V * A * P).
  set (a := 1 - u) in *. set (b := 1 + u) in *.
  assert (Ha : 0 < a) by (unfold a; lra). assert (Hb : 0 < b) by (unfold b; lra).
  assert (Ha2 : 0 < a * a) by (apply Rmult_lt_0_compat; assumption).
  assert (Ha3 : 0 < a * a * a) by (apply Rmult_lt_0_compat; assumption).
  assert (Hb2 : 0 < b * b) by (apply Rmult_lt_0_compat; assumption).
  assert (Hb3 : 0 < b * b * b) by (apply Rmult_lt_0_compat; assumption).
  assert (HAP : 0 < A * P) by (apply Rmult_lt_0_compat; assumption).
  (* a^4 K t4 <= X <= b^4 K t4 *)
  assert (LX : a * a * a * a * (t4 * K) <= X).
  { unfold X.
    assert (G1 : a * a * a * a * (t4 * K) <= a * a * a * t3) by (clear - L4 Ha3; nra).
    assert (G2 : a * a * a * t3 <= a * a * (t2 * P)) by (clear - L3 Ha2; nra).
    assert (G3 : a * a * (t2 * P) <= a * (t1 * A) * P).
    { assert (a * (a * t2) <= a * (t1 * A)) by (clear - L2 Ha; nra).
      clear - H HP. nra. }
    assert (G4 : a * (t1 * A) * P <= c * V * A * P) by (clear - L1 HAP; nra).
    lra. }
  assert (UX : X <= b * b * b * b * (t4 * K)).
  { unfold X.
    assert (G1 : c * V * A * P <= b * t1 * A * P) by (clear - U1 HAP; nra).
    assert (G2 : b * t1 * A * P <= b * (b * t2) * P).
    { assert (b * (t1 * A) <= b * (b * t2)) by (clear - U2 Hb; nra).
      clear - H HP. nra. }
    assert (G3 : b * (b * t2) * P <= b * b * (b * t3)) by (clear - U3 Hb2; nra).
    assert (G4 : b * b * (b * t3) <= b * b * b * (b * (t4 * K))) by (clear - U4 Hb3; nra).
    lra. }
  assert (LY : a * a * a * (c * (s3 * K)) <= X).
  { unfold X.
    assert (G1 : a * a * a * (s3 * K) <= a * a * s2) by (clear - M3 Ha2; nra).
    assert (G2 : a * a * s2 <= a * (s1 * P)) by (clear - M2 Ha; nra).
    assert (G3 : a * (s1 * P) <= V * A * P) by (clear - M1 HP; nra).
    assert (G : a * a * a * (s3 * K) <= V * A * P) by lra.
    clear - G Hc. nra. }
  assert (UY : X <= b * b * b * (c * (s3 * K))).
  { unfold X.
    assert (G1 : V * A * P <= b * s1 * P) by (clear - N1 HP; nra).
    assert (G2 : b * s1 * P <= b * (b * s2)) by (clear - N2 Hb; nra).
    assert (G3 : b * (b * s2) <= b * b * (b * (s3 * K))) by (clear - N3 Hb2; nra).
    assert (G : V * A * P <= b * b * b * (s3 * K)) by lra.
    clear - G Hc. nra. }
  assert (Hnum1 : b * b * b * b <= (1 + 16 * u) * (a * a * a)) by (unfold a, b; clear - Hu; nra).
  assert (Hnum2 : (1 - 16 * u) * (b * b * b) <= a * a * a * a) by (unfold a, b; clear - Hu; nra).
  rewrite (Rabs_pos_eq t4) by lra. apply Rabs_le.
  assert (HtK : 0 < t4 * K) by nra.
  split.
  - (* c s3 <= (1 + 16u) t4 *)
    assert (H1 : a * a * a * (c * (s3 * K)) <= (1 + 16 * u) * (a * a * a) * (t4 * K)).
    { apply Rle_trans with X; [assumption|]. apply Rle_trans with (b * b * b * b * (t4 * K)); [assumption|].
      apply Rmult_le_compat_r; lra. }
    assert (H2 : c * (s3 * K) <= (1 + 16 * u) * (t4 * K)).
    { apply Rmult_le_reg_l with (a * a * a); [assumption|]. lra. }
    assert (H3 : c * s3 <= (1 + 16 * u) * t4).
    { apply Rmult_le_reg_r with K; [assumption|]. lra. }
    lra.
  - assert (H1 : (1 - 16 * u) * (b * b * b) * (t4 * K) <= b * b * b * (c * (s3 * K))).
    { apply Rle_trans with X; [|assumption].
      apply Rle_trans with (a * a * a * a * (t4 * K)); [|assumption].
      apply Rmult_le_compat_r; lra. }
    assert (H2 : (1 - 16 * u) * (t4 * K) <= c * (s3 * K)).
    { apply Rmult_le_reg_l with (b * b * b); [assumption|]. lra. }
    assert (H3 : (1 - 16 * u) * t4 <= c * s3).
    { apply Rmult_le_reg_r with K; [assumption|]. lra. }
    lra.
Qed.

(** *** Constants *)
Lemma bpow_m52 : bpow (-52) * 4503599627370496 = 1.
Proof.
  change 4503599627370496 with (IZR (2 ^ 52)). rewrite <- (bpow_IZR 52) by lia.
  rewrite <- bpow_add. reflexivity.
Qed.

Lemma bpow_m51 : bpow (-51) = 2 * bpow (-52).
Proof.
  change (-51)%Z with (1 + -52)%Z. rewrite bpow_add, (bpow_IZR 1) by lia. reflexivity.
Qed.

Lemma bpow_m48 : bpow (-48) = 16 * bpow (-52).
Proof.
  change (-48)%Z with (4 + -52)%Z. rewrite bpow_add, (bpow_IZR 4) by lia. reflexivity.
Qed.

Lemma finite_rep x s m e : Prim2SF x = S754_finite s m e -> is_finite x = true.
Proof.
  intros E. unfold is_finite.
  assert (Hn : is_nan x = false).
  { destruct (is_nan x) eqn:N; [|reflexivity]. rewrite (is_nan_Prim2SF x N) in E. discriminate. }
  assert (Hi : is_infinity x = false).
  { unfold is_infinity. rewrite FloatAxioms.eqb_spec, abs_spec, E. reflexivity. }
  now rewrite Hn, Hi.
Qed.

Lemma normal_finite x : normal x = true -> is_finite x = true.
Proof.
  intros H. destruct (normal_inv x H) as (s & m & e & E & _). exact (finite_rep x s m e E).
Qed.

Lemma positive_F2R x s m e : Prim2SF x = S754_finite s m e -> sf_nonneg (Prim2SF x) -> 0 < F2R x.
Proof.
  intros E H. unfold F2R. rewrite E in *. inversion H as [|? Hp]; subst. inversion Hp; subst.
  cbn [SF2R]. rewrite Rmult_1_l. apply Rmult_lt_0_compat; [apply IZR_lt; lia|apply bpow_pos].
Qed.

(** The factors of a normal product are finite and not zero. *)
Lemma mul_normal_factors x y :
  normal (x * y) = true ->
  (exists s m e, Prim2SF x = S754_finite s m e) /\
  (exists s m e, Prim2SF y = S754_finite s m e).
Proof.
  intros H. destruct (normal_inv _ H) as (s & m & e & E & _). rewrite mul_spec in E.
  destruct (Prim2SF x) as [sx|sx| |sx mx ex]; destruct (Prim2SF y) as [sy|sy| |sy my ey];
    try discriminate E; try (cbn in E; destruct (xorb _ _); discriminate E).
  eauto 10.
Qed.

(** So are the dividend and the divisor of a normal quotient. *)
Lemma div_normal_factors x y :
  normal (x / y) = true ->
  (exists s m e, Prim2SF x = S754_finite s m e) /\
  (exists s m e, Prim2SF y = S754_finite s m e).
Proof.
  intros H. destruct (normal_inv _ H) as (s & m & e & E & _). rewrite div_spec in E.
  destruct (Prim2SF x) as [sx|sx| |sx mx ex]; destruct (Prim2SF y) as [sy|sy| |sy my ey];
    try discriminate E; try (cbn in E; destruct (xorb _ _); discriminate E).
  eauto 10.
Qed.

Lemma bpow_m52_eq : bpow (-52) = / 4503599627370496.
Proof.
  apply Rmult_eq_reg_r with 4503599627370496; [|lra].
  rewrite bpow_m52. field.
Qed.

(** A dividend is within one part in [2^51] of a normal quotient times
    the divisor. *)
Lemma div_agrees x y :
  normal (x / y) = true ->
  Rabs (F2R x - F2R (x / y) * F2R y) <= bpow (-51) * Rabs (F2R x).
Proof.
  intros H. assert (E := div_error x y H).
  rewrite Rabs_minus_sym. rewrite bpow_m51. rewrite bpow_m52_eq in *.
  assert (T := Rabs_triang (F2R (x / y) * F2R y - F2R x) (F2R x)).
  replace (F2R (x / y) * F2R y - F2R x + F2R x) with (F2R (x / y) * F2R y) in T by ring.
  assert (0 <= Rabs (F2R (x / y) * F2R y - F2R x)) by apply Rabs_pos.
  lra.
Qed.

Lemma mul_agrees x y :
  normal (x * y) = true ->
  Rabs (F2R (x * y) - F2R x * F2R y) <= bpow (-51) * Rabs (F2R (x * y)).
Proof.
  intros H. assert (E := mul_error x y H). rewrite bpow_m51.
  assert (0 <= Rabs (F2R (x * y))) by apply Rabs_pos.
  assert (0 < bpow (-52)) by apply bpow_pos. nra.
Qed.

End ExactFacts.

(** ** [app.js]: the calculators *)

Module AppFacts.
Import JS App Spec Rounding RoundingFacts FloatFacts.

Local Open Scope string_scope.
Local Open Scope float_scope.

(** *** What [compute] followed by [format] returns, calculator by calculator *)

Lemma fixed_singleton host k x f :
  fixed host {[ k := x ]} k f = Ok (toFixed host x f).
Proof. unfold fixed. now rewrite lookup_singleton_eq. Qed.

Lemma power_factor_run host d :
  compute_and_format host "Power Factor" d =
  match power_factor (num d "p_kw") (num d "s_kva") with
  | Ok pf => Ok ("PF = " +:+ toFixed host pf 4)
  | Throw e => Throw e
  end.
Proof.
  unfold compute_and_format. cbn -[power_factor toFixed num fixed].
  destruct (power_factor _ _); cbn -[toFixed fixed]; [|reflexivity].
  now rewrite fixed_singleton.
Qed.

Lemma reactive_power_run host d :
  compute_and_format host "Reactive Power" d =
  match reactive_power_kvar host (num d "s_kva") (num d "p_kw") with
  | Ok q => Ok ("Q = " +:+ toFixed host q 3 +:+ " kVAr")
  | Throw e => Throw e
  end.
Proof.
  unfold compute_and_format. cbn -[reactive_power_kvar toFixed num fixed].
  destruct (reactive_power_kvar _ _ _); cbn -[toFixed fixed]; [|reflexivity].
  now rewrite fixed_singleton.
Qed.

Lemma phase_angle_run host d :
  compute_and_format host "Phase Angle" d =
  match phase_angle_deg host (num d "s_kva") (num d "p_kw") with
  | Ok theta => Ok ("θ = " +:+ toFixed host theta 2 +:+ "°")
  | Throw e => Throw e
  end.
Proof.
  unfold compute_and_format. cbn -[phase_angle_deg toFixed num fixed].
  destruct (phase_angle_deg _ _ _); cbn -[toFixed fixed]; [|reflexivity].
  now rewrite fixed_singleton.
Qed.

Lemma load_single_run host d :
  compute_and_format host "Load (Single-Phase)" d =
  match load_kw_single (num d "volts") (num d "amps") (num d "pf") with
  | Ok kw => Ok ("P = " +:+ toFixed host kw 3 +:+ " kW")
  | Throw e => Throw e
  end.
Proof.
  unfold compute_and_format. cbn -[load_kw_single toFixed num fixed].
  destruct (load_kw_single _ _ _); cbn -[toFixed fixed]; [|reflexivity].
  now rewrite fixed_singleton.
Qed.

Lemma load_three_run host d :
  compute_and_format host "Load (Three-Phase)" d =
  match load_kw_three (num d "volts") (num d "amps") (num d "pf") with
  | Ok kw => Ok ("P = " +:+ toFixed host kw 3 +:+ " kW")
  | Throw e => Throw e
  end.
Proof.
  unfold compute_and_format. cbn -[load_kw_three toFixed num fixed].
  destruct (load_kw_three _ _ _); cbn -[toFixed fixed]; [|reflexivity].
  now rewrite fixed_singleton.
Qed.

Lemma ohms_law_run host d :
  compute_and_format host "Ohm's Law" d =
  match ohms_law_compute d with
  | Ok out =>
      v ← fixed host out "volts" 3;
      i ← fixed host out "amps" 3;
      o ← fixed host out "ohms" 3;
      Ok ("V=" +:+ v +:+ " V, I=" +:+ i +:+ " A, R=" +:+ o +:+ " Ω")
  | Throw e => Throw e
  end.
Proof.
  unfold compute_and_format. cbn -[ohms_law_compute toFixed num fixed].
  now destruct (ohms_law_compute _).
Qed.

(** *** Ohm's law, case by case *)

Lemma ohms_law_cases d v i r :
  d !! "volts" = Some v -> d !! "amps" = Some i -> d !! "ohms" = Some r ->
  ohms_law_compute d =
    if negb (known v i r =? 2)%nat
    then Throw (CalcError "Provide exactly two of V, I, R")
    else if is_nan v then Ok (ohm_values (i * r) i r)
    else if is_nan i then
      if r =? 0 then Throw (CalcError "R must not be 0")
      else Ok (ohm_values v (v / r) r)
    else if is_nan r then
      if i =? 0 then Throw (CalcError "I must not be 0")
      else Ok (ohm_values v i (v / i))
    else Ok (ohm_values v i r).
Proof.
  intros Hv Hi Hr. unfold ohms_law_compute, known, provided, ohm_values.
  rewrite Hv, Hi, Hr. cbn [isNaN_val ToNumber strict_eq_zero List.filter with_prop].
  destruct (is_nan v), (is_nan i), (is_nan r); reflexivity.
Qed.

Lemma fixed_ohm_values host v i r f :
  fixed host (ohm_values v i r) "volts" f = Ok (toFixed host v f) /\
  fixed host (ohm_values v i r) "amps" f = Ok (toFixed host i f) /\
  fixed host (ohm_values v i r) "ohms" f = Ok (toFixed host r f).
Proof. unfold fixed, ohm_values. repeat split; now simplify_map_eq. Qed.

Lemma ohm_values_run host v i r :
  exists text,
    (x ← fixed host (ohm_values v i r) "volts" 3;
     y ← fixed host (ohm_values v i r) "amps" 3;
     z ← fixed host (ohm_values v i r) "ohms" 3;
     Ok ("V=" +:+ x +:+ " V, I=" +:+ y +:+ " A, R=" +:+ z +:+ " Ω")) = Ok text.
Proof.
  destruct (fixed_ohm_values host v i r 3) as (-> & -> & ->). now eexists.
Qed.


(** *** The calculators throw nothing but [CalcError] *)

Lemma power_factor_throws p s e :
  power_factor p s = Throw e -> exists message, e = CalcError message.
Proof.
  unfold power_factor.
  repeat match goal with |- context [if ?c then _ else _] => destruct c end;
    intros [=]; subst; eauto.
Qed.

Lemma reactive_power_throws host s p e :
  reactive_power_kvar host s p = Throw e -> exists message, e = CalcError message.
Proof.
  unfold reactive_power_kvar.
  destruct (s <=? 0); [intros [= <-]; eauto|].
  destruct (p <? 0); [intros [= <-]; eauto|].
  destruct (s <? p); [intros [= <-]; eauto|discriminate].
Qed.

Lemma phase_angle_throws host s p e :
  phase_angle_deg host s p = Throw e -> exists message, e = CalcError message.
Proof.
  unfold phase_angle_deg. destruct (power_factor p s) as [pf|e'] eqn:E; [discriminate|].
  cbn. intros [= <-]. now apply (power_factor_throws p s).
Qed.

Lemma load_kw_single_throws v a pf e :
  load_kw_single v a pf = Throw e -> exists message, e = CalcError message.
Proof.
  unfold load_kw_single.
  repeat match goal with |- context [if ?c then _ else _] => destruct c end;
    intros [=]; subst; eauto.
Qed.

Lemma load_kw_three_throws v a pf e :
  load_kw_three v a pf = Throw e -> exists message, e = CalcError message.
Proof.
  unfold load_kw_three.
  repeat match goal with |- context [if ?c then _ else _] => destruct c end;
    intros [=]; subst; eauto.
Qed.

(** *** The outcome of a click *)

(** [buildForm] succeeds on the calculators of [CALCS] only, and builds
    one blank field per input. *)
Lemma buildForm_inv host name page :
  buildForm host name (opened name) = Ok page ->
  exists spec, In (name, spec) (CALCS host) /\
    page = {| selected := name;
              form := map (fun inp => {| data_key := key inp; value := "" |}) (inputs spec);
              result_text := "";
              result_error := false |}.
Proof.
  unfold buildForm, calc.
  destruct (List.find _ (CALCS host)) as [[name' spec]|] eqn:F; [|discriminate].
  apply find_some in F. destruct F as [Hin Heq]. cbn [fst] in Heq.
  apply String.eqb_eq in Heq. subst name'. cbn. intros [= <-].
  exists spec. split; [assumption|reflexivity].
Qed.

(** Clamping a number of the unit interval leaves it there; the result is
    below one or one itself. *)
Lemma clamp_unit x :
  (0 <=? x) = true -> (x <=? 1) = true ->
  (0 <=? Math_min 1 (Math_max 0 x)) = true /\
  ((Math_min 1 (Math_max 0 x) <? 1) = true \/ Math_min 1 (Math_max 0 x) = 1).
Proof.
  intros H0 H1. unfold Math_max.
  rewrite (leb_0_not_nan x H0).
  change (is_nan 0 || false) with false. cbv iota.
  change (neg_infinity <? 0) with true. cbv iota zeta.
  change (is_neg_zero 0) with false. rewrite andb_false_r.
  set (z := if 0 <? x then x else 0).
  assert (Hz : (0 <=? z) = true) by (unfold z; now destruct (0 <? x)).
  unfold Math_min. rewrite (leb_0_not_nan z Hz).
  change (is_nan 1 || false) with false. cbv iota.
  change (1 <? infinity) with true. cbv iota zeta.
  change (is_pos_zero 1) with false. rewrite andb_false_r.
  destruct (z <? 1) eqn:E; [now auto|]. split; [reflexivity|now right].
Qed.

(** The plain host meets the assumption on [Math.acos]. *)
Lemma plain_host_acos : acos_within_quarter_turn plain_host.
Proof. intros x _ _. split; reflexivity. Qed.


(** *** Scenario 5 *)

(** C1, as stated: the display of scenario 5 is "P = 6.650 kW".  It is
    not, whatever the host. *)
Lemma C1_three_phase_display_is_not_6_650 :
  ~ exists host,
      compute_and_format host "Load (Three-Phase)" scenario5 = Ok "P = 6.650 kW"%string.
Proof.
  intros [host H]. vm_compute in H. discriminate.
Qed.

(** C1, amended: for the Load (Three-Phase) calculator, computing with
    volts = 480, amps = 10, pf = 0.8 and formatting the result yields the
    display string "P = 6.651 kW" (the computed value is
    6.651075101064488). *)
Theorem C1_three_phase_display_is_6_651 (host : Host) :
  compute_and_format host "Load (Three-Phase)" scenario5 = Ok "P = 6.651 kW"%string.
Proof. vm_compute. reflexivity. Qed.

(** *** Scenarios 1, 4 and 6 *)

(** Power Factor with P = 80 and S = 100 displays "PF = 0.8000". *)
Example scenario1_display (host : Host) :
  compute_and_format host "Power Factor" scenario1 = Ok "PF = 0.8000"%string.
Proof. vm_compute. reflexivity. Qed.

(** Ohm's Law with V = 120, I = 10 and R blank displays
    "V=120.000 V, I=10.000 A, R=12.000 Ω". *)
Example scenario4_display (host : Host) :
  compute_and_format host "Ohm's Law" scenario4 =
    Ok "V=120.000 V, I=10.000 A, R=12.000 Ω"%string.
Proof. vm_compute. reflexivity. Qed.

(** Power Factor with P = 120 and S = 100 fails with the validation
    message "kW cannot exceed kVA". *)
Example scenario6_rejected (host : Host) :
  compute_and_format host "Power Factor" scenario6 =
    Throw (CalcError "kW cannot exceed kVA").
Proof. vm_compute. reflexivity. Qed.

(** *** NaN inputs *)

(** C3, as stated, fails: with both fields of the Power Factor calculator
    left blank the handler displays "PF = NaN" and sets no error. *)
Lemma C3_blank_power_factor_fields_display_nan : ~ nan_is_reported_unexpected.
Proof.
  intros H.
  destruct (buildForm plain_host "Power Factor" (opened "Power Factor")) as [page|e] eqn:E;
    [|vm_compute in E; discriminate].
  assert (He := H plain_host "Power Factor" page [""; ""] E).
  vm_compute in E. injection E as <-.
  destruct He as [He _];
    [discriminate|reflexivity|exists ""; split; [now left|reflexivity]|].
  vm_compute in He. discriminate.
Qed.

(** C10, as stated, fails: with volts = 0 the check on volts throws first,
    with its own message. *)
Lemma C10_volts_checked_first :
  load_kw_single 0 10 NaN = Throw (CalcError "Volts must be > 0").
Proof. reflexivity. Qed.

(** C10, amended: for the Load (Single-Phase) and Load (Three-Phase)
    calculators, if the power-factor input is NaN then compute throws a
    CalcError for every volts and amps, and so do load_kw_single and
    load_kw_three: with message "Volts must be > 0" when volts <= 0;
    otherwise with message "Amps must be > 0" when amps <= 0; otherwise
    (volts and amps pass the positivity checks, as NaN does) with message
    "Power factor must be between 0 and 1". *)
Theorem C10_nan_power_factor_rejected (host : Host) (d : gmap string float) :
  is_nan (num d "pf") = true ->
  load_kw_single (num d "volts") (num d "amps") (num d "pf") =
    Throw (CalcError (load_rejection (num d "volts") (num d "amps"))) /\
  load_kw_three (num d "volts") (num d "amps") (num d "pf") =
    Throw (CalcError (load_rejection (num d "volts") (num d "amps"))) /\
  compute_and_format host "Load (Single-Phase)" d =
    Throw (CalcError (load_rejection (num d "volts") (num d "amps"))) /\
  compute_and_format host "Load (Three-Phase)" d =
    Throw (CalcError (load_rejection (num d "volts") (num d "amps"))).
Proof.
  intros Hpf. rewrite load_single_run, load_three_run.
  unfold load_kw_single, load_kw_three, load_rejection. rewrite (is_nan_eq _ Hpf).
  destruct (num d "volts" <=? 0); [repeat split; reflexivity|].
  destruct (num d "amps" <=? 0); repeat split; reflexivity.
Qed.

(** C10, amended, at volts = 480 and amps = 10, where the power factor is
    what is rejected, and at amps = 0. *)
Lemma C10_nan_power_factor_rejected_witness :
  compute_and_format plain_host "Load (Single-Phase)"
    (<["volts" := 480]> (<["amps" := 10]> (<["pf" := NaN]> ∅))) =
    Throw (CalcError "Power factor must be between 0 and 1") /\
  compute_and_format plain_host "Load (Three-Phase)"
    (<["volts" := 480]> (<["amps" := 0]> (<["pf" := NaN]> ∅))) =
    Throw (CalcError "Amps must be > 0").
Proof.
  split.
  - refine (proj1 (proj2 (proj2
      (C10_nan_power_factor_rejected plain_host
         (<["volts" := 480]> (<["amps" := 10]> (<["pf" := NaN]> ∅))) _))));
      vm_compute; reflexivity.
  - refine (proj2 (proj2 (proj2
      (C10_nan_power_factor_rejected plain_host
         (<["volts" := 480]> (<["amps" := 0]> (<["pf" := NaN]> ∅))) _))));
      vm_compute; reflexivity.
Defined.

(** *** Power factor *)

(** C5, as stated, fails: S = P = +Infinity satisfy S > 0 and
    0 <= P <= S, and power_factor returns NaN, which is not in [0, 1]. *)
Lemma C5_power_factor_of_infinities :
  (0 <? infinity) = true /\ (0 <=? infinity) = true /\ (infinity <=? infinity) = true /\
  power_factor infinity infinity = Ok NaN /\ (0 <=? NaN) = false.
Proof. repeat split; reflexivity. Qed.

(** C5, amended: for every S > 0 and every finite P with 0 <= P <= S,
    power_factor(P, S) returns P / S without raising, and the returned
    value lies in the interval [0, 1]. *)
Theorem C5_power_factor_in_unit_interval (P S : float) :
  (0 <? S) = true -> (0 <=? P) = true -> (P <=? S) = true -> is_infinity P = false ->
  power_factor P S = Ok (P / S) /\ (0 <=? P / S) = true /\ (P / S <=? 1) = true.
Proof.
  intros HS HP Hle Hfin. split.
  - unfold power_factor.
    now rewrite (positive_not_leb_0 S HS), (nonneg_not_ltb_0 P HP), (leb_not_gtb P S Hle).
  - now apply div_unit_interval.
Qed.

(** C5, amended, at P = 80 and S = 100. *)
Lemma C5_power_factor_in_unit_interval_witness :
  power_factor 80 100 = Ok (80 / 100) /\ (0 <=? 80 / 100) = true /\ (80 / 100 <=? 1) = true.
Proof. apply (C5_power_factor_in_unit_interval 80 100); reflexivity. Defined.

(** *** Reactive power *)

(** C7: for every S > 0 and every P with 0 <= P <= S,
    reactive_power_kvar(S, P) returns a value that is never negative, and
    returns exactly 0 when P equals S. *)
Theorem C7_reactive_power_never_negative (host : Host) (S P : float) :
  (0 <? S) = true -> (0 <=? P) = true -> (P <=? S) = true ->
  exists q, reactive_power_kvar host S P = Ok q /\
            (0 <=? q) = true /\
            ((P =? S) = true -> q = 0).
Proof.
  intros HS HP Hle. unfold reactive_power_kvar.
  rewrite (positive_not_leb_0 S HS), (nonneg_not_ltb_0 P HP), (leb_not_gtb P S Hle).
  eexists. split; [reflexivity|]. cbv zeta.
  destruct (0 <? square host S - square host P) eqn:Hval.
  - split; [now apply sqrt_nonneg|].
    intros He. rewrite (eqb_positive_eq P S HS He), sub_diag_not_pos in Hval. discriminate.
  - split; reflexivity.
Qed.

(** C7 at S = 100 and P = 80. *)
Lemma C7_reactive_power_never_negative_witness :
  exists q, reactive_power_kvar plain_host 100 80 = Ok q /\
            (0 <=? q) = true /\
            ((80 =? 100) = true -> q = 0).
Proof. apply (C7_reactive_power_never_negative plain_host 100 80); reflexivity. Defined.

(** *** Phase angle *)

(** C8, as stated, fails: at S = P = +Infinity the power factor is NaN
    and so is the angle. *)
Lemma C8_phase_angle_of_infinities :
  ~ forall host S P,
      (0 <? S) = true -> (0 <=? P) = true -> (P <=? S) = true ->
      exists theta, phase_angle_deg host S P = Ok theta /\
                    (0 <=? theta) = true /\ (theta <=? 90) = true.
Proof.
  intros H.
  destruct (H plain_host infinity infinity) as (theta & E & H0 & _); try reflexivity.
  vm_compute in E. injection E as <-. discriminate.
Qed.

(** C8, amended: on a host whose Math.acos maps the numbers from 0 up to
    1 into [0, pi / 2], for every S > 0 and every finite P with
    0 <= P <= S, phase_angle_deg(S, P) returns a value in [0, 90] degrees
    inclusive, and returns 0 when P equals S. *)
Theorem C8_phase_angle_within_quarter_turn (host : Host) (S P : float) :
  acos_within_quarter_turn host ->
  (0 <? S) = true -> (0 <=? P) = true -> (P <=? S) = true -> is_infinity P = false ->
  exists theta, phase_angle_deg host S P = Ok theta /\
                (0 <=? theta) = true /\ (theta <=? 90) = true /\
                ((P =? S) = true -> theta = 0).
Proof.
  intros Hacos HS HP Hle Hfin. unfold phase_angle_deg, power_factor.
  rewrite (positive_not_leb_0 S HS), (nonneg_not_ltb_0 P HP), (leb_not_gtb P S Hle).
  eexists. split; [reflexivity|].
  destruct (div_unit_interval P S HS HP Hle Hfin) as [H0 H1].
  destruct (clamp_unit (P / S) H0 H1) as [Hc0 Hc].
  assert (Hrange : (0 <=? 180 / Math_PI * Math_acos host (Math_min 1 (Math_max 0 (P / S)))) = true /\
                   (180 / Math_PI * Math_acos host (Math_min 1 (Math_max 0 (P / S))) <=? 90) = true).
  { destruct Hc as [Hlt | ->]; [|split; reflexivity].
    destruct (ltb_asym _ _ Hlt) as [Hgt Hne].
    unfold Math_acos.
    rewrite (leb_0_not_nan _ Hc0), Hgt, (nonneg_not_below_minus_one _ Hc0), Hne. cbn [orb].
    destruct (Hacos _ Hc0 Hlt) as [Ha0 Ha1].
    now apply degrees_bound. }
  destruct Hrange as [Hr0 Hr1]. repeat split; try assumption.
  intros He. rewrite (eqb_positive_eq P S HS He) in *.
  rewrite ltb_0_positive in HS. apply sf_positive_inv in HS.
  destruct HS as [ES|(m & e & ES)].
  - rewrite (is_infinity_SF S _ ES) in Hfin. discriminate.
  - rewrite (div_diag S m e false ES). reflexivity.
Qed.

(** C8, amended, at S = P = 100. *)
Lemma C8_phase_angle_within_quarter_turn_witness :
  exists theta, phase_angle_deg plain_host 100 100 = Ok theta /\
                (0 <=? theta) = true /\ (theta <=? 90) = true /\
                ((100 =? 100) = true -> theta = 0).
Proof.
  apply (C8_phase_angle_within_quarter_turn plain_host 100 100);
    [exact plain_host_acos|reflexivity..].
Defined.

End AppFacts.

(** ** [app.js]: Ohm's law and the two loads to floating-point tolerance *)

Module ToleranceFacts.
Import Stdlib.Reals.Reals Stdlib.micromega.Lra.
Import JS App Spec Rounding RoundingFacts FloatFacts AppFacts Exact ExactFacts.

Local Open Scope string_scope.
Local Open Scope float_scope.

(** *** Ohm's law *)

(** The factors of a normal product agree with it. *)
Lemma product_agrees i r : normal (i * r) = true -> ohm_agrees (bpow (-51)) (i * r) i r.
Proof.
  intros H. destruct (mul_normal_factors i r H) as [(si & mi & ei & Ei) (sr & mr & er & Er)].
  unfold ohm_agrees.
  rewrite (normal_finite _ H), (finite_rep i _ _ _ Ei), (finite_rep r _ _ _ Er).
  repeat split. now apply mul_agrees.
Qed.

(** So do a dividend, a normal quotient and the divisor. *)
Lemma quotient_agrees v r : normal (v / r) = true -> ohm_agrees (bpow (-51)) v (v / r) r.
Proof.
  intros H. destruct (div_normal_factors v r H) as [(sv & mv & ev & Ev) (sr & mr & er & Er)].
  unfold ohm_agrees.
  rewrite (normal_finite _ H), (finite_rep v _ _ _ Ev), (finite_rep r _ _ _ Er).
  repeat split. now apply div_agrees.
Qed.

Lemma quotient_agrees_swapped v i : normal (v / i) = true -> ohm_agrees (bpow (-51)) v i (v / i).
Proof.
  intros H. destruct (quotient_agrees v i H) as (H1 & H2 & H3 & H4).
  unfold ohm_agrees. repeat split; try assumption.
  now rewrite (Rmult_comm (F2R i)).
Qed.

(** C4, as stated, fails: with V = 1e308 and R = 1e-10 provided, compute
    returns I = Infinity, and V = I * R holds to no tolerance. *)
Lemma C4_quotient_overflows : ~ exists tol, ohms_law_within_tolerance tol.
Proof.
  intros [tol H].
  destruct (H 0x1.1ccf385ebc8ap+1023 NaN 0x1.b7cdfd9d7bdbbp-34
              0x1.1ccf385ebc8ap+1023 infinity 0x1.b7cdfd9d7bdbbp-34 eq_refl) as (_ & Hi & _).
  - vm_compute. reflexivity.
  - discriminate Hi.
Qed.

(** C4, amended: for the Ohm's Law calculator, with the three fields read
    from the form: if the number of provided quantities (not NaN) is not
    two, compute fails with the CalcError "Provide exactly two of V, I,
    R"; if it is two, dividing by a provided R or I equal to zero fails
    with a CalcError, and otherwise the provided quantities are returned
    unchanged and the missing one is the binary64 product or quotient of
    the other two (I * R, V / R, V / I).  When that product or quotient
    is a normal number (it neither overflows nor underflows), the three
    numbers returned are finite and V differs from I * R by at most
    2^-51 of the magnitude of V. *)
Theorem C4_ohms_law (d : gmap string float) (v i r : float) :
  d !! "volts" = Some v -> d !! "amps" = Some i -> d !! "ohms" = Some r ->
  (known v i r <> 2%nat ->
     ohms_law_compute d = Throw (CalcError "Provide exactly two of V, I, R")) /\
  (known v i r = 2%nat ->
     (is_nan v = true ->
        ohms_law_compute d = Ok (ohm_values (i * r) i r) /\
        (normal (i * r) = true -> ohm_agrees (bpow (-51)) (i * r) i r)) /\
     (is_nan i = true ->
        ((r =? 0) = true -> ohms_law_compute d = Throw (CalcError "R must not be 0")) /\
        ((r =? 0) = false ->
           ohms_law_compute d = Ok (ohm_values v (v / r) r) /\
           (normal (v / r) = true -> ohm_agrees (bpow (-51)) v (v / r) r))) /\
     (is_nan r = true ->
        ((i =? 0) = true -> ohms_law_compute d = Throw (CalcError "I must not be 0")) /\
        ((i =? 0) = false ->
           ohms_law_compute d = Ok (ohm_values v i (v / i)) /\
           (normal (v / i) = true -> ohm_agrees (bpow (-51)) v i (v / i))))).
Proof.
  intros Hv Hi Hr. rewrite (ohms_law_cases d v i r Hv Hi Hr).
  unfold known, provided. cbn [List.filter].
  destruct (is_nan v), (is_nan i), (is_nan r); cbn [negb length Nat.eqb];
    repeat match goal with
           | |- ohm_agrees _ (_ * _) _ _ => now apply product_agrees
           | |- ohm_agrees _ _ (_ / _) _ => now apply quotient_agrees
           | |- ohm_agrees _ _ _ (_ / _) => now apply quotient_agrees_swapped
           | H : (_ =? 0) = _ |- _ => rewrite H
           | |- _ /\ _ => split
           | |- _ -> _ => intros ?
           | |- _ = _ => reflexivity || congruence
           end.
Qed.

(** C4, amended, at V = 120, I = 10, R blank: R = 12, and 120 is 10 * 12
    to within the tolerance. *)
Lemma C4_ohms_law_witness :
  ohms_law_compute (ohm_values 120 10 NaN) = Ok (ohm_values 120 10 12) /\
  ohm_agrees (bpow (-51)) 120 10 12.
Proof.
  refine ((fun H => conj (proj1 H) (proj2 H _))
            (proj2 (proj2 (proj2 (proj2
               (C4_ohms_law (ohm_values 120 10 NaN) 120 10 NaN _ _ _) _)) _) _));
    vm_compute; reflexivity.
Defined.

(** *** The two loads *)

Lemma F2R_sqrt3 : (0 < F2R (PrimFloat.sqrt 3))%R.
Proof.
  apply (positive_F2R _ false 7800463371553962 (-52)); [reflexivity|].
  change (Prim2SF (PrimFloat.sqrt 3)) with (S754_finite false 7800463371553962 (-52)).
  repeat constructor.
Qed.

Lemma F2R_1000 : (0 < F2R 1000)%R.
Proof.
  apply (positive_F2R _ false 8796093022208000 (-43)); [reflexivity|].
  change (Prim2SF 1000) with (S754_finite false 8796093022208000 (-43)).
  repeat constructor.
Qed.

Lemma load_tolerance v a pf :
  (0 <? v) = true -> (0 <? a) = true -> (0 <=? pf) = true -> (pf <=? 1) = true ->
  load_steps_normal v a pf = true ->
  load_kw_single v a pf = Ok (v * a * pf / 1000) /\
  load_kw_three v a pf = Ok (PrimFloat.sqrt 3 * v * a * pf / 1000) /\
  load_agrees (v * a * pf / 1000) (PrimFloat.sqrt 3 * v * a * pf / 1000).
Proof.
  intros Hv Ha Hp0 Hp1 Hn. unfold load_steps_normal, Math_sqrt in Hn.
  rewrite !andb_true_iff in Hn. destruct Hn as [[[[[[N1 N2] N3] T1] T2] T3] T4].
  split; [|split].
  - unfold load_kw_single.
    now rewrite (positive_not_leb_0 v Hv), (positive_not_leb_0 a Ha), Hp0, Hp1.
  - unfold load_kw_three, Math_sqrt.
    now rewrite (positive_not_leb_0 v Hv), (positive_not_leb_0 a Ha), Hp0, Hp1.
  - unfold load_agrees, Math_sqrt. rewrite !normal_finite by assumption.
    split; [reflexivity|]. split; [reflexivity|].
    destruct (mul_normal_factors _ _ N1) as [(sv & mv & ev & Ev) (sa & ma & ea & Ea)].
    destruct (mul_normal_factors _ _ N2) as [_ (sp & mp & ep & Ep)].
    assert (PV : (0 < F2R v)%R).
    { apply (positive_F2R _ _ _ _ Ev). constructor. now apply ltb_0_positive. }
    assert (PA : (0 < F2R a)%R).
    { apply (positive_F2R _ _ _ _ Ea). constructor. now apply ltb_0_positive. }
    assert (PP : (0 < F2R pf)%R).
    { apply (positive_F2R _ _ _ _ Ep). now apply leb_0_nonneg. }
    rewrite bpow_m48.
    apply (load_chain (bpow (-52)) (F2R (PrimFloat.sqrt 3)) (F2R v) (F2R a) (F2R pf) (F2R 1000)
             (F2R (PrimFloat.sqrt 3 * v)) (F2R (PrimFloat.sqrt 3 * v * a))
             (F2R (PrimFloat.sqrt 3 * v * a * pf))
             (F2R (PrimFloat.sqrt 3 * v * a * pf / 1000))
             (F2R (v * a)) (F2R (v * a * pf)) (F2R (v * a * pf / 1000)));
      try assumption; try apply F2R_sqrt3; try apply F2R_1000;
      try (now apply mul_error); try (now apply div_error).
    rewrite bpow_m52_eq. lra.
Qed.

(** C6, as stated, fails: at volts = 120, amps = 10, pf = 0.9 the inputs
    are accepted and load_kw_three returns 1.8706148721743872 while
    sqrt(3) * load_kw_single is 1.8706148721743876. *)
Lemma C6_three_phase_differs_in_last_place :
  exists three single,
    load_kw_three 120 10 0x1.ccccccccccccdp-1 = Ok three /\
    load_kw_single 120 10 0x1.ccccccccccccdp-1 = Ok single /\
    (three =? Math_sqrt 3 * single) = false.
Proof. do 2 eexists. repeat split. Qed.

(** C6, amended: for every volts, amps and pf, load_kw_three(volts, amps,
    pf) is load_kw_single(sqrt(3) * volts, amps, pf), the same error or
    the same number: the factor sqrt(3) multiplies volts before the other
    factors, not the final result.  For volts > 0, amps > 0 and
    0 <= pf <= 1 such that no product or quotient on the way overflows or
    underflows (volts * amps, volts * amps * pf, that over 1000,
    sqrt(3) * volts, sqrt(3) * volts * amps, sqrt(3) * volts * amps * pf
    and that over 1000 are normal numbers), both functions return, finite
    numbers, and load_kw_three differs from sqrt(3) times load_kw_single
    by at most 2^-48 of its magnitude. *)
Theorem C6_three_phase_is_single_phase_at_scaled_volts (volts amps pf : float) :
  load_kw_three volts amps pf = load_kw_single (Math_sqrt 3 * volts) amps pf /\
  ((0 <? volts) = true -> (0 <? amps) = true -> (0 <=? pf) = true -> (pf <=? 1) = true ->
   load_steps_normal volts amps pf = true ->
   exists single three,
     load_kw_single volts amps pf = Ok single /\
     load_kw_three volts amps pf = Ok three /\
     load_agrees single three).
Proof.
  split.
  - unfold load_kw_three, load_kw_single, Math_sqrt. now rewrite mul_sqrt3_leb_0.
  - intros Hv Ha Hp0 Hp1 Hn.
    destruct (load_tolerance volts amps pf Hv Ha Hp0 Hp1 Hn) as (H1 & H2 & H3). eauto.
Qed.

(** C6, amended, at volts = 480, amps = 10 and pf = 0.8. *)
Lemma C6_three_phase_is_single_phase_at_scaled_volts_witness :
  exists single three,
    load_kw_single 480 10 0x1.999999999999ap-1 = Ok single /\
    load_kw_three 480 10 0x1.999999999999ap-1 = Ok three /\
    load_agrees single three.
Proof.
  apply (proj2 (C6_three_phase_is_single_phase_at_scaled_volts 480 10 0x1.999999999999ap-1));
    reflexivity.
Defined.

End ToleranceFacts.

(** ** [service-worker.js]: the cache manager *)

Module ServiceWorkerFacts.
Import ServiceWorker Spec.

Local Open Scope string_scope.

Section Activation.
Context {Response : Type}.
Variable now : N.

Abbreviation Storage := (@CacheStorage Response).

(** Deleting one after the other the keys that satisfy [doomed] keeps the
    caches whose name is not such a key. *)
Lemma fold_delete (doomed : string -> bool) (keys : list string) : forall cs : Storage,
  fold_left (fun cs k => if doomed k then caches_delete k cs else cs) keys cs =
  List.filter (fun c => negb (existsb (fun k => doomed k && String.eqb (fst c) k) keys)) cs.
Proof.
  induction keys as [|k keys IH]; intros cs; cbn [fold_left existsb].
  - induction cs as [|c cs IHcs]; [reflexivity|]. cbn. now f_equal.
  - rewrite IH. destruct (doomed k); cbn [andb orb].
    + unfold caches_delete. induction cs as [|c cs IHcs]; [reflexivity|]. cbn.
      destruct (String.eqb (fst c) k); cbn; now rewrite IHcs.
    + reflexivity.
Qed.

Lemma delete_own_keys (doomed : string -> bool) (cs : Storage) :
  fold_left (fun cs k => if doomed k then caches_delete k cs else cs) (caches_keys cs) cs =
  List.filter (fun c => negb (doomed (fst c))) cs.
Proof.
  rewrite fold_delete. apply filter_ext_in. intros c Hc. f_equal.
  destruct (doomed (fst c)) eqn:Hd.
  - apply existsb_exists. exists (fst c). split.
    + unfold caches_keys. now apply in_map.
    + now rewrite Hd, String.eqb_refl.
  - apply not_true_is_false. intros H. apply existsb_exists in H.
    destruct H as (k & _ & H). apply andb_true_iff in H. destruct H as [H1 H2].
    apply String.eqb_eq in H2. congruence.
Qed.

(** Deleting the keys kept by a filter is deleting, among all keys, those
    that pass it. *)
Lemma fold_filtered_keys (doomed : string -> bool) (keys : list string) : forall cs : Storage,
  fold_left (fun cs k => caches_delete k cs) (List.filter doomed keys) cs =
  fold_left (fun cs k => if doomed k then caches_delete k cs else cs) keys cs.
Proof.
  induction keys as [|k keys IH]; intros cs; [reflexivity|]. cbn.
  destruct (doomed k); cbn; apply IH.
Qed.

(** The first listener alone does what the specification says. *)
Lemma activate_first_caches (w : @Worker Response) :
  caches (activate_first now w) =
  List.filter (fun c => negb (String.prefix "ppc-cache-" (fst c)
                               && negb (String.eqb (fst c) (CACHE now))))
              (caches w).
Proof. unfold activate_first. cbn [caches]. apply delete_own_keys. Qed.

(** X16: the first activate listener, taken alone, leaves untouched every
    cache whose name lacks the prefix "ppc-cache-" and deletes, among the
    others, exactly those that are not the current one. *)
Lemma activate_first_as_described (w : @Worker Response) :
  activate_as_described now (caches w) (caches (activate_first now w)).
Proof.
  intros c. rewrite activate_first_caches, filter_In.
  rewrite negb_true_iff, andb_false_iff, negb_false_iff, String.eqb_eq. tauto.
Qed.

(** The second listener keeps only the current cache. *)
Lemma activate_second_caches (w : @Worker Response) :
  caches (activate_second now w) =
  List.filter (fun c => String.eqb (fst c) (CACHE now)) (caches w).
Proof.
  unfold activate_second. cbn [caches]. rewrite fold_filtered_keys, delete_own_keys.
  apply filter_ext. intros c. apply negb_involutive.
Qed.

(** Both listeners together: only the current cache survives, whichever
    listener runs first. *)
Lemma on_activate_caches (w : @Worker Response) :
  caches (on_activate now w) =
  List.filter (fun c => String.eqb (fst c) (CACHE now)) (caches w).
Proof.
  unfold on_activate. rewrite activate_second_caches, activate_first_caches.
  induction (caches w) as [|c cs IH]; [reflexivity|]. cbn.
  destruct (String.eqb (fst c) (CACHE now)) eqn:E; cbn.
  - rewrite andb_false_r. cbn. rewrite E. now rewrite IH.
  - rewrite andb_true_r. destruct (String.prefix _ _); cbn; rewrite ?E; apply IH.
Qed.

Lemma activate_listeners_commute (w : @Worker Response) :
  caches (activate_first now (activate_second now w)) = caches (on_activate now w).
Proof.
  rewrite on_activate_caches, activate_first_caches, activate_second_caches.
  induction (caches w) as [|c cs IH]; [reflexivity|]. cbn.
  destruct (String.eqb (fst c) (CACHE now)) eqn:E; cbn; [|apply IH].
  rewrite E, andb_false_r. cbn. now rewrite IH.
Qed.

(** X15: after the activate event the caches left are those that existed
    under the current name: at most one cache name remains. *)
Theorem X15_activate_leaves_the_current_cache (w : @Worker Response)
  (c : string * @Cache Response) :
  In c (caches (on_activate now w)) <-> In c (caches w) /\ fst c = CACHE now.
Proof.
  unfold on_activate. rewrite activate_second_caches, activate_first_caches.
  rewrite !filter_In, negb_true_iff, andb_false_iff, negb_false_iff, String.eqb_eq.
  tauto.
Qed.

End Activation.


(** C2: on the activate event the caches without the prefix are left
    untouched and, among the others, exactly those that are not current
    are deleted.  The first listener does so; the second listener,
    registered for the same event, deletes every cache but the current
    one.  With a cache "workbox-runtime" of another application, a stale
    cache and the current one, only the current one is left. *)
Theorem C2_activate_deletes_foreign_cache :
  caches_keys (caches (on_activate 1700000005000 foreign_worker)) =
    [ "ppc-cache-v2-1700000005000" ] /\
  String.prefix "ppc-cache-" "workbox-runtime" = false /\
  ~ activate_as_described 1700000005000
      (caches foreign_worker) (caches (on_activate 1700000005000 foreign_worker)).
Proof.
  split; [reflexivity|]. split; [reflexivity|].
  intros H. specialize (H ("workbox-runtime", [])).
  destruct H as [_ H]. 
  assert (Hin : In ("workbox-runtime", @nil (string * unit))
                   (caches (on_activate 1700000005000 foreign_worker))).
  { apply H. split; [now left|now left]. }
  vm_compute in Hin. destruct Hin as [[=]|[]].
Qed.

Section Installation.
Context {Response : Type}.
Variable now : N.
Variable network : string -> option Response.

Abbreviation Storage := (@CacheStorage Response).

(** When the network serves every URL, all of them are fetched, in
    order. *)
Lemma fetch_all_some (urls : list string) :
  (forall url, In url urls -> network url <> None) ->
  exists fetched, fetch_all network urls = Some fetched /\ map fst fetched = urls.
Proof.
  induction urls as [|url urls IH]; intros H; cbn.
  - now exists [].
  - destruct (network url) as [r|] eqn:E; [|now destruct (H url (or_introl eq_refl))].
    destruct IH as (fetched & -> & Hk); [intros u Hu; apply H; now right|].
    exists ((url, r) :: fetched). cbn. now rewrite Hk.
Qed.

(** Putting URLs that the cache does not hold appends them. *)
Lemma cache_put_fresh url (r : Response) (c : @Cache Response) :
  ~ In url (map fst c) -> cache_put url r c = (c ++ [(url, r)])%list.
Proof.
  intros H. unfold cache_put. f_equal.
  induction c as [|e c IH]; [reflexivity|]. cbn in *.
  destruct (String.eqb (fst e) url) eqn:E.
  - apply String.eqb_eq in E. tauto.
  - cbn. f_equal. apply IH. tauto.
Qed.

Lemma put_all_fresh (fetched : list (string * Response)) : forall c : @Cache Response,
  List.NoDup (map fst c ++ map fst fetched) ->
  fold_left (fun c e => cache_put (fst e) (snd e) c) fetched c = (c ++ fetched)%list.
Proof.
  induction fetched as [|[url r] fetched IH]; intros c Hnd; cbn.
  - now rewrite app_nil_r.
  - rewrite cache_put_fresh.
    + rewrite IH.
      * now rewrite <- app_assoc.
      * rewrite map_app. cbn. rewrite <- app_assoc. exact Hnd.
    + cbn in Hnd. apply NoDup_remove_2 in Hnd. intros Hin. apply Hnd.
      apply in_or_app. now left.
Qed.

(** Reading the cache just opened, and the cache just written. *)
Lemma cache_of_new k (c : @Cache Response) (cs : Storage) :
  caches_has k cs = false -> cache_of k (cs ++ [(k, c)])%list = c.
Proof.
  unfold caches_has, cache_of. induction cs as [|e cs IH]; cbn.
  - now rewrite String.eqb_refl.
  - destruct (String.eqb (fst e) k); [discriminate|]. exact IH.
Qed.

Lemma cache_of_set_cache k (c : @Cache Response) (cs : Storage) :
  caches_has k cs = true -> cache_of k (set_cache k c cs) = c.
Proof.
  unfold caches_has, cache_of, set_cache. induction cs as [|e cs IH]; cbn; [discriminate|].
  destruct (String.eqb (fst e) k) eqn:E; cbn.
  - now rewrite String.eqb_refl.
  - rewrite E. exact IH.
Qed.

Lemma caches_has_new k (c : @Cache Response) (cs : Storage) :
  caches_has k (cs ++ [(k, c)])%list = true.
Proof.
  unfold caches_has. rewrite existsb_app. cbn. rewrite String.eqb_refl. apply orb_true_iff. auto.
Qed.

(** C9, as stated, fails: the asset list holds three images, not four
    (and two root documents, not one). *)
Lemma C9_assets_are_not_as_described : ~ assets_as_described ASSETS.
Proof. intros (_ & _ & _ & _ & H & _). vm_compute in H. discriminate. Qed.

(** C9, amended: when the cache of the current version does not exist yet
    and the network serves every asset, install populates that cache with
    exactly the fixed asset list, eight paths: the root path and the index
    document, the stylesheet, the script, the manifest and three image
    assets. *)
Theorem C9_install_populates_the_asset_list (w : @Worker Response) :
  caches_has (CACHE now) (caches w) = false ->
  (forall url, In url ASSETS -> network url <> None) ->
  map fst (cache_of (CACHE now) (caches (on_install now network w))) = ASSETS /\
  install_failed (on_install now network w) = install_failed w /\
  length ASSETS = 8%nat /\
  count_kind RootDocument ASSETS = 2%nat /\
  count_kind Stylesheet ASSETS = 1%nat /\
  count_kind Script ASSETS = 1%nat /\
  count_kind Manifest ASSETS = 1%nat /\
  count_kind Image ASSETS = 3%nat.
Proof.
  intros Hnew Hnet. unfold on_install, install_second. cbn [caches install_first].
  unfold caches_open. rewrite Hnew, cache_of_new by assumption.
  change (List.filter Boolean ASSETS) with ASSETS.
  unfold cache_addAll.
  destruct (fetch_all_some ASSETS Hnet) as (fetched & -> & Hk).
  cbn [caches install_failed skipped_waiting claimed_clients].
  rewrite cache_of_set_cache by apply caches_has_new.
  rewrite put_all_fresh.
  - cbn [app]. rewrite Hk. repeat split; reflexivity.
  - cbn [map app]. rewrite Hk. unfold ASSETS.
    repeat (constructor; [cbn; intuition discriminate|]). constructor.
Qed.
End Installation.

(** C9, amended, on a worker without caches and a network that serves
    every request. *)
Lemma C9_install_populates_the_asset_list_witness :
  map fst (cache_of (CACHE 1700000005000)
             (caches (on_install 1700000005000 echo_network fresh_worker))) = ASSETS.
Proof.
  refine (proj1 (C9_install_populates_the_asset_list 1700000005000 echo_network
                   fresh_worker _ _)).
  - reflexivity.
  - discriminate.
Defined.

End ServiceWorkerFacts.

(** ** [app.js]: reading the fields *)

Module StringFacts.
Import JS Session.

Lemma append_nil s : "" +:+ s = s.
Proof. reflexivity. Qed.

Lemma append_cons c a b : String c a +:+ b = String c (a +:+ b).
Proof. reflexivity. Qed.

Lemma append_assoc a b c : (a +:+ b) +:+ c = a +:+ (b +:+ c).
Proof. induction a as [|x a IH]; [reflexivity|]. now rewrite !append_cons, IH. Qed.

(** *** Bytes *)

Ltac byte_facts :=
  repeat match goal with
         | H : _ |- _ =>
             progress rewrite ?orb_true_iff, ?andb_true_iff, ?orb_false_iff, ?andb_false_iff,
                      ?Nat.eqb_eq, ?Nat.eqb_neq, ?Nat.leb_le, ?Nat.leb_gt in H
         end;
  rewrite ?orb_true_iff, ?andb_true_iff, ?orb_false_iff, ?andb_false_iff,
          ?Nat.eqb_eq, ?Nat.eqb_neq, ?Nat.leb_le, ?Nat.leb_gt;
  lia.

Lemma space_not_continuation c : is_space c = true -> continuation c = false.
Proof. unfold is_space, continuation. cbv zeta. intros H. byte_facts. Qed.

Lemma space2_bytes c1 c2 :
  is_space2 c1 c2 = true -> continuation c1 = false /\ continuation c2 = true.
Proof. unfold is_space2, continuation. cbv zeta. intros H. split; byte_facts. Qed.

Lemma space3_bytes c1 c2 c3 :
  is_space3 c1 c2 c3 = true ->
  continuation c1 = false /\ continuation c2 = true /\ continuation c3 = true.
Proof. unfold is_space3, continuation. cbv zeta. intros H. repeat split; byte_facts. Qed.

Lemma comma_not_continuation : continuation "," = false.
Proof. reflexivity. Qed.

(** White space starts with no continuation byte. *)
Lemma spaces_head c s : spaces (String c s) = true -> continuation c = false.
Proof.
  cbn [spaces]. destruct (is_space c) eqn:E1; [intros _; now apply space_not_continuation|].
  destruct s as [|c2 s2]; [discriminate|].
  destruct (is_space2 c c2) eqn:E2; [intros _; now apply space2_bytes in E2|].
  destruct s2 as [|c3 s3]; [discriminate|].
  intros [E3 _]%andb_prop. now apply space3_bytes in E3.
Qed.

(** *** Induction along the white space at the start of a text *)

Lemma length_ind (P : string -> Prop) :
  (forall s, (forall t, (String.length t < String.length s)%nat -> P t) -> P s) ->
  forall s, P s.
Proof.
  intros H s. remember (String.length s) as n eqn:E. revert s E.
  induction n as [n IH] using lt_wf_ind. intros s ->. apply H. intros t Ht.
  now apply (IH (String.length t)).
Qed.

Lemma white_ind (P : string -> Prop) :
  P "" ->
  (forall c1 s1, is_space c1 = true -> P s1 -> P (String c1 s1)) ->
  (forall c1 c2 s2, is_space c1 = false -> is_space2 c1 c2 = true -> P s2 ->
     P (String c1 (String c2 s2))) ->
  (forall c1 c2 c3 s3, is_space c1 = false -> is_space2 c1 c2 = false ->
     is_space3 c1 c2 c3 = true -> P s3 -> P (String c1 (String c2 (String c3 s3)))) ->
  (forall c1 s1, starts_black c1 s1 -> P (String c1 s1)) ->
  forall s, P s.
Proof.
  intros H0 H1 H2 H3 Hb s. induction s as [s IH] using length_ind.
  destruct s as [|c1 s1]; [exact H0|].
  destruct (is_space c1) eqn:E1; [apply H1; [assumption|apply IH; cbn; lia]|].
  destruct s1 as [|c2 s2]; [apply Hb; now split|].
  destruct (is_space2 c1 c2) eqn:E2; [apply H2; try assumption; apply IH; cbn; lia|].
  destruct s2 as [|c3 s3]; [apply Hb; now repeat split|].
  destruct (is_space3 c1 c2 c3) eqn:E3; [apply H3; try assumption; apply IH; cbn; lia|].
  apply Hb. now repeat split.
Qed.

Lemma black_spaces c1 s1 : starts_black c1 s1 -> spaces (String c1 s1) = false.
Proof.
  intros [E1 H]. cbn [spaces]. rewrite E1. destruct s1 as [|c2 s2]; [reflexivity|].
  destruct H as [E2 H]. rewrite E2. destruct s2 as [|c3 s3]; [reflexivity|].
  now rewrite H.
Qed.

Lemma black_trim_start c1 s1 : starts_black c1 s1 -> trim_start (String c1 s1) = String c1 s1.
Proof.
  intros [E1 H]. cbn [trim_start]. rewrite E1. destruct s1 as [|c2 s2]; [reflexivity|].
  destruct H as [E2 H]. rewrite E2. destruct s2 as [|c3 s3]; [reflexivity|].
  now rewrite H.
Qed.

Lemma spaces_3 c1 c2 c3 s3 :
  is_space c1 = false -> is_space2 c1 c2 = false ->
  spaces (String c1 (String c2 (String c3 s3))) = is_space3 c1 c2 c3 && spaces s3.
Proof. intros E1 E2. cbn [spaces]. now rewrite E1, E2. Qed.

Lemma spaces_2 c1 c2 s2 :
  is_space c1 = false -> is_space2 c1 c2 = true ->
  spaces (String c1 (String c2 s2)) = spaces s2.
Proof. intros E1 E2. cbn [spaces]. now rewrite E1, E2. Qed.

Lemma spaces_1 c1 s1 : is_space c1 = true -> spaces (String c1 s1) = spaces s1.
Proof. intros E1. cbn [spaces]. now rewrite E1. Qed.

Lemma trim_start_1 c1 s1 : is_space c1 = true -> trim_start (String c1 s1) = trim_start s1.
Proof. intros E1. cbn [trim_start]. now rewrite E1. Qed.

Lemma trim_start_2 c1 c2 s2 :
  is_space c1 = false -> is_space2 c1 c2 = true ->
  trim_start (String c1 (String c2 s2)) = trim_start s2.
Proof. intros E1 E2. cbn [trim_start]. now rewrite E1, E2. Qed.

Lemma trim_start_3 c1 c2 c3 s3 :
  is_space c1 = false -> is_space2 c1 c2 = false -> is_space3 c1 c2 c3 = true ->
  trim_start (String c1 (String c2 (String c3 s3))) = trim_start s3.
Proof. intros E1 E2 E3. cbn [trim_start]. now rewrite E1, E2, E3. Qed.

(** *** Trimming *)

Lemma trim_start_spaces s : spaces s = true -> trim_start s = "".
Proof.
  induction s as [|c1 s1 E1 IH|c1 c2 s2 E1 E2 IH|c1 c2 c3 s3 E1 E2 E3 IH|c1 s1 Hb] using white_ind.
  - reflexivity.
  - rewrite spaces_1, trim_start_1 by assumption. exact IH.
  - rewrite spaces_2, trim_start_2 by assumption. exact IH.
  - rewrite spaces_3, trim_start_3, E3 by assumption. exact IH.
  - rewrite (black_spaces _ _ Hb). discriminate.
Qed.




(** *** Commas *)

Lemma remove_commas_app a b :
  remove_commas (a +:+ b) = remove_commas a +:+ remove_commas b.
Proof.
  induction a as [|c a IH]; [reflexivity|]. rewrite append_cons. cbn [remove_commas].
  destruct (Ascii.eqb c ","); [exact IH|]. now rewrite append_cons, IH.
Qed.

Lemma not_comma c : continuation c = true \/ is_space c = true -> Ascii.eqb c "," = false.
Proof.
  intros H. destruct (Ascii.eqb_spec c ",") as [->|]; [|reflexivity].
  destruct H as [H|H]; discriminate H.
Qed.

Lemma lead_not_comma c1 c2 : is_space2 c1 c2 = true -> Ascii.eqb c1 "," = false.
Proof.
  intros H. destruct (Ascii.eqb_spec c1 ",") as [->|]; [|reflexivity]. discriminate H.
Qed.

Lemma lead3_not_comma c1 c2 c3 : is_space3 c1 c2 c3 = true -> Ascii.eqb c1 "," = false.
Proof.
  intros H. destruct (Ascii.eqb_spec c1 ",") as [->|]; [|reflexivity]. discriminate H.
Qed.

(** White space holds no comma. *)
Lemma remove_commas_spaces s : spaces s = true -> remove_commas s = s.
Proof.
  induction s as [|c1 s1 E1 IH|c1 c2 s2 E1 E2 IH|c1 c2 c3 s3 E1 E2 E3 IH|c1 s1 Hb] using white_ind.
  - reflexivity.
  - rewrite spaces_1 by assumption. intros H. cbn [remove_commas].
    rewrite not_comma by auto. now rewrite IH.
  - rewrite spaces_2 by assumption. intros H. cbn [remove_commas].
    rewrite (lead_not_comma _ _ E2). destruct (space2_bytes _ _ E2) as [_ H2].
    rewrite (not_comma c2) by auto. now rewrite IH.
  - rewrite spaces_3, E3 by assumption. intros H. cbn [remove_commas].
    rewrite (lead3_not_comma _ _ _ E3). destruct (space3_bytes _ _ _ E3) as (_ & H2 & H3).
    rewrite (not_comma c2), (not_comma c3) by auto. now rewrite IH.
  - rewrite (black_spaces _ _ Hb). discriminate.
Qed.

(** *** White space around a text *)

Lemma trim_start_app_white l s : spaces l = true -> trim_start (l +:+ s) = trim_start s.
Proof.
  induction l as [|c1 s1 E1 IH|c1 c2 s2 E1 E2 IH|c1 c2 c3 s3 E1 E2 E3 IH|c1 s1 Hb] using white_ind.
  - reflexivity.
  - rewrite spaces_1, append_cons, trim_start_1 by assumption. exact IH.
  - rewrite spaces_2, !append_cons, trim_start_2 by assumption. exact IH.
  - rewrite spaces_3, !append_cons, trim_start_3, E3 by assumption. exact IH.
  - rewrite (black_spaces _ _ Hb). discriminate.
Qed.

(** A text that starts with no white space character still does with
    white space appended. *)
Lemma black_app c1 s1 r :
  spaces r = true -> starts_black c1 s1 -> starts_black c1 (s1 +:+ r).
Proof.
  intros Hr [E1 H]. split; [exact E1|].
  destruct s1 as [|c2 s2].
  - rewrite append_nil. destruct r as [|d r']; [exact I|].
    assert (Hd := spaces_head d r' Hr). split.
    + destruct (is_space2 c1 d) eqn:E; [|reflexivity].
      apply space2_bytes in E. destruct E. congruence.
    + destruct r' as [|d2 r'']; [exact I|].
      destruct (is_space3 c1 d d2) eqn:E; [|reflexivity].
      apply space3_bytes in E. destruct E as (_ & ? & _). congruence.
  - destruct H as [E2 H]. rewrite append_cons. split; [exact E2|].
    destruct s2 as [|c3 s3].
    + rewrite append_nil. destruct r as [|d r']; [exact I|].
      assert (Hd := spaces_head d r' Hr).
      destruct (is_space3 c1 c2 d) eqn:E; [|reflexivity].
      apply space3_bytes in E. destruct E as (_ & _ & ?). congruence.
    + rewrite append_cons. exact H.
Qed.

Lemma spaces_app_r s r : spaces r = true -> spaces (s +:+ r) = spaces s.
Proof.
  intros Hr.
  induction s as [|c1 s1 E1 IH|c1 c2 s2 E1 E2 IH|c1 c2 c3 s3 E1 E2 E3 IH|c1 s1 Hb] using white_ind.
  - now rewrite append_nil.
  - now rewrite append_cons, !spaces_1.
  - now rewrite !append_cons, !spaces_2.
  - now rewrite !append_cons, !spaces_3, IH.
  - rewrite append_cons, (black_spaces _ _ Hb). apply black_spaces. now apply black_app.
Qed.

Lemma trim_start_app_r s r :
  spaces r = true ->
  trim_start (s +:+ r) = if spaces s then "" else trim_start s +:+ r.
Proof.
  intros Hr.
  induction s as [|c1 s1 E1 IH|c1 c2 s2 E1 E2 IH|c1 c2 c3 s3 E1 E2 E3 IH|c1 s1 Hb] using white_ind.
  - rewrite append_nil. now apply trim_start_spaces.
  - now rewrite append_cons, spaces_1, !trim_start_1.
  - now rewrite !append_cons, spaces_2, !trim_start_2.
  - now rewrite !append_cons, spaces_3, !trim_start_3, E3.
  - rewrite (black_spaces _ _ Hb), (black_trim_start _ _ Hb), append_cons.
    apply black_trim_start. now apply black_app.
Qed.

Lemma trim_end_app_r s r : spaces r = true -> trim_end (s +:+ r) = trim_end s.
Proof.
  intros Hr. induction s as [|c s IH].
  - rewrite append_nil. destruct r as [|d r']; [reflexivity|]. cbn [trim_end]. now rewrite Hr.
  - rewrite append_cons. cbn [trim_end]. rewrite <- append_cons.
    rewrite (spaces_app_r (String c s) r Hr). now rewrite IH.
Qed.

Lemma trim_padded_end s r : spaces r = true -> trim (s +:+ r) = trim s.
Proof.
  intros Hr. unfold trim. rewrite (trim_start_app_r s r Hr).
  destruct (spaces s) eqn:E.
  - now rewrite (trim_start_spaces s E).
  - now apply trim_end_app_r.
Qed.

Lemma trim_padded_start l s : spaces l = true -> trim (l +:+ s) = trim s.
Proof. intros Hl. unfold trim. now rewrite trim_start_app_white. Qed.

End StringFacts.

(** ** [app.js]: the page *)

Module PageFacts.
Import JS App Spec Session StringFacts AppFacts.

(** *** [collectInputs] *)


(** X2: a comma anywhere in a field and white space around its text (any
    sequence of the white space and line terminators that trim strips) do
    not change the number read from it. *)
Theorem X2_separators_and_padding_are_ignored (host : Host) (l a b r : string) :
  spaces l = true -> spaces r = true ->
  parse_field host (l +:+ a +:+ "," +:+ b +:+ r) = parse_field host (a +:+ b).
Proof.
  intros Hl Hr. unfold parse_field.
  rewrite !remove_commas_app, (remove_commas_spaces l Hl), (remove_commas_spaces r Hr).
  change (remove_commas ",") with "". rewrite append_nil.
  rewrite trim_padded_start by assumption.
  replace (remove_commas a +:+ remove_commas b +:+ r)
    with ((remove_commas a +:+ remove_commas b) +:+ r)
    by apply append_assoc.
  now rewrite trim_padded_end.
Qed.

(** X2 on the text "1,200" with a space and a no-break space before it
    and a tab and a line feed after it. *)
Lemma X2_separators_and_padding_are_ignored_witness :
  parse_field plain_host
    ((" " +:+ no_break_space) +:+ "1" +:+ "," +:+ "200" +:+ String "009" (String "010" "")) =
  parse_field plain_host ("1" +:+ "200").
Proof.
  apply (X2_separators_and_padding_are_ignored plain_host
           (" " +:+ no_break_space) "1" "200" (String "009" (String "010" "")));
    reflexivity.
Defined.

Lemma find_app {A} (f : A -> bool) (l1 l2 : list A) :
  List.find f (l1 ++ l2)%list =
    match List.find f l1 with Some x => Some x | None => List.find f l2 end.
Proof. induction l1 as [|x l1 IH]; [reflexivity|]. cbn. now destruct (f x). Qed.

(** Assigning [values[k]] field after field leaves, under each key, what
    the last field with that key parses to. *)
Lemma collect_fold host (els : list InputEl) : forall (acc : gmap string float) k,
  fold_left (fun values el => <[data_key el := parse_field host (value el)]> values) els acc !! k =
    match List.find (fun el => String.eqb (data_key el) k) (rev els) with
    | Some el => Some (parse_field host (value el))
    | None => acc !! k
    end.
Proof.
  induction els as [|el els IH]; intros acc k; [reflexivity|].
  cbn [fold_left rev]. rewrite IH, find_app.
  destruct (List.find _ (rev els)); [reflexivity|]. cbn [List.find].
  destruct (String.eqb_spec (data_key el) k) as [->|Hne].
  - now rewrite lookup_insert_eq.
  - now rewrite lookup_insert_ne.
Qed.

Lemma collectInputs_keys host name page k :
  In k (map data_key (form page)) -> is_Some (collectInputs host name page !! k).
Proof.
  intros (el & <- & Hin)%in_map_iff. unfold collectInputs. rewrite collect_fold.
  destruct (List.find _ (rev (form page))) eqn:F; [now eexists|].
  apply in_rev in Hin. apply (find_none _ _ F el) in Hin.
  now rewrite String.eqb_refl in Hin.
Qed.

(** *** The clear button *)

Lemma clear_fold host (els : list InputEl) : forall acc : gmap string float,
  fold_left (fun values el => <[data_key el := parse_field host (value el)]> values)
            (map (fun el => {| data_key := data_key el; value := "" |}) els)
            ((fun _ => NaN) <$> acc) =
  (fun _ => NaN) <$>
    fold_left (fun values el => <[data_key el := parse_field host (value el)]> values) els acc.
Proof.
  induction els as [|el els IH]; intros acc; [reflexivity|].
  cbn [fold_left map data_key value]. rewrite <- IH. f_equal.
  now rewrite fmap_insert.
Qed.

Lemma collect_cleared host name page :
  collectInputs host name (on_clear page) = (fun _ => NaN) <$> collectInputs host name page.
Proof.
  unfold collectInputs, on_clear. cbn [form showResult].
  rewrite <- clear_fold. now rewrite fmap_empty.
Qed.

(** X4: after a click on Clear the form has the same keys as before and
    every one of them reads as missing (NaN); the result area is empty and
    not flagged as an error. *)
Theorem X4_clear_blanks_every_field (host : Host) (name : string) (page : Page) :
  collectInputs host name (on_clear page) = (fun _ => NaN) <$> collectInputs host name page /\
  map data_key (form (on_clear page)) = map data_key (form page) /\
  result_text (on_clear page) = "" /\ result_error (on_clear page) = false.
Proof.
  split; [apply collect_cleared|]. split; [|split; reflexivity].
  unfold on_clear. cbn [form showResult]. now rewrite map_map.
Qed.

(** *** The compute button *)

(** What a click on Compute shows does not depend on what the result area
    showed before. *)
Lemma on_compute_showResult host text isError page :
  on_compute host (showResult text isError page) = on_compute host page.
Proof.
  unfold on_compute, collectInputs. cbn [selected form showResult].
  now destruct (compute_and_format _ _ _) as [?|[?|?]].
Qed.

Lemma on_compute_form host page :
  selected (on_compute host page) = selected page /\
  form (on_compute host page) = form page.
Proof. unfold on_compute. now destruct (compute_and_format _ _ _) as [?|[?|?]]. Qed.

(** X5: a click on Compute changes the result area only, the selected
    calculator and the fields stay as they are; what it shows does not
    depend on what the result area showed before (two pages with the same
    selection and the same fields end up the same); and a second click
    right after the first changes nothing. *)
Theorem X5_compute_twice_is_compute_once (host : Host) (page : Page) :
  on_compute host (on_compute host page) = on_compute host page /\
  selected (on_compute host page) = selected page /\
  form (on_compute host page) = form page /\
  (forall other, selected other = selected page -> form other = form page ->
     on_compute host other = on_compute host page).
Proof.
  split; [|split; [|split]]; try apply on_compute_form.
  - unfold on_compute at 2.
    destruct (compute_and_format _ _ _) as [?|[?|?]]; apply on_compute_showResult.
  - intros other Hsel Hform. unfold on_compute, collectInputs, showResult.
    now rewrite Hsel, Hform.
Qed.

(** *** The registry and the form *)

Lemma calc_registered host name spec :
  calc host name = Ok spec <-> In (name, spec) (CALCS host).
Proof.
  split.
  - unfold calc. destruct (List.find _ (CALCS host)) as [[name' spec']|] eqn:F; [|discriminate].
    apply find_some in F. destruct F as [Hin Heq]. cbn [fst] in Heq.
    apply String.eqb_eq in Heq. subst name'. now intros [= <-].
  - cbn.
    intros [[= <- <-]|[[= <- <-]|[[= <- <-]|[[= <- <-]|[[= <- <-]|[[= <- <-]|[]]]]]]];
      reflexivity.
Qed.

Lemma offered_registered host name :
  In name (populateDropdown host) <-> exists spec, In (name, spec) (CALCS host).
Proof.
  unfold populateDropdown. rewrite in_map_iff. split.
  - intros ([name' spec] & <- & Hin). now exists spec.
  - intros [spec Hin]. now exists (name, spec).
Qed.

Lemma calc_unknown host name :
  ~ In name (populateDropdown host) -> calc host name = Throw (HostError "TypeError").
Proof.
  intros Hout. unfold calc.
  destruct (List.find _ (CALCS host)) as [[name' spec']|] eqn:F; [|reflexivity].
  apply find_some in F. destruct F as [Hin Heq]. cbn [fst] in Heq.
  apply String.eqb_eq in Heq. subst name'. destruct Hout.
  apply offered_registered. eauto.
Qed.

Lemma keys_distinct host name spec :
  In (name, spec) (CALCS host) -> List.NoDup (map key (inputs spec)).
Proof.
  cbn.
  intros [[= <- <-]|[[= <- <-]|[[= <- <-]|[[= <- <-]|[[= <- <-]|[[= <- <-]|[]]]]]]];
    cbn; repeat constructor; cbn; intuition discriminate.
Qed.

Lemma buildForm_keys (ins : list InputDesc) :
  map data_key (map (fun inp => {| data_key := key inp; value := "" |}) ins) = map key ins.
Proof. rewrite map_map. reflexivity. Qed.

(** X6: buildForm(name) succeeds exactly for the names the dropdown
    offers.  It then builds one blank field per input of that calculator,
    in order, with pairwise distinct keys, and leaves the selection and the
    result area as they were; for any other name it fails with a TypeError
    (CALCS[name] is undefined). *)
Theorem X6_buildForm_outcome (host : Host) (name : string) (page : Page) :
  match buildForm host name page with
  | Ok built =>
      In name (populateDropdown host) /\
      exists spec, In (name, spec) (CALCS host) /\
        map data_key (form built) = map key (inputs spec) /\
        List.NoDup (map data_key (form built)) /\
        Forall (fun el => value el = "") (form built) /\
        selected built = selected page /\
        result_text built = result_text page /\ result_error built = result_error page
  | Throw e => ~ In name (populateDropdown host) /\ e = HostError "TypeError"
  end.
Proof.
  unfold buildForm. destruct (calc host name) as [spec|e] eqn:E.
  - apply calc_registered in E. cbn -[populateDropdown CALCS].
    split; [apply offered_registered; eauto|]. exists spec. rewrite buildForm_keys.
    repeat split; eauto using keys_distinct.
    apply List.Forall_forall. intros el (inp & <- & _)%in_map_iff. reflexivity.
  - cbn. destruct (in_dec string_dec name (populateDropdown host)) as [Hin|Hout].
    + apply offered_registered in Hin. destruct Hin as [spec Hin].
      apply calc_registered in Hin. congruence.
    + rewrite (calc_unknown host name Hout) in E. now injection E as <-.
Qed.

(** *** What [collectInputs] returns *)

Lemma find_absent {A} (f : A -> bool) (l : list A) :
  (forall x, In x l -> f x = false) -> List.find f l = None.
Proof.
  induction l as [|x l IH]; [reflexivity|]. intros H. cbn [List.find].
  rewrite (H x) by now left. apply IH. intros y Hy. apply H. now right.
Qed.

(** Among fields with pairwise distinct keys, the last field with the key
    of a field is that field. *)
Lemma find_field (els : list InputEl) (el : InputEl) :
  List.NoDup (map data_key els) -> In el els ->
  List.find (fun x => String.eqb (data_key x) (data_key el)) (rev els) = Some el.
Proof.
  induction els as [|x els IH]; [intros _ []|].
  cbn [map rev]. intros Hnd Hin. inversion Hnd as [|? ? Hx Hrest]; subst.
  rewrite find_app. destruct Hin as [->|Hin].
  - rewrite find_absent.
    + cbn [List.find]. now rewrite String.eqb_refl.
    + intros y Hy. apply String.eqb_neq. intros E. apply Hx. rewrite <- E.
      apply in_map. now apply in_rev.
  - now rewrite (IH Hrest Hin).
Qed.

(** X3: when the form on the page is the one of the selected calculator,
    the object collectInputs returns holds, under the key of each field of
    the form, the number read from the text of that field. *)
Theorem X3_collectInputs_reads_each_field (host : Host) (name : string) (page : Page)
  (el : InputEl) :
  form_of_selected host page -> In el (form page) ->
  collectInputs host name page !! data_key el = Some (parse_field host (value el)).
Proof.
  intros (spec & Hin & Hkeys) Hel. unfold collectInputs. rewrite collect_fold.
  rewrite find_field; [reflexivity| |exact Hel].
  rewrite Hkeys. exact (keys_distinct host (selected page) spec Hin).
Qed.

(** X3 on the form of Ohm's law with 12 typed into the voltage: the
    voltage is read from "12" and the current is missing. *)
Lemma X3_collectInputs_reads_each_field_witness :
  collectInputs plain_host "Ohm's Law" ohm_page_with_volts !! "volts" =
    Some (parse_field plain_host "12") /\
  collectInputs plain_host "Ohm's Law" ohm_page_with_volts !! "amps" = Some NaN.
Proof.
  split.
  - apply (X3_collectInputs_reads_each_field plain_host "Ohm's Law" ohm_page_with_volts
             {| data_key := "volts"; value := "12" |}).
    + eexists. split; [cbn; right; right; right; left; reflexivity|reflexivity].
    + cbn. tauto.
  - apply (X3_collectInputs_reads_each_field plain_host "Ohm's Law" ohm_page_with_volts
             {| data_key := "amps"; value := "" |}).
    + eexists. split; [cbn; right; right; right; left; reflexivity|reflexivity].
    + cbn. tauto.
Defined.

(** *** No generic failure *)
(** *** No generic failure *)

(** When the values object has every key of the calculator's inputs,
    computing and formatting raise nothing but [CalcError]. *)
Lemma run_throws_calc_error host name spec d e :
  In (name, spec) (CALCS host) ->
  (forall k, In k (map key (inputs spec)) -> is_Some (d !! k)) ->
  compute_and_format host name d = Throw e -> exists message, e = CalcError message.
Proof.
  cbn -[compute_and_format].
  intros [[= <- <-]|[[= <- <-]|[[= <- <-]|[[= <- <-]|[[= <- <-]|[[= <- <-]|[]]]]]]] Hkeys.
  - rewrite power_factor_run. destruct (power_factor _ _) eqn:E; [discriminate|].
    intros [= <-]. now apply power_factor_throws in E.
  - rewrite reactive_power_run. destruct (reactive_power_kvar _ _ _) eqn:E; [discriminate|].
    intros [= <-]. now apply reactive_power_throws in E.
  - rewrite phase_angle_run. destruct (phase_angle_deg _ _ _) eqn:E; [discriminate|].
    intros [= <-]. now apply phase_angle_throws in E.
  - destruct (Hkeys "volts") as [v Hv]; [cbn; tauto|].
    destruct (Hkeys "amps") as [i Hi]; [cbn; tauto|].
    destruct (Hkeys "ohms") as [r Hr]; [cbn; tauto|].
    rewrite ohms_law_run, (ohms_law_cases d v i r Hv Hi Hr).
    repeat match goal with |- context [if ?c then _ else _] => destruct c end;
      try (intros [= <-]; eauto);
      match goal with |- context [ohm_values ?v ?i ?r] =>
        destruct (ohm_values_run host v i r) as [text ->]; discriminate
      end.
  - rewrite load_single_run. destruct (load_kw_single _ _ _) eqn:E; [discriminate|].
    intros [= <-]. now apply load_kw_single_throws in E.
  - rewrite load_three_run. destruct (load_kw_three _ _ _) eqn:E; [discriminate|].
    intros [= <-]. now apply load_kw_three_throws in E.
Qed.

Lemma compute_outcome host page :
  form_of_selected host page -> displayed_or_rejected (on_compute host page).
Proof.
  intros (spec & Hin & Hkeys). unfold on_compute, displayed_or_rejected.
  destruct (compute_and_format _ _ _) as [text|e] eqn:E; [now left|].
  assert (Hall : forall k, In k (map key (inputs spec)) ->
            is_Some (collectInputs host (selected page) page !! k)).
  { intros k Hk. apply collectInputs_keys. now rewrite Hkeys. }
  destruct (run_throws_calc_error host _ spec _ e Hin Hall E) as [message ->].
  right. eauto.
Qed.

Lemma not_unexpected page : displayed_or_rejected page -> ~ shows_unexpected page.
Proof.
  intros [Hok|(message & _ & Htext)] [Herr Hpre]; [congruence|].
  rewrite Htext in Hpre. discriminate.
Qed.

(** *** NaN fields *)

(** Typing into the fields leaves the keys of the form as they are. *)
Lemma fill_keys (texts : list string) (page : Page) :
  length texts = length (form page) ->
  map data_key (form (fill texts page)) = map data_key (form page).
Proof.
  unfold fill. cbn [form]. generalize (form page). intros els. revert texts.
  induction els as [|el els IH]; intros [|text texts] Hlen; try discriminate Hlen;
    [reflexivity|].
  cbn. f_equal. apply IH. now injection Hlen.
Qed.

(** C3, amended: for every calculator and whatever the fields hold, a
    field that parses to NaN (blank, or text that is no number) included,
    a click on Compute never ends in the generic "[unexpected] <details>"
    form. *)
Theorem C3_nan_field_is_never_unexpected (host : Host) (name : string) (page : Page)
  (texts : list string) :
  buildForm host name (opened name) = Ok page -> length texts = length (form page) ->
  ~ shows_unexpected (on_compute host (fill texts page)).
Proof.
  intros Hbuild Hlen. apply not_unexpected, compute_outcome.
  destruct (buildForm_inv host name page Hbuild) as (spec & Hin & ->).
  exists spec. split; [exact Hin|].
  rewrite fill_keys by exact Hlen. apply buildForm_keys.
Qed.

(** C3, amended, on the Power Factor calculator with "abc" in the first
    field and the second one blank. *)
Lemma C3_nan_field_is_never_unexpected_witness :
  exists page,
    buildForm plain_host "Power Factor" (opened "Power Factor") = Ok page /\
    is_nan (parse_field plain_host "abc") = true /\
    ~ shows_unexpected (on_compute plain_host (fill ["abc"; ""] page)).
Proof.
  eexists. split; [reflexivity|]. split; [reflexivity|].
  exact (C3_nan_field_is_never_unexpected plain_host "Power Factor" _ ["abc"; ""]
           eq_refl eq_refl).
Defined.

(** *** Sessions *)
(** *** Sessions *)

Lemma type_into_keys k text page :
  map data_key (form (type_into k text page)) = map data_key (form page).
Proof.
  unfold type_into. cbn [form]. rewrite map_map. apply map_ext. intros el.
  now destruct (String.eqb_spec (data_key el) k).
Qed.

Lemma on_clear_keys page :
  map data_key (form (on_clear page)) = map data_key (form page).
Proof. unfold on_clear. cbn [form showResult]. now rewrite map_map. Qed.

Lemma on_change_offered host name page :
  In name (populateDropdown host) ->
  exists built, on_change host name page = Ok built /\
    form_of_selected host built /\ result_error built = false.
Proof.
  intros Hin. apply offered_registered in Hin. destruct Hin as [spec Hin].
  unfold on_change, buildForm. rewrite (proj2 (calc_registered host name spec) Hin).
  eexists. split; [reflexivity|]. split; [|reflexivity].
  exists spec. split; [exact Hin|apply buildForm_keys].
Qed.

(** Each handler keeps the form that of the selected calculator and the
    result area free of the generic failure. *)
Lemma act_invariant host a page :
  offered host a -> form_of_selected host page -> displayed_or_rejected page ->
  exists next, act host a page = Ok next /\
    form_of_selected host next /\ displayed_or_rejected next.
Proof.
  intros Hoff Hform Hres. destruct a as [name|k text| |]; cbn [act offered] in *.
  - destruct (on_change_offered host name page Hoff) as (built & E & H1 & H2).
    exists built. repeat split; auto. now left.
  - eexists. split; [reflexivity|]. split; [|exact Hres].
    destruct Hform as (spec & Hin & Hkeys). exists spec. now rewrite type_into_keys.
  - eexists. split; [reflexivity|]. split; [|now apply compute_outcome].
    destruct Hform as (spec & Hin & Hkeys). exists spec.
    destruct (on_compute_form host page) as [-> ->]. auto.
  - eexists. split; [reflexivity|]. split; [|now left].
    destruct Hform as (spec & Hin & Hkeys). exists spec. now rewrite on_clear_keys.
Qed.

Lemma session_invariant host actions : forall page,
  Forall (offered host) actions ->
  form_of_selected host page -> displayed_or_rejected page ->
  exists final, session host actions page = Ok final /\
    form_of_selected host final /\ displayed_or_rejected final.
Proof.
  induction actions as [|a rest IH]; intros page Hoff Hform Hres; [now eexists|].
  inversion Hoff as [|? ? Ha Hrest]; subst.
  destruct (act_invariant host a page Ha Hform Hres) as (next & E & H1 & H2).
  cbn [session]. rewrite E. cbn. now apply IH.
Qed.

Lemma on_load_invariant host :
  exists page, on_load host = Ok page /\
    form_of_selected host page /\ displayed_or_rejected page.
Proof.
  eexists. split; [reflexivity|]. split; [|now left].
  eexists. split; [now left|reflexivity].
Qed.

(** X7: from the load of the page on, whatever the user does in whatever
    order (choosing calculators the dropdown offers, typing any text into
    any field, clicking Compute or Clear), no handler lets an exception
    escape and the result area never shows the generic "[unexpected]"
    failure: it shows a result, nothing, or a validation error
    "[error] <message>". *)
Theorem X7_no_session_ends_unexpected (host : Host) (actions : list action) :
  Forall (offered host) actions ->
  exists page,
    (start ← on_load host; session host actions start) = Ok page /\
    displayed_or_rejected page /\ ~ shows_unexpected page.
Proof.
  intros Hoff. destruct (on_load_invariant host) as (start & -> & H1 & H2).
  destruct (session_invariant host actions start Hoff H1 H2) as (final & E & _ & H3).
  exists final. repeat split; auto using not_unexpected.
Qed.

(** X7 on a session that computes a power factor from "abc" and then
    turns to Ohm's law. *)
Lemma X7_no_session_ends_unexpected_witness :
  exists page,
    (start ← on_load plain_host;
     session plain_host
       [TypeInto "p_kw" "abc"; ClickCompute; Choose "Ohm's Law"; TypeInto "volts" "12";
        ClickCompute]
       start) = Ok page /\
    displayed_or_rejected page /\ ~ shows_unexpected page.
Proof.
  apply (X7_no_session_ends_unexpected plain_host).
  repeat (constructor; [cbn; tauto|]). constructor.
Defined.

(** *** An empty form *)

Lemma cleared_lookup host name page k :
  In k (map data_key (form page)) ->
  collectInputs host name (on_clear page) !! k = Some NaN.
Proof.
  intros Hk. rewrite collect_cleared, lookup_fmap.
  now destruct (collectInputs_keys host name page k Hk) as [x ->].
Qed.

(** X8: whatever the fields held, Clear followed by Compute shows what
    the selected calculator makes of an empty form: "PF = NaN",
    "Q = 0.000 kVAr" and "θ = NaN°" without an error flag for the three
    power calculators, the validation error "Provide exactly two of V, I,
    R" for Ohm's law and "Power factor must be between 0 and 1" for the
    two load calculators. *)
Theorem X8_compute_on_cleared_form (host : Host) (page : Page) :
  form_of_selected host page ->
  (result_text (on_compute host (on_clear page)),
   result_error (on_compute host (on_clear page))) = blank_display (selected page).
Proof.
  intros (spec & Hin & Hkeys).
  assert (Hall : forall k, In k (map key (inputs spec)) ->
            collectInputs host (selected page) (on_clear page) !! k = Some NaN).
  { intros k Hk. apply cleared_lookup. now rewrite Hkeys. }
  unfold on_compute. change (selected (on_clear page)) with (selected page).
  revert Hin Hall. generalize (collectInputs host (selected page) (on_clear page)).
  generalize (selected page). intros name d Hin Hall. cbn in Hin.
  destruct Hin as [[= <- <-]|[[= <- <-]|[[= <- <-]|[[= <- <-]|[[= <- <-]|[[= <- <-]|[]]]]]]];
    cbn [inputs map key] in Hall.
  - rewrite power_factor_run. unfold num.
    rewrite (Hall "p_kw"), (Hall "s_kva") by (cbn; tauto). reflexivity.
  - rewrite reactive_power_run. unfold num.
    rewrite (Hall "p_kw"), (Hall "s_kva") by (cbn; tauto). reflexivity.
  - rewrite phase_angle_run. unfold num.
    rewrite (Hall "p_kw"), (Hall "s_kva") by (cbn; tauto). reflexivity.
  - rewrite ohms_law_run, (ohms_law_cases d NaN NaN NaN) by (apply Hall; cbn; tauto).
    reflexivity.
  - rewrite load_single_run. unfold num.
    rewrite (Hall "volts"), (Hall "amps"), (Hall "pf") by (cbn; tauto). reflexivity.
  - rewrite load_three_run. unfold num.
    rewrite (Hall "volts"), (Hall "amps"), (Hall "pf") by (cbn; tauto). reflexivity.
Qed.

(** X8 on the form of Ohm's law with 12 typed into the voltage. *)
Lemma X8_compute_on_cleared_form_witness :
  (result_text (on_compute plain_host (on_clear ohm_page_with_volts)),
   result_error (on_compute plain_host (on_clear ohm_page_with_volts))) =
  ("[error] Provide exactly two of V, I, R", true).
Proof.
  apply (X8_compute_on_cleared_form plain_host ohm_page_with_volts).
  eexists. split; [cbn; right; right; right; left; reflexivity|reflexivity].
Defined.

End PageFacts.

(** ** [app.js]: the numbers the calculators return *)

Module NumberFacts.
Import JS App Spec Session Rounding RoundingFacts FloatFacts AppFacts.
Local Open Scope float_scope.

(** *** Validation *)

(** X9: the three calculators on apparent and real power validate alike:
    reactive_power_kvar(S, P) and phase_angle_deg(S, P) raise an error
    exactly when power_factor(P, S) does, and then the same error. *)
Theorem X9_power_calculators_validate_alike (host : Host) (s p : float) (e : exn) :
  (reactive_power_kvar host s p = Throw e <-> power_factor p s = Throw e) /\
  (phase_angle_deg host s p = Throw e <-> power_factor p s = Throw e).
Proof.
  unfold reactive_power_kvar, phase_angle_deg, power_factor.
  destruct (s <=? 0); [cbn; tauto|]. destruct (p <? 0); [cbn; tauto|].
  destruct (s <? p); [cbn; tauto|]. cbn. split; split; discriminate.
Qed.

(** *** The ends of the range of the power factor *)

Lemma div_zero_l S : (0 <? S) = true -> 0 / S = 0.
Proof.
  rewrite ltb_0_positive. intros H. apply Prim2SF_inj. rewrite div_spec, SF_zero.
  apply sf_positive_inv in H. now destruct H as [->|(m & e & ->)].
Qed.

(** X10: for every finite S > 0, power_factor(0, S) is exactly 0 and
    power_factor(S, S) is exactly 1: the division rounds neither end of
    the range away. *)
Theorem X10_power_factor_at_the_ends (S : float) :
  (0 <? S) = true -> is_infinity S = false ->
  power_factor 0 S = Ok 0 /\ power_factor S S = Ok 1.
Proof.
  intros HS Hfin. unfold power_factor.
  rewrite (positive_not_leb_0 S HS). split.
  - change (0 <? 0) with false. cbv iota.
    destruct (ltb_asym 0 S HS) as [-> _]. rewrite (div_zero_l S HS). reflexivity.
  - assert (Hn : (S <? 0) = false) by now destruct (ltb_asym 0 S HS).
    rewrite Hn. assert (Hs : (S <? S) = false).
    { destruct (S <? S) eqn:E; [|reflexivity]. destruct (ltb_asym S S E) as [E' _]. congruence. }
    rewrite Hs. rewrite ltb_0_positive in HS. apply sf_positive_inv in HS.
    destruct HS as [ES|(m & e & ES)].
    + rewrite (is_infinity_SF S _ ES) in Hfin. discriminate.
    + now rewrite (div_diag S m e false ES).
Qed.

(** X10 at S = 100. *)
Lemma X10_power_factor_at_the_ends_witness :
  power_factor 0 100 = Ok 0 /\ power_factor 100 100 = Ok 1.
Proof. apply (X10_power_factor_at_the_ends 100); reflexivity. Defined.

(** *** The display of the power factor *)

Lemma all_below_spec p k : all_below k p = true -> forall n, (n < k)%N -> p n = true.
Proof.
  unfold all_below. induction k as [|k IH] using N.peano_ind; intros H n Hn; [lia|].
  rewrite N.peano_rect_succ in H. apply andb_prop in H as [Hk H].
  destruct (N.eq_dec n k) as [->|Hne]; [exact Hk|]. apply IH; [exact H|lia].
Qed.

Lemma fixed_digits_ratio n : (n <= 10000)%N -> ratio_text (fixed_digits n 4) = true.
Proof.
  intros Hn. apply (all_below_spec (fun n => ratio_text (fixed_digits n 4)) 10001); [|lia].
  vm_compute. reflexivity.
Qed.

(** A number up to one, scaled by 10^4 and rounded, is at most 10^4. *)
Lemma nearest_scaled_unit m e :
  (e <= -52)%Z -> (Zpos m <= 2 ^ (- e))%Z -> (nearest_scaled m e 4 <= 10000)%N.
Proof.
  intros He Hm. unfold nearest_scaled. destruct e as [|p|p]; try lia.
  change (- Zneg p)%Z with (Zpos p) in *. change (1 - Zneg p)%Z with (1 + Zpos p)%Z.
  remember (Zpos p) as k eqn:Ek. assert (Hp : (0 < k)%Z) by lia. clear Ek He p.
  assert (Hk : (0 < 2 ^ k)%Z) by (apply pow2_pos; lia).
  rewrite Z.pow_add_r by lia. change (2 ^ 1)%Z with 2%Z. change (10 ^ Z.of_nat 4)%Z with 10000%Z.
  assert (H : ((2 * (Zpos m * 10000) + 2 ^ k) / (2 * 2 ^ k) < 10001)%Z).
  { apply Z.div_lt_upper_bound; lia. }
  assert (H0 : (0 <= (2 * (Zpos m * 10000) + 2 ^ k) / (2 * 2 ^ k))%Z).
  { apply Z.div_pos; lia. }
  lia.
Qed.

Lemma toFixed_unit host x :
  (0 <=? x) = true -> (x <=? 1) = true ->
  exists n, (n <= 10000)%N /\ toFixed host x 4 = fixed_digits n 4.
Proof.
  intros H0 H1. unfold toFixed.
  assert (Habs : Prim2SF (abs x) = SFabs (Prim2SF x)) by apply abs_spec.
  rewrite FloatAxioms.leb_spec in H0 |- *. rewrite FloatAxioms.leb_spec, SF_one_eq in H1.
  rewrite SF_zero in H0. rewrite Habs.
  destruct (Prim2SF x) as [s|[]| |[] m e] eqn:E; try discriminate.
  - exists 0%N. split; [lia|reflexivity].
  - assert (B := Prim2SF_bounded x _ _ _ E).
    destruct (bounded_digits m e B) as (Hd & _ & _).
    assert (Hlt := Zdigits2_bound (Zpos m) ltac:(lia)). cbn [Zdigits2] in Hlt.
    apply SFleb_finite_inv in H1.
    assert (He : (e <= -52)%Z) by lia.
    assert (Hm : (Zpos m <= 2 ^ (- e))%Z).
    { destruct H1 as [H1|[-> H1]]; [|exact H1].
      assert ((2 ^ Zpos (digits2_pos m) <= 2 ^ 53)%Z) by (apply Z.pow_le_mono_r; lia).
      assert ((2 ^ 53 <= 2 ^ (- e))%Z) by (apply Z.pow_le_mono_r; lia).
      lia. }
    change (Prim2SF ten_pow_21) with (S754_finite false 7629394531250000 17).
    cbn [SFabs]. unfold SFleb, SFcompare.
    destruct (Z.compare_spec 17 e) as [?|?|?]; try lia.
    exists (nearest_scaled m e 4). split; [now apply nearest_scaled_unit|reflexivity].
Qed.

(** X11: for every S > 0 and every finite P with 0 <= P <= S the Power
    Factor calculator displays "PF = " followed by a 0 or a 1, a point and
    exactly four digits, on every host. *)
Theorem X11_power_factor_display (host : Host) (P S : float) :
  (0 <? S) = true -> (0 <=? P) = true -> (P <=? S) = true -> is_infinity P = false ->
  exists t,
    compute_and_format host "Power Factor" (<["p_kw" := P]> (<["s_kva" := S]> ∅)) =
      Ok ("PF = " +:+ t) /\ ratio_text t = true.
Proof.
  intros HS HP Hle Hfin. rewrite power_factor_run. unfold num. simplify_map_eq.
  cbn [ToNumber]. unfold power_factor.
  rewrite (positive_not_leb_0 S HS), (nonneg_not_ltb_0 P HP), (leb_not_gtb P S Hle).
  destruct (div_unit_interval P S HS HP Hle Hfin) as [H0 H1].
  destruct (toFixed_unit host (P / S) H0 H1) as (n & Hn & ->).
  eexists. split; [reflexivity|]. now apply fixed_digits_ratio.
Qed.

(** X11 at P = 80 and S = 100. *)
Lemma X11_power_factor_display_witness :
  exists t,
    compute_and_format plain_host "Power Factor" (<["p_kw" := 80]> (<["s_kva" := 100]> ∅)) =
      Ok ("PF = " +:+ t) /\ ratio_text t = true.
Proof. apply (X11_power_factor_display plain_host 80 100); reflexivity. Defined.

(** *** Signs of products and quotients *)

Lemma round_not_nan s m e l : (0 <= m)%Z ->
  binary_round_aux prec emax s m e l <> S754_nan.
Proof.
  intros Hm. generalize (binary_round_aux_sign s m e l Hm).
  now destruct (binary_round_aux _ _ _ _ _ _).
Qed.

Lemma round_nonneg m e l : (0 <= m)%Z ->
  sf_nonneg (binary_round_aux prec emax false m e l).
Proof.
  intros Hm. generalize (binary_round_aux_sign false m e l Hm).
  destruct (binary_round_aux _ _ _ _ _ _) as [s|s| |s m0 e0];
    intros Hs; try contradiction; subst; repeat constructor.
Qed.

Lemma SFmul_positive x y :
  sf_positive x -> sf_positive y -> sf_nonneg (SFmul prec emax x y).
Proof.
  intros [|mx ex] [|my ey]; cbn [SFmul xorb]; try (now repeat constructor).
  apply round_nonneg. lia.
Qed.

Lemma SFmul_nonneg_finite x m e :
  sf_nonneg x -> sf_nonneg (SFmul prec emax x (S754_finite false m e)).
Proof.
  intros [s|? [|mx ex]]; cbn [SFmul xorb]; try (now repeat constructor).
  apply round_nonneg. lia.
Qed.

Lemma SFdiv_nonneg_finite x m e :
  sf_nonneg x -> sf_nonneg (SFdiv prec emax x (S754_finite false m e)).
Proof.
  intros [s|? [|mx ex]]; try apply SFdiv_finite_nonneg; cbn [SFdiv xorb];
    now repeat constructor.
Qed.

Lemma positive_le_one_finite x :
  (0 <? x) = true -> (x <=? 1) = true -> exists m e, Prim2SF x = S754_finite false m e.
Proof.
  rewrite ltb_0_positive, FloatAxioms.leb_spec. intros H Hle.
  apply sf_positive_inv in H. destruct H as [E|H]; [|exact H].
  rewrite E in Hle. discriminate.
Qed.

Lemma mul_sqrt3_positive v : (0 <? v) = true -> (0 <? sqrt 3 * v) = true.
Proof.
  intros Hv. assert (Hle := mul_sqrt3_leb_0 v).
  rewrite (positive_not_leb_0 v Hv) in Hle.
  rewrite ltb_0_positive in *. apply sf_positive_inv in Hv.
  assert (Hn : sf_nonneg (Prim2SF (sqrt 3 * v))).
  { rewrite mul_spec. change (Prim2SF (sqrt 3)) with (S754_finite false 7800463371553962 (-52)).
    apply SFmul_positive; [constructor|]. destruct Hv as [->|(m & e & ->)]; constructor. }
  rewrite FloatAxioms.leb_spec, SF_zero in Hle.
  destruct Hn as [s|x Hx]; [|exact Hx]. now destruct s.
Qed.

(** [volts * amps * pf / 1000] is not negative, and not NaN, when the
    three factors are positive and [pf] is at most one. *)
Lemma load_product_nonneg v a pf :
  (0 <? v) = true -> (0 <? a) = true -> (0 <? pf) = true -> (pf <=? 1) = true ->
  (0 <=? v * a * pf / 1000) = true.
Proof.
  intros Hv Ha Hpf Hle. destruct (positive_le_one_finite pf Hpf Hle) as (m & e & Epf).
  rewrite ltb_0_positive in Hv, Ha. rewrite leb_0_nonneg.
  rewrite div_spec, mul_spec, mul_spec, Epf.
  change (Prim2SF 1000) with (S754_finite false 8796093022208000 (-43)).
  apply SFdiv_nonneg_finite, SFmul_nonneg_finite, SFmul_positive; assumption.
Qed.

Lemma load_accepts v a pf :
  (0 <? v) = true -> (0 <? a) = true -> (0 <? pf) = true -> (pf <=? 1) = true ->
  load_kw_single v a pf = Ok (v * a * pf / 1000).
Proof.
  intros Hv Ha Hpf Hle. unfold load_kw_single.
  rewrite (positive_not_leb_0 v Hv), (positive_not_leb_0 a Ha), Hle.
  assert (H0 : (0 <=? pf) = true).
  { apply leb_0_nonneg. constructor. now apply ltb_0_positive. }
  now rewrite H0.
Qed.

(** X12: for volts > 0, amps > 0 and 0 < pf <= 1, +Infinity included for
    volts and amps, load_kw_single and load_kw_three return without
    raising, and what they return is a number that is not negative (never
    NaN), whatever rounds, overflows or underflows on the way. *)
Theorem X12_load_is_never_negative (volts amps pf : float) :
  (0 <? volts) = true -> (0 <? amps) = true -> (0 <? pf) = true -> (pf <=? 1) = true ->
  (exists kw, load_kw_single volts amps pf = Ok kw /\ (0 <=? kw) = true) /\
  (exists kw, load_kw_three volts amps pf = Ok kw /\ (0 <=? kw) = true).
Proof.
  intros Hv Ha Hpf Hle. split.
  - eexists. split; [now apply load_accepts|now apply load_product_nonneg].
  - assert (E : load_kw_three volts amps pf = load_kw_single (Math_sqrt 3 * volts) amps pf).
    { unfold load_kw_three, load_kw_single, Math_sqrt. now rewrite mul_sqrt3_leb_0. }
    rewrite E. assert (H3 := mul_sqrt3_positive volts Hv).
    eexists. split; [now apply load_accepts|now apply load_product_nonneg].
Qed.

(** X12 at 480 V, 10 A and a power factor of 0.8. *)
Lemma X12_load_is_never_negative_witness :
  (exists kw, load_kw_single 480 10 0x1.999999999999ap-1 = Ok kw /\ (0 <=? kw) = true) /\
  (exists kw, load_kw_three 480 10 0x1.999999999999ap-1 = Ok kw /\ (0 <=? kw) = true).
Proof. apply (X12_load_is_never_negative 480 10 0x1.999999999999ap-1); reflexivity. Defined.

(** *** Ohm's law on finite numbers *)

Lemma Prim2SF_not_nan x : is_nan x = false <-> Prim2SF x <> S754_nan.
Proof.
  split.
  - intros H. unfold Prim2SF. rewrite H.
    destruct (is_zero x); [discriminate|]. destruct (is_infinity x); [discriminate|].
    destruct (Z.frexp x) as [r exp]. destruct (shr_fexp _ _ _ _ _) as [shr e'].
    now destruct (shr_m shr).
  - intros H. destruct (is_nan x) eqn:E; [|reflexivity].
    now rewrite (is_nan_Prim2SF x E) in H.
Qed.

Lemma finite_cases x :
  is_nan x = false -> is_infinity x = false ->
  (exists s, Prim2SF x = S754_zero s) \/ (exists s m e, Prim2SF x = S754_finite s m e).
Proof.
  intros Hn Hi. apply Prim2SF_not_nan in Hn.
  destruct (Prim2SF x) as [s|s| |s m e] eqn:E; eauto.
  - rewrite (is_infinity_SF x s E) in Hi. discriminate.
  - contradiction.
Qed.

(** The product of two finite numbers is a number. *)
Lemma mul_finite_not_nan x y :
  is_nan x = false -> is_infinity x = false ->
  is_nan y = false -> is_infinity y = false ->
  is_nan (x * y) = false.
Proof.
  intros Hx Hx' Hy Hy'. apply Prim2SF_not_nan. rewrite mul_spec.
  destruct (finite_cases x Hx Hx') as [[sx ->]|(sx & mx & ex & ->)];
    destruct (finite_cases y Hy Hy') as [[sy ->]|(sy & my & ey & ->)];
    cbn [SF64mul SFmul]; try discriminate.
  apply round_not_nan. lia.
Qed.

(** The quotient of a finite number by a finite number other than zero
    is a number. *)
Lemma div_finite_not_nan x y :
  is_nan x = false -> is_infinity x = false ->
  is_nan y = false -> is_infinity y = false -> (y =? 0) = false ->
  is_nan (x / y) = false.
Proof.
  intros Hx Hx' Hy Hy' Hy0. apply Prim2SF_not_nan. rewrite div_spec.
  rewrite FloatAxioms.eqb_spec, SF_zero in Hy0.
  destruct (finite_cases y Hy Hy') as [[sy Ey]|(sy & my & ey & Ey)]; rewrite Ey in *.
  - now destruct sy.
  - destruct (finite_cases x Hx Hx') as [[sx ->]|(sx & mx & ex & ->)];
      cbn [SF64div SFdiv]; [discriminate|].
    destruct (SFdiv_core_binary_q mx ex my ey) as (l & -> & _).
    apply round_not_nan. apply Z.div_pos; [|lia].
    apply Z.mul_nonneg_nonneg; [lia|]. apply Z.pow_nonneg. lia.
Qed.

(** X13: when none of V, I and R is an infinity, whatever Ohm's law
    returns holds three numbers, none of them NaN: the blank quantity is
    replaced by a product or by a quotient whose divisor is not zero
    (-0 counts as zero and is rejected), and such a result may overflow
    to an infinity but is never NaN. *)
Theorem X13_ohms_law_returns_numbers (v i r : float) (out : gmap string float) :
  is_infinity v = false -> is_infinity i = false -> is_infinity r = false ->
  ohms_law_compute (ohm_values v i r) = Ok out ->
  exists v' i' r', out = ohm_values v' i' r' /\
    is_nan v' = false /\ is_nan i' = false /\ is_nan r' = false.
Proof.
  intros Hv Hi Hr. rewrite (ohms_law_cases _ v i r) by (unfold ohm_values; now simplify_map_eq).
  unfold known, provided. cbn [List.filter].
  destruct (is_nan v) eqn:Nv, (is_nan i) eqn:Ni, (is_nan r) eqn:Nr;
    cbn [negb length Nat.eqb]; try discriminate.
  - intros [= <-]. do 3 eexists. split; [reflexivity|]. repeat split; auto.
    now apply mul_finite_not_nan.
  - destruct (r =? 0) eqn:R0; [discriminate|]. intros [= <-].
    do 3 eexists. split; [reflexivity|]. repeat split; auto.
    now apply div_finite_not_nan.
  - destruct (i =? 0) eqn:I0; [discriminate|]. intros [= <-].
    do 3 eexists. split; [reflexivity|]. repeat split; auto.
    now apply div_finite_not_nan.
Qed.

(** X13 at V = 120, I = 10 and R blank. *)
Lemma X13_ohms_law_returns_numbers_witness :
  exists v' i' r', ohm_values 120 10 (120 / 10) = ohm_values v' i' r' /\
    is_nan v' = false /\ is_nan i' = false /\ is_nan r' = false.
Proof.
  apply (X13_ohms_law_returns_numbers 120 10 NaN (ohm_values 120 10 (120 / 10)));
    reflexivity.
Defined.

(** X14: Ohm's law needs all three properties on the values object.  When
    volts, amps or ohms is absent (undefined), computing and formatting
    never produce a display: an absent property counts as provided, is
    never computed, and either a validation error is raised or format
    fails on reading toFixed from undefined. *)
Theorem X14_ohms_law_needs_every_property (host : Host) (d : gmap string float) :
  d !! "volts" = None \/ d !! "amps" = None \/ d !! "ohms" = None ->
  exists e, compute_and_format host "Ohm's Law" d = Throw e.
Proof.
  intros Hmiss. rewrite ohms_law_run. unfold ohms_law_compute.
  destruct (d !! "volts") as [v|] eqn:Ev, (d !! "amps") as [i|] eqn:Ei,
           (d !! "ohms") as [r|] eqn:Er;
    try (exfalso; destruct Hmiss as [H|[H|H]]; discriminate H);
    cbn [isNaN_val ToNumber strict_eq_zero List.filter with_prop negb length Nat.eqb];
    repeat match goal with
           | |- context [is_nan ?x] => destruct (is_nan x);
               cbn [isNaN_val ToNumber strict_eq_zero List.filter with_prop negb length Nat.eqb]
           | |- context [if ?c then _ else _] => destruct c
           end;
    try (eexists; reflexivity);
    unfold fixed; simplify_map_eq; eexists; reflexivity.
Qed.

(** X14 on the object [{volts: NaN, amps: 10}]. *)
Lemma X14_ohms_law_needs_every_property_witness :
  exists e,
    compute_and_format plain_host "Ohm's Law" (<["volts" := NaN]> (<["amps" := 10]> ∅)) =
      Throw e.
Proof.
  apply (X14_ohms_law_needs_every_property plain_host). right. right. reflexivity.
Defined.

End NumberFacts.

(** ** [service-worker.js]: from installation to answering requests *)

Module LifecycleFacts.
Import ServiceWorker Spec Session ServiceWorkerFacts.

(** *** Cache names *)

Lemma decimal_inj n1 n2 : JS.decimal n1 = JS.decimal n2 -> n1 = n2.
Proof.
  unfold JS.decimal. intros H.
  assert (E : NilZero.uint_of_string (NilZero.string_of_uint (N.to_uint n1)) =
              NilZero.uint_of_string (NilZero.string_of_uint (N.to_uint n2))) by now rewrite H.
  assert (Hnil : forall n, N.to_uint n <> Decimal.Nil).
  { intros [|p]; [discriminate|apply DecimalPos.Unsigned.to_uint_nonnil]. }
  rewrite !NilZero.usu in E by apply Hnil.
  injection E as E. now apply DecimalN.Unsigned.to_uint_inj.
Qed.

(** Workers evaluated at different times name their caches differently. *)
Lemma CACHE_inj n1 n2 : CACHE n1 = CACHE n2 -> n1 = n2.
Proof.
  unfold CACHE. intros H. apply decimal_inj.
  now apply (String.app_inj "ppc-cache-v2-").
Qed.

Section Lifecycle.
Context {Response : Type}.
Variable now : N.
Variable network : string -> option Response.

Abbreviation other :=
  (fun c : string * @Cache Response => negb (String.eqb (fst c) (CACHE now))).

(** *** Activation *)

(** X17: the two activate listeners give the same worker in either
    order, activating twice is activating once, and the worker has claimed
    its clients afterwards. *)
Theorem X17_activate_listeners_in_either_order (w : @Worker Response) :
  activate_first now (activate_second now w) = on_activate now w /\
  on_activate now (on_activate now w) = on_activate now w /\
  claimed_clients (on_activate now w) = true.
Proof.
  assert (Heq : forall a b : @Worker Response,
            caches a = caches b -> skipped_waiting a = skipped_waiting b ->
            claimed_clients a = claimed_clients b -> install_failed a = install_failed b ->
            a = b).
  { intros [] []; cbn; congruence. }
  split; [|split; [|reflexivity]].
  - apply Heq; try reflexivity. apply activate_listeners_commute.
  - apply Heq; try reflexivity. rewrite !on_activate_caches.
    induction (caches w) as [|c cs IH]; [reflexivity|]. cbn.
    destruct (String.eqb (fst c) (CACHE now)) eqn:E; [|exact IH]. cbn. now rewrite E, IH.
Qed.

(** X18: a worker evaluated at another time names its cache differently,
    and activation deletes every cache so named: no cache of another
    version of the worker survives the activate event. *)
Theorem X18_stale_versions_are_deleted (old : N) (w : @Worker Response) :
  old <> now ->
  CACHE old <> CACHE now /\
  ~ In (CACHE old) (caches_keys (caches (on_activate now w))).
Proof.
  intros Hne. assert (Hn : CACHE old <> CACHE now) by (intros E; now apply CACHE_inj in E).
  split; [exact Hn|]. rewrite on_activate_caches. unfold caches_keys.
  intros ([k c] & Hk & Hin)%in_map_iff. cbn in Hk. subst k.
  apply filter_In in Hin. destruct Hin as [_ E]. cbn in E. now apply String.eqb_eq in E.
Qed.

(** *** Installation *)

Lemma filter_other_open (cs : @CacheStorage Response) :
  List.filter other (caches_open (CACHE now) cs) = List.filter other cs.
Proof.
  unfold caches_open. destruct (caches_has _ _); [reflexivity|].
  rewrite List.filter_app. cbn. rewrite String.eqb_refl. cbn. apply app_nil_r.
Qed.

Lemma filter_other_set (c : @Cache Response) (cs : @CacheStorage Response) :
  List.filter other (set_cache (CACHE now) c cs) = List.filter other cs.
Proof.
  unfold set_cache. induction cs as [|e cs IH]; [reflexivity|]. cbn.
  destruct (String.eqb (fst e) (CACHE now)) eqn:E; cbn.
  - rewrite String.eqb_refl. cbn. exact IH.
  - rewrite E. cbn. now rewrite IH.
Qed.

(** X19: the install event, whether the network answers or not, leaves
    every cache under another name as it was, in the same order, makes
    sure the cache of this version exists, and asks to skip waiting. *)
Theorem X19_install_leaves_the_other_caches (w : @Worker Response) :
  List.filter other (caches (on_install now network w)) = List.filter other (caches w) /\
  caches_has (CACHE now) (caches (on_install now network w)) = true /\
  skipped_waiting (on_install now network w) = true.
Proof.
  unfold on_install, install_second. cbn [caches install_first skipped_waiting].
  assert (Hopen : caches_has (CACHE now) (caches_open (CACHE now) (caches w)) = true).
  { unfold caches_open. destruct (caches_has (CACHE now) (caches w)) eqn:E;
      [exact E|apply caches_has_new]. }
  destruct (cache_addAll _ _ _) as [c|]; cbn [caches skipped_waiting].
  - rewrite filter_other_set, filter_other_open. split; [reflexivity|]. split; [|reflexivity].
    revert Hopen. generalize (caches_open (CACHE now) (caches w)). intros cs.
    unfold caches_has, set_cache. induction cs as [|e cs IH]; [discriminate|]. cbn.
    destruct (String.eqb (fst e) (CACHE now)) eqn:E; cbn.
    + now rewrite String.eqb_refl.
    + rewrite E. exact IH.
  - rewrite filter_other_open. auto.
Qed.

Lemma fetch_all_none (urls : list string) url :
  In url urls -> network url = None -> fetch_all network urls = None.
Proof.
  induction urls as [|u urls IH]; intros Hin Hnone; [destruct Hin|]. cbn.
  destruct Hin as [->|Hin].
  - now rewrite Hnone.
  - rewrite (IH Hin Hnone). now destruct (network u).
Qed.

(** X20: when a single asset cannot be fetched, installation fails and
    stores nothing: the cache of this version has been opened, and holds
    what it held before (nothing, when it is new). *)
Theorem X20_install_stores_all_or_nothing (w : @Worker Response) (url : string) :
  In url ASSETS -> network url = None ->
  install_failed (on_install now network w) = true /\
  caches (on_install now network w) = caches_open (CACHE now) (caches w) /\
  cache_of (CACHE now) (caches (on_install now network w)) = cache_of (CACHE now) (caches w).
Proof.
  intros Hin Hnone. unfold on_install, install_second. cbn [caches install_first].
  change (List.filter Boolean ASSETS) with ASSETS. unfold cache_addAll.
  rewrite (fetch_all_none ASSETS url Hin Hnone). cbn [install_failed caches].
  split; [reflexivity|]. split; [reflexivity|].
  unfold caches_open. destruct (caches_has (CACHE now) (caches w)) eqn:E; [reflexivity|].
  etransitivity; [exact (cache_of_new (CACHE now) [] (caches w) E)|].
  unfold cache_of, caches_has in *.
  destruct (List.find _ (caches w)) as [c|] eqn:F; [|reflexivity].
  apply find_some in F. destruct F as [Hc Hk].
  assert (existsb (fun c => String.eqb (fst c) (CACHE now)) (caches w) = true)
    by (apply existsb_exists; eauto).
  congruence.
Qed.

(** *** A worker that is installed and active *)

Lemma fetch_all_served (served : string -> Response) (urls : list string) :
  (forall url, In url urls -> network url = Some (served url)) ->
  fetch_all network urls = Some (map (fun url => (url, served url)) urls).
Proof.
  induction urls as [|u urls IH]; intros H; [reflexivity|]. cbn.
  rewrite (H u) by now left. rewrite IH; [reflexivity|]. intros url Hu. apply H. now right.
Qed.

Lemma set_cache_new k (c c' : @Cache Response) (cs : @CacheStorage Response) :
  caches_has k cs = false ->
  set_cache k c (cs ++ [(k, c')])%list = (cs ++ [(k, c)])%list.
Proof.
  unfold caches_has, set_cache. induction cs as [|e cs IH]; cbn.
  - now rewrite String.eqb_refl.
  - destruct (String.eqb (fst e) k); [discriminate|]. intros H. now rewrite IH.
Qed.

Lemma filter_absent k (cs : @CacheStorage Response) :
  caches_has k cs = false -> List.filter (fun c => String.eqb (fst c) k) cs = [].
Proof.
  unfold caches_has. induction cs as [|e cs IH]; [reflexivity|]. cbn.
  destruct (String.eqb (fst e) k); [discriminate|]. exact IH.
Qed.

Lemma find_served (served : string -> Response) (urls : list string) url :
  List.find (fun e => String.eqb (fst e) url) (map (fun url => (url, served url)) urls) =
    if existsb (String.eqb url) urls then Some (url, served url) else None.
Proof.
  induction urls as [|u urls IH]; [reflexivity|]. cbn.
  rewrite (String.eqb_sym url u).
  destruct (String.eqb_spec u url) as [->|Hne]; [reflexivity|]. exact IH.
Qed.

(** The worker after a first installation on a network that serves every
    asset. *)
Lemma on_install_served (served : string -> Response) (w : @Worker Response) :
  caches_has (CACHE now) (caches w) = false ->
  (forall url, In url ASSETS -> network url = Some (served url)) ->
  on_install now network w =
    {| caches := (caches w ++ [(CACHE now, map (fun url => (url, served url)) ASSETS)])%list;
       skipped_waiting := true;
       claimed_clients := claimed_clients w;
       install_failed := install_failed w |}.
Proof.
  intros Hnew Hnet. unfold on_install, install_second. cbn [caches install_first].
  unfold caches_open. rewrite Hnew.
  pose proof (cache_of_new (CACHE now) [] (caches w) Hnew) as Hn.
  unfold Cache in Hn |- *. rewrite Hn. clear Hn.
  change (List.filter Boolean ASSETS) with ASSETS. unfold cache_addAll.
  rewrite (fetch_all_served served ASSETS Hnet).
  cbn [skipped_waiting claimed_clients install_failed install_first].
  f_equal. now rewrite set_cache_new by assumption.
Qed.

(** X21: once a worker has installed on a network that serves every
    asset and has activated, whatever caches were there before, the cache
    storage holds one cache, the one of this version, with the eight
    assets and the responses fetched at installation.  From then on a
    request for an asset is answered with that response whatever the
    network does, also when it fails, and any other request gets exactly
    what the network gives. *)
Theorem X21_installed_worker_answers_offline (served : string -> Response)
  (w : @Worker Response) :
  caches_has (CACHE now) (caches w) = false ->
  (forall url, In url ASSETS -> network url = Some (served url)) ->
  let ready := on_activate now (on_install now network w) in
  caches ready = [(CACHE now, map (fun url => (url, served url)) ASSETS)] /\
  install_failed ready = install_failed w /\
  forall (later : string -> option Response) (url : string),
    on_fetch later url ready = if existsb (String.eqb url) ASSETS then Some (served url)
                               else later url.
Proof.
  intros Hnew Hnet ready.
  assert (Hc : caches ready = [(CACHE now, map (fun url => (url, served url)) ASSETS)]).
  { unfold ready. rewrite on_activate_caches, (on_install_served served w Hnew Hnet).
    cbn [caches]. rewrite List.filter_app, filter_absent by assumption.
    cbn [List.filter fst app]. now rewrite String.eqb_refl. }
  split; [exact Hc|]. split.
  - unfold ready. now rewrite (on_install_served served w Hnew Hnet).
  - intros later url. unfold on_fetch. rewrite Hc. cbn [caches_match].
    rewrite find_served. now destruct (existsb _ _).
Qed.

End Lifecycle.

(** X18 on the worker that shares its origin with another application:
    the cache of the worker evaluated five seconds earlier is gone. *)
Lemma X18_stale_versions_are_deleted_witness :
  CACHE 1700000000000 <> CACHE 1700000005000 /\
  ~ In (CACHE 1700000000000)
       (caches_keys (caches (on_activate 1700000005000 foreign_worker))).
Proof.
  apply (X18_stale_versions_are_deleted 1700000005000 1700000000000 foreign_worker).
  discriminate.
Defined.

(** X20 on a worker without caches and a network on which the script
    cannot be fetched. *)
Lemma X20_install_stores_all_or_nothing_witness :
  install_failed (on_install 1700000005000 (network_without "./app.js") fresh_worker) = true /\
  caches (on_install 1700000005000 (network_without "./app.js") fresh_worker) =
    caches_open (CACHE 1700000005000) (caches fresh_worker) /\
  cache_of (CACHE 1700000005000)
    (caches (on_install 1700000005000 (network_without "./app.js") fresh_worker)) =
    cache_of (CACHE 1700000005000) (caches fresh_worker).
Proof.
  apply (X20_install_stores_all_or_nothing 1700000005000 (network_without "./app.js")
           fresh_worker "./app.js").
  - cbn. tauto.
  - reflexivity.
Defined.

(** X21 on a worker without caches and a network that serves every
    request: afterwards the script is served whatever the network does. *)
Lemma X21_installed_worker_answers_offline_witness :
  on_fetch (fun _ => None) "./app.js"
    (on_activate 1700000005000 (on_install 1700000005000 echo_network fresh_worker)) =
  Some "./app.js".
Proof.
  exact (proj2 (proj2 (X21_installed_worker_answers_offline 1700000005000 echo_network
                         (fun url => url) fresh_worker eq_refl (fun url _ => eq_refl)))
               (fun _ => None) "./app.js").
Defined.

End LifecycleFacts.
